(** * WorkAny sandbox providers: a shallow embedding and its properties

    The development follows the TypeScript sources of the sandbox layer:

    - [core/sandbox/plugin.ts]   : [defineSandboxPlugin], [BaseSandboxProvider]
    - [extensions/sandbox/codex.ts]   : [CodexProvider]
    - [extensions/sandbox/boxlite.ts] : module-level runtime cache and
      [BoxLiteProvider]

    JavaScript strings are modelled by [string], holding the bytes of their
    UTF-8 encoding (a well-formed string, without lone surrogates), numbers
    that are exit codes or clock readings by [Z], [undefined]/[null] by
    [option], a [throw] by the [Throw] constructor of [Res], and the state
    of a promise by [Pending], [Resolved] or [Rejected].  Calls that
    leave the program (creating a box, running a command in it, touching the
    host file system, spawning a process) are recorded in an effect log and
    answered by an oracle, so that every statement below quantifies over all
    behaviours of the outside world. *)

From Stdlib Require Import String Ascii List ZArith Bool Lia Arith.
From Stdlib Require Import Numbers.DecimalString.
Import ListNotations.

Open Scope string_scope.
Open Scope list_scope.

(* ================================================================== *)
(** ** JavaScript values and string primitives *)
(* ================================================================== *)

Module Js.

(** A thrown value.  Every [throw] of the modelled sources raises an
    [Error] object; the [catch] block of [BoxLiteProvider.exec] also reads
    the optional [stdout], [stderr] and [exitCode] properties that the box
    library may attach to it. *)
Record JsError := mkError {
  message    : string;
  e_stdout   : option string;
  e_stderr   : option string;
  e_exitCode : option Z
}.

(** [new Error(msg)] *)
Definition Error (msg : string) : JsError := mkError msg None None None.

(** [String(error)] for an [Error] object ([Error.prototype.toString]). *)
Definition String_of (e : JsError) : string :=
  if (message e =? "") then "Error" else "Error: " ++ message e.

(** Outcome of a call: a value, or a thrown error. *)
Inductive Res (A : Type) : Type :=
| Ok (a : A)
| Throw (e : JsError).
Arguments Ok {A} a.
Arguments Throw {A} e.

(** Truthiness of a string and the [a || b] idiom on optional values. *)
Definition truthy (s : string) : bool := negb (s =? "").

Definition or_str (o : option string) (d : string) : string :=
  match o with
  | Some s => if truthy s then s else d
  | None => d
  end.

Definition or_num (o : option Z) (d : Z) : Z :=
  match o with
  | Some z => if (z =? 0)%Z then d else z
  | None => d
  end.

(** [s.startsWith(p)] *)
Definition startsWith (s p : string) : bool := String.prefix p s.

(** [s.endsWith(t)]: [t] is [s] or a suffix of the tail of [s]. *)
Fixpoint endsWith (s t : string) : bool :=
  (s =? t) ||
  match s with
  | EmptyString => false
  | String _ s' => endsWith s' t
  end.

(** [xs.join(sep)] *)
Fixpoint join (sep : string) (xs : list string) : string :=
  match xs with
  | [] => ""
  | [x] => x
  | x :: rest => x ++ sep ++ join sep rest
  end.

Definition newline : ascii := ascii_of_nat 10.
Definition nl : string := String newline "".

(** White space in the sense of [String.prototype.trim] and of the
    regular expression class [\s]: the WhiteSpace and LineTerminator code
    points of ECMAScript.  A string holds the bytes of the UTF-8 encoding of
    the JavaScript string, so a white-space character is one, two or three
    bytes long: tab, line feed, vertical tab, form feed, carriage return
    and space; U+00A0; U+1680, U+2000 to U+200A, U+2028, U+2029, U+202F,
    U+205F, U+3000 and U+FEFF. *)
Definition is_space (c : ascii) : bool :=
  let n := nat_of_ascii c in
  ((n =? 32) || (n =? 9) || (n =? 10) || (n =? 11) || (n =? 12) || (n =? 13))%nat.

Definition is_space2 (a b : ascii) : bool :=
  ((nat_of_ascii a =? 194) && (nat_of_ascii b =? 160))%nat.

Definition is_space3 (a b c : ascii) : bool :=
  let x := nat_of_ascii a in
  let y := nat_of_ascii b in
  let z := nat_of_ascii c in
  (((x =? 225) && (y =? 154) && (z =? 128))
   || ((x =? 226) && (y =? 128)
       && (((128 <=? z) && (z <=? 138)) || (z =? 168) || (z =? 169) || (z =? 175)))
   || ((x =? 226) && (y =? 129) && (z =? 159))
   || ((x =? 227) && (y =? 128) && (z =? 128))
   || ((x =? 239) && (y =? 187) && (z =? 191)))%nat.

Fixpoint trimStart (s : string) : string :=
  match s with
  | EmptyString => ""
  | String a s1 =>
      if is_space a then trimStart s1
      else
        match s1 with
        | String b s2 =>
            if is_space2 a b then trimStart s2
            else
              match s2 with
              | String c s3 => if is_space3 a b c then trimStart s3 else s
              | EmptyString => s
              end
        | EmptyString => s
        end
  end.

(** Drops trailing white space: what follows a position is dropped when
    it is white space up to the end of the string. *)
Fixpoint trimEnd (s : string) : string :=
  match s with
  | EmptyString => ""
  | String c s' => if (trimStart s =? "") then "" else String c (trimEnd s')
  end.

Definition trim (s : string) : string := trimEnd (trimStart s).

(** [s.replace(/\s/g, '')] *)
Fixpoint strip_spaces (s : string) : string :=
  match s with
  | EmptyString => ""
  | String a s1 =>
      if is_space a then strip_spaces s1
      else
        match s1 with
        | String b s2 =>
            if is_space2 a b then strip_spaces s2
            else
              match s2 with
              | String c s3 =>
                  if is_space3 a b c then strip_spaces s3
                  else String a (strip_spaces s1)
              | EmptyString => String a (strip_spaces s1)
              end
        | EmptyString => String a ""
        end
  end.

(** [s.split(sep)] for a one-character separator; the accumulator holds
    the current piece.  [split_on c s ""] always yields at least one
    piece, as in JavaScript. *)
Fixpoint split_on (c : ascii) (s : string) (cur : string) : list string :=
  match s with
  | EmptyString => [cur]
  | String d s' =>
      if Ascii.eqb d c then cur :: split_on c s' ""
      else split_on c s' (cur ++ String d "")
  end.

Definition split (s : string) (c : ascii) : list string := split_on c s "".

(** [s.toLowerCase()] on ASCII letters; the bytes of other characters are
    left as they are.  The result is only ever compared with the lower-case
    ASCII extensions [py], [js], [mjs], [ts] and [mts], and no character
    outside ASCII lowers to a text made of these letters. *)
Definition lower_ascii (c : ascii) : ascii :=
  let n := nat_of_ascii c in
  if ((65 <=? n) && (n <=? 90))%nat then ascii_of_nat (n + 32) else c.

Fixpoint toLowerCase (s : string) : string :=
  match s with
  | EmptyString => ""
  | String c s' => String (lower_ascii c) (toLowerCase s')
  end.

(** [s.includes(c)] for a single character. *)
Fixpoint includes_char (s : string) (c : ascii) : bool :=
  match s with
  | EmptyString => false
  | String d s' => Ascii.eqb d c || includes_char s' c
  end.

(** A text between double quotes, as the shell commands built from
    template strings have it. *)
Definition dq : string := String (ascii_of_nat 34) "".
Definition quoted (s : string) : string := dq ++ s ++ dq.

(** Decimal rendering of a number inside a template string. *)
Definition Z_to_string (z : Z) : string := NilZero.string_of_int (Z.to_int z).

End Js.

Export Js.

(* ================================================================== *)
(** ** Node's [path] module (POSIX flavour) *)
(* ================================================================== *)

Module Path.

Definition slash : ascii := "/"%char.
Definition dot : ascii := "."%char.

(** Removes trailing slashes. *)
Fixpoint strip_trailing_slashes (s : string) : string :=
  match s with
  | EmptyString => ""
  | String c s' =>
      match strip_trailing_slashes s' with
      | EmptyString => if Ascii.eqb c slash then "" else String c ""
      | t => String c t
      end
  end.

(** The part of [s] after its last slash ([cur] accumulates it). *)
Fixpoint after_last_slash (s : string) (cur : string) : string :=
  match s with
  | EmptyString => cur
  | String c s' =>
      if Ascii.eqb c slash then after_last_slash s' ""
      else after_last_slash s' (cur ++ String c "")
  end.

(** [path.basename(p)]: the last component, trailing slashes ignored. *)
Definition basename (p : string) : string :=
  after_last_slash (strip_trailing_slashes p) "".

(** Position-free search for the last dot of a component: returns the
    text before the last dot and the text from the last dot on. *)
Fixpoint last_dot (s : string) (before : string) (found : option (string * string))
  : option (string * string) :=
  match s with
  | EmptyString => found
  | String c s' =>
      if Ascii.eqb c dot
      then last_dot s' (before ++ String c "") (Some (before, s))
      else last_dot s' (before ++ String c "") found
  end.

(** [path.extname(p)]: from the last dot of the last component to its end;
    empty when there is no dot, when the only dot starts the component,
    and for the component [".."]. *)
Definition extname (p : string) : string :=
  let base := basename p in
  match last_dot base "" None with
  | None => ""
  | Some (before, ext) =>
      if (before =? "") then ""
      else if (base =? "..") then ""
      else ext
  end.

(** [normalizeString]: one segment of the path is added to the segments
    kept so far ([acc], last segment first).  Empty segments and [.] are
    dropped; [..] removes the segment before it, or is kept when there is
    none to remove and the path is relative. *)
Definition push_segment (allowAboveRoot : bool) (acc : list string) (seg : string)
  : list string :=
  if (seg =? "") || (seg =? ".") then acc
  else if (seg =? "..") then
    match acc with
    | top :: rest =>
        if (top =? "..") then (if allowAboveRoot then seg :: acc else acc) else rest
    | [] => if allowAboveRoot then [seg] else []
    end
  else seg :: acc.

Definition ends_with_slash (p : string) : bool :=
  match String.get (String.length p - 1) p with
  | Some c => Ascii.eqb c slash
  | None => false
  end.

(** [path.normalize(p)] *)
Definition normalize (p : string) : string :=
  if (p =? "") then "."
  else
    let isAbsolute := match p with String c _ => Ascii.eqb c slash | EmptyString => false end in
    let trailingSeparator := ends_with_slash p in
    let body :=
      join "/" (rev (fold_left (push_segment (negb isAbsolute)) (split p slash) [])) in
    if (body =? "") then
      (if isAbsolute then "/" else if trailingSeparator then "./" else ".")
    else
      (if isAbsolute then "/" else "") ++ body ++ (if trailingSeparator then "/" else "").

(** [path.join(...segments)]: the non-empty segments are joined with a
    slash and the result is normalized. *)
Definition join (segments : list string) : string :=
  match filter truthy segments with
  | [] => "."
  | parts => normalize (Js.join "/" parts)
  end.

End Path.

(* ================================================================== *)
(** ** core/sandbox/types.ts *)
(* ================================================================== *)

Inductive Isolation := vm | container | process | none.

Record SandboxCapabilities := {
  cap_supportsVolumeMounts : bool;
  cap_supportsNetworking : bool;
  cap_isolation : Isolation;
  cap_supportedRuntimes : list string;
  cap_supportsPooling : bool
}.

Record SandboxExecOptions := {
  command : string;
  args : option (list string);
  cwd : option string;
  env : option (list (string * string));
  timeout : option Z;
  image : option string
}.

(** [SandboxExecResult]; the optional [provider] field is filled in by the
    callers of a provider, never by the providers themselves, and is left
    out. *)
Record SandboxExecResult := {
  stdout : string;
  stderr : string;
  exitCode : Z;
  duration : Z
}.

Record ScriptOptions := {
  so_args : option (list string);
  so_env : option (list (string * string));
  so_timeout : option Z;
  packages : option (list string)
}.

(** [options?.field] read as a list: missing options, or a missing field,
    give no element. *)
Definition option_list (o : option ScriptOptions) (f : ScriptOptions -> option (list string))
  : list string :=
  match o with
  | Some so => match f so with Some l => l | None => [] end
  | None => []
  end.

Record VolumeMount := {
  hostPath : string;
  guestPath : string;
  readOnly : option bool
}.

(* ================================================================== *)
(** ** core/sandbox/plugin.ts *)
(* ================================================================== *)

Module Plugin.

(** [SandboxProviderMetadata]; the JSON [configSchema] carries no
    behaviour and is kept as its source name only. *)
Record SandboxProviderMetadata := {
  type : string;
  name : string;
  version : string;
  description : string;
  configSchema : string;
  builtin : option bool;
  isolation : Isolation;
  supportedRuntimes : list string;
  supportsVolumeMounts : bool;
  supportsNetworking : bool;
  supportsPooling : bool;
  tags : option (list string)
}.

(** What the [factory] property holds at run time.  TypeScript types it
    as a function; [defineSandboxPlugin] re-checks with [typeof], so the
    model keeps the values a JavaScript caller can put there. *)
Inductive JsValue :=
| JsUndefined
| JsNull
| JsString (s : string)
| JsObject
| JsFunction (fname : string).

Definition typeof (v : JsValue) : string :=
  match v with
  | JsUndefined => "undefined"
  | JsNull => "object"
  | JsString _ => "string"
  | JsObject => "object"
  | JsFunction _ => "function"
  end.

Record SandboxPlugin := {
  metadata : SandboxProviderMetadata;
  factory : JsValue;
  onInit : option string;
  onDestroy : option string
}.

Definition defineSandboxPlugin (plugin : SandboxPlugin) : Res SandboxPlugin :=
  if negb (truthy (type (metadata plugin))) then
    Throw (Error "Sandbox plugin must have a type")
  else if negb (truthy (name (metadata plugin))) then
    Throw (Error "Sandbox plugin must have a name")
  else if negb (typeof (factory plugin) =? "function") then
    Throw (Error "Sandbox plugin must have a factory function")
  else Ok plugin.

(** [BaseSandboxProvider.detectRuntime]:
    [filePath.split('.').pop()?.toLowerCase() || ''] followed by the
    [switch]. *)
Definition last_piece (filePath : string) : string :=
  last (split filePath Path.dot) "".

Definition detectRuntime (filePath : string) : string * string :=
  let ext := toLowerCase (last_piece filePath) in
  if ext =? "py" then ("python", "python:3.11-slim")
  else if (ext =? "ts") || (ext =? "mts") then ("bun", "oven/bun:latest")
  else ("node", "node:18-alpine").

Definition CODEX_CLI_METADATA : SandboxProviderMetadata := {|
  type := "codex";
  name := "Codex Sandbox";
  version := "1.0.0";
  description := "Uses OpenAI Codex's sandbox feature for isolated script execution.";
  configSchema := "codexPath";
  builtin := None;
  isolation := process;
  supportedRuntimes := ["node"; "python"; "bun"];
  supportsVolumeMounts := false;
  supportsNetworking := false;
  supportsPooling := false;
  tags := None
|}.

(** [codexPlugin], as passed to [defineSandboxPlugin] in codex.ts. *)
Definition codexPlugin_def : SandboxPlugin := {|
  metadata := CODEX_CLI_METADATA;
  factory := JsFunction "createCodexProvider";
  onInit := None;
  onDestroy := None
|}.

End Plugin.

(* ================================================================== *)
(** ** extensions/sandbox/codex.ts *)
(* ================================================================== *)

Module Codex.

(** What the provider reads from the host.  [which_codex] is the outcome of
    [execSync('which codex')] (of [where codex] on win32); [path_join_parts]
    is [path.join] in the flavour of the host, whose result is never the
    empty string ([.] stands for an empty path) and is therefore given as
    its first character and the rest; [bundledPaths] is the candidate list
    that [getBundledCodexPath] builds with [path.join] from
    [process.execPath] and [__dirname]; [process_cwd] is what
    [process.cwd()] returns when it returns; [clock n] is the [n]-th
    reading of [Date.now()] during one call. *)
Record Host := {
  platform : string;
  CODEX_PATH : option string;
  existsSync : string -> bool;
  which_codex : Res string;
  homedir : string;
  path_join_parts : list string -> ascii * string;
  bundledPaths : list string;
  process_cwd : string;
  clock : nat -> Z
}.

(** [path.join(...segments)] *)
Definition path_join (h : Host) (segments : list string) : string :=
  String (fst (path_join_parts h segments)) (snd (path_join_parts h segments)).

Definition getBundledCodexPath (h : Host) : option string :=
  find (existsSync h) (bundledPaths h).

Definition commonPaths (h : Host) : list string :=
  if platform h =? "win32"
  then [path_join h [homedir h; "AppData"; "Roaming"; "npm"; "codex.cmd"]]
  else ["/usr/local/bin/codex";
        path_join h [homedir h; ".local"; "bin"; "codex"];
        path_join h [homedir h; ".npm-global"; "bin"; "codex"]].

(** Priority: CODEX_PATH env > which/where > common paths > bundled. *)
Definition getCodexPath (h : Host) : option string :=
  let from_common :=
    match find (existsSync h) (commonPaths h) with
    | Some p => Some p
    | None =>
        match getBundledCodexPath h with
        | Some p => if truthy p then Some p else None
        | None => None
        end
    end in
  let from_which :=
    match which_codex h with
    | Ok out =>
        let r := trim out in
        let firstPath := if platform h =? "win32" then hd "" (split r newline) else r in
        if truthy firstPath && existsSync h firstPath then Some firstPath
        else from_common
    | Throw _ => from_common
    end in
  match CODEX_PATH h with
  | Some p => if truthy p && existsSync h p then Some p else from_which
  | None => from_which
  end.

Record CodexProvider := {
  codexPath : option string;
  volumes : list VolumeMount
}.

Definition new_CodexProvider : CodexProvider :=
  {| codexPath := None; volumes := [] |}.

Definition set_codexPath (p : option string) (this : CodexProvider) : CodexProvider :=
  {| codexPath := p; volumes := volumes this |}.

(** [!this.codexPath] *)
Definition no_codex (this : CodexProvider) : bool :=
  match codexPath this with
  | Some p => negb (truthy p)
  | None => true
  end.

Definition isAvailable (h : Host) (this : CodexProvider) : bool * CodexProvider :=
  let p := getCodexPath h in
  (match p with Some _ => true | None => false end, set_codexPath p this).

(** [init] only logs; it has no [throw]. *)
Definition init (h : Host) (this : CodexProvider) : Res unit * CodexProvider :=
  (Ok tt, set_codexPath (getCodexPath h) this).

Definition stop (this : CodexProvider) : Res unit * CodexProvider := (Ok tt, this).

Definition shutdown (this : CodexProvider) : Res unit * CodexProvider := stop this.

Definition setVolumes (v : list VolumeMount) (this : CodexProvider) : CodexProvider :=
  {| codexPath := codexPath this; volumes := v |}.

(** Calls that leave the process.  A spawn is recorded with the file, the
    arguments and the working directory; the environment handed to the
    child plays no part in what follows. *)
Inductive Effect :=
| ExecSync (cmd : string) (cwd : string)
| Spawn (file : string) (argv : list string) (cwd : string)
| SetTimeout (ms : Z)
| ClearTimeout
| Kill (signal : string).

(** What the child process does, in the order the event loop delivers it.
    [OnClose None] is a child ended by a signal, for which Node passes
    [code = null]; [OnError] is a spawn failure that Node reports through
    the [error] event. *)
Inductive ProcEvent :=
| OnStdout (data : string)
| OnStderr (data : string)
| TimerFires
| OnClose (code : option Z)
| OnError (msg : string).

(** What the outside world does during one call.  [process.cwd()] can
    throw (the working directory was removed); [spawn] can throw before it
    returns a child (a [cwd] that is not a directory, an argument list that
    is too long, an invalid argument); when it returns, the child delivers
    [child_events].  A component is looked at only when the call gets
    there. *)
Record Behaviour := {
  cwd_error : option JsError;
  spawn_error : option JsError;
  child_events : list ProcEvent
}.

(** A call in which nothing throws and the child delivers [trace]. *)
Definition runs (trace : list ProcEvent) : Behaviour :=
  {| cwd_error := None; spawn_error := None; child_events := trace |}.

(** The state of the promise that a call returned. *)
Inductive Promise (A : Type) : Type :=
| Pending
| Resolved (a : A)
| Rejected (e : JsError).
Arguments Pending {A}.
Arguments Resolved {A} a.
Arguments Rejected {A} e.

(** The variables captured by the listeners of one call: the two buffers,
    [timeoutId] (whether a timer was created), whether that timer can
    still fire, and the settled value of the promise. *)
Record Listeners := {
  l_stdout : string;
  l_stderr : string;
  timeoutId : bool;
  pending : bool;
  resolved : option SandboxExecResult;
  effects : list Effect
}.

(** [resolve(r)]: only the first call settles the promise. *)
Definition resolve (r : SandboxExecResult) (o : option SandboxExecResult) :=
  match o with
  | Some r0 => Some r0
  | None => Some r
  end.

(** [if (timeoutId) clearTimeout(timeoutId)]; [runScript] always has a
    timer. *)
Definition clear (l : Listeners) : list Effect :=
  if timeoutId l then effects l ++ [ClearTimeout] else effects l.

Definition handle (dur : Z) (l : Listeners) (ev : ProcEvent) : Listeners :=
  match ev with
  | OnStdout d =>
      {| l_stdout := (l_stdout l ++ d)%string; l_stderr := l_stderr l;
         timeoutId := timeoutId l; pending := pending l;
         resolved := resolved l; effects := effects l |}
  | OnStderr d =>
      {| l_stdout := l_stdout l; l_stderr := (l_stderr l ++ d)%string;
         timeoutId := timeoutId l; pending := pending l;
         resolved := resolved l; effects := effects l |}
  | TimerFires =>
      if pending l then
        {| l_stdout := l_stdout l;
           l_stderr := (l_stderr l ++ nl ++ "Execution timed out")%string;
           timeoutId := timeoutId l; pending := false; resolved := resolved l;
           effects := effects l ++ [Kill "SIGTERM"] |}
      else l
  | OnClose code =>
      {| l_stdout := l_stdout l; l_stderr := l_stderr l;
         timeoutId := timeoutId l; pending := false;
         resolved := resolve {| stdout := l_stdout l; stderr := l_stderr l;
                                exitCode := or_num code 0; duration := dur |}
                             (resolved l);
         effects := clear l |}
  | OnError msg =>
      {| l_stdout := l_stdout l; l_stderr := l_stderr l;
         timeoutId := timeoutId l; pending := false;
         resolved := resolve {| stdout := l_stdout l; stderr := (l_stderr l ++ nl ++ msg)%string;
                                exitCode := 1; duration := dur |}
                             (resolved l);
         effects := clear l |}
  end.

Definition run_listeners (dur : Z) (l : Listeners) (trace : list ProcEvent) : Listeners :=
  fold_left (handle dur) trace l.

Definition sandboxSubcommand (h : Host) : string :=
  if platform h =? "darwin" then "macos"
  else if platform h =? "linux" then "linux" else "macos".

(** [/[&|;<>]/.test(command)] *)
Definition has_shell_operator (s : string) : bool :=
  includes_char s "&" || includes_char s "|" || includes_char s ";"
  || includes_char s "<" || includes_char s ">".

Definition elapsed (h : Host) : Z := (clock h 1 - clock h 0)%Z.

(** The promise as the listeners left it. *)
Definition promise_of (l : Listeners) : Promise SandboxExecResult :=
  match resolved l with
  | Some r => Resolved r
  | None => Pending
  end.

(** [cwd || process.cwd()]: [process.cwd()] is called only for a missing or
    empty [cwd]. *)
Definition calls_process_cwd (options : SandboxExecOptions) : bool :=
  match cwd options with
  | Some c => negb (truthy c)
  | None => true
  end.

(** The [spawn] call of [exec]: the command goes through [sh -c] when it
    holds a shell operator, or a space and no arguments. *)
Definition exec_spawn (h : Host) (this : CodexProvider) (options : SandboxExecOptions)
  : Effect :=
  let argv := match args options with Some a => a | None => [] end in
  let workDir := or_str (cwd options) (process_cwd h) in
  let needsShell :=
    has_shell_operator (command options)
    || (includes_char (command options) " " && (length argv =? 0)%nat) in
  let spawnArgs :=
    if needsShell then
      let fullCommand :=
        if (0 <? length argv)%nat then (command options ++ " " ++ join " " argv)%string
        else command options in
      ["sandbox"; sandboxSubcommand h; "--full-auto"; "--"; "sh"; "-c"; fullCommand]
    else
      ["sandbox"; sandboxSubcommand h; "--full-auto"; "--"; command options] ++ argv in
  Spawn (or_str (codexPath this) "") spawnArgs workDir.

(** The listeners of [exec] once the child is spawned and the timer, if
    any, is set. *)
Definition exec_start (h : Host) (this : CodexProvider) (options : SandboxExecOptions)
  : Listeners :=
  let armed := match timeout options with
               | Some t => negb (t =? 0)%Z
               | None => false
               end in
  {| l_stdout := ""; l_stderr := ""; timeoutId := armed; pending := armed;
     resolved := None;
     effects := exec_spawn h this options
                :: (if armed then [SetTimeout (or_num (timeout options) 0)] else []) |}.

(** [exec]: the state of the returned promise together with the effects
    performed.  Neither [process.cwd()] nor [spawn] is inside a [try]: when
    one of them throws, the promise is rejected. *)
Definition exec (h : Host) (this : CodexProvider) (options : SandboxExecOptions)
  (w : Behaviour) : Promise SandboxExecResult * list Effect :=
  if no_codex this then
    (Resolved {| stdout := ""; stderr := "Codex CLI is not installed";
                 exitCode := 1; duration := elapsed h |}, [])
  else
    match (if calls_process_cwd options then cwd_error w else None) with
    | Some e => (Rejected e, [])
    | None =>
        match spawn_error w with
        | Some e => (Rejected e, [exec_spawn h this options])
        | None =>
            let l := run_listeners (elapsed h) (exec_start h this options) (child_events w) in
            (promise_of l, effects l)
        end
    end.

(** The runtime chosen by [runScript] from the lowered extension:
    the command, its first arguments, and [isPython]. *)
Definition select_runtime (filePath : string) : string * list string * bool :=
  let ext := toLowerCase (Path.extname filePath) in
  if (ext =? ".js") || (ext =? ".mjs") then ("node", [filePath], false)
  else if (ext =? ".ts") || (ext =? ".mts") then ("npx", ["tsx"; filePath], false)
  else ("python", [filePath], true).

(** The package installation of [runScript] on the host, when there are
    packages. *)
Definition script_install (filePath workDir : string) (options : option ScriptOptions)
  : list Effect :=
  let pkgs := option_list options packages in
  let installCmd :=
    ((if snd (select_runtime filePath) then "pip install " else "npm install ")
     ++ join " " pkgs)%string in
  if (0 <? length pkgs)%nat then [ExecSync installCmd workDir] else [].

(** The [spawn] call of [runScript]. *)
Definition script_spawn (h : Host) (this : CodexProvider)
  (filePath workDir : string) (options : option ScriptOptions) : Effect :=
  Spawn (or_str (codexPath this) "")
    (["sandbox"; sandboxSubcommand h; "--full-auto"; "--";
      fst (fst (select_runtime filePath))]
     ++ snd (fst (select_runtime filePath)) ++ option_list options so_args)
    workDir.

(** The listeners of [runScript] once the child is spawned and the timer
    is set. *)
Definition script_start (h : Host) (this : CodexProvider)
  (filePath workDir : string) (options : option ScriptOptions) : Listeners :=
  {| l_stdout := ""; l_stderr := ""; timeoutId := true; pending := true;
     resolved := None;
     effects := script_install filePath workDir options
                ++ [script_spawn h this filePath workDir options;
                    SetTimeout
                      (or_num (match options with Some o => so_timeout o | None => None end)
                              120000)] |}.

(** [runScript]; [install] is the outcome of the [execSync] that installs
    the packages (consulted only when that call is made).  The [spawn] is
    not inside a [try] either. *)
Definition runScript (h : Host) (this : CodexProvider)
  (filePath workDir : string) (options : option ScriptOptions)
  (install : Res string) (w : Behaviour)
  : Promise SandboxExecResult * list Effect :=
  if no_codex this then
    (Resolved {| stdout := "";
                 stderr := "Codex CLI is not installed. Install with: npm install -g @openai/codex";
                 exitCode := 1; duration := elapsed h |}, [])
  else
    let installing := (0 <? length (option_list options packages))%nat in
    match (if installing then install else Ok "") with
    | Throw e =>
        (Resolved {| stdout := "";
                     stderr := ("Failed to install packages: " ++ message e)%string;
                     exitCode := 1; duration := elapsed h |},
         script_install filePath workDir options)
    | Ok _ =>
        match spawn_error w with
        | Some e =>
            (Rejected e,
             script_install filePath workDir options
             ++ [script_spawn h this filePath workDir options])
        | None =>
            let l := run_listeners (elapsed h)
                       (script_start h this filePath workDir options) (child_events w) in
            (promise_of l, effects l)
        end
    end.

End Codex.

(* ================================================================== *)
(** ** extensions/sandbox/boxlite.ts *)
(* ================================================================== *)

Module BoxLite.

(** [path.dirname], written as Node's backward scan: trailing slashes are
    skipped, the first slash met after a non-slash character ends the
    directory part. *)
Definition char_is_slash (p : string) (i : nat) : bool :=
  match String.get i p with
  | Some c => Ascii.eqb c Path.slash
  | None => false
  end.

Fixpoint dirname_scan (p : string) (i : nat) (matchedSlash : bool) : option nat :=
  match i with
  | O => None
  | S j =>
      if char_is_slash p i then
        if negb matchedSlash then Some i else dirname_scan p j matchedSlash
      else dirname_scan p j false
  end.

Definition dirname (p : string) : string :=
  if (p =? "") then "."
  else
    let hasRoot := char_is_slash p 0 in
    match dirname_scan p (String.length p - 1) true with
    | None => if hasRoot then "/" else "."
    | Some e => if hasRoot && (e =? 1)%nat then "//" else substring 0 e p
    end.

(** The native addon, as far as the code looks at it:
    [nativeModule?.JsBoxlite]. *)
Record NativeModule := { JsBoxlite : bool }.

(** The two classes that [SimpleBox] can be bound to. *)
Inductive BoxClass := SimpleBoxDirect | SimpleBoxNpm.

(** The module-level [let] variables. *)
Record Globals := {
  SimpleBox : option BoxClass;
  boxliteModuleLoaded : bool;
  boxliteRuntimeVerified : bool;
  boxliteRuntimeError : option string;
  nativeModule : option NativeModule
}.

Definition initial_globals : Globals :=
  {| SimpleBox := None; boxliteModuleLoaded := false;
     boxliteRuntimeVerified := false; boxliteRuntimeError := None;
     nativeModule := None |}.

Record Config := {
  memoryMib : option Z;
  cpus : option Z;
  workDir : option string;
  autoRemove : option bool
}.

Record BoxOptions := {
  bo_image : string;
  bo_memoryMib : Z;
  bo_cpus : Z;
  bo_autoRemove : bool;
  bo_workingDir : option string;
  bo_volumes : list VolumeMount
}.

(** The fields of a [BoxLiteProvider]; a box is known by the position of
    its constructor call in the effect log. *)
Record BoxLiteProvider := {
  config : Config;
  volumes : list VolumeMount;
  box : option nat;
  currentImage : string
}.

Definition new_BoxLiteProvider : BoxLiteProvider :=
  {| config := {| memoryMib := Some 1024%Z; cpus := Some 2%Z;
                  workDir := Some "/workspace"; autoRemove := Some true |};
     volumes := [];
     box := None;
     currentImage := "node:18-alpine" |}.

(** Who called a box constructor: the provider instance for its own box,
    or the module-level runtime check for its test box. *)
Inductive Owner := ByProvider | ByProbe.

(** Calls that leave the program.  A constructor call that returns is
    [BoxNew], one that throws is [BoxNewThrew] and leaves no object. *)
Inductive Event :=
| LoadNative
| ImportPackage
| BoxNew (id : nat) (owner : Owner) (cls : BoxClass) (opts : BoxOptions)
| BoxNewThrew (owner : Owner) (cls : BoxClass) (opts : BoxOptions)
| BoxExec (id : nat) (cmd : string) (argv : list string)
| BoxStop (id : nat)
| FsExists (path : string)
| FsMkdir (path : string)
| FsWrite (path : string) (base64Content : string).

(** What the outside world answers to a call; each call reads the fields
    that make sense for it.  [a_throw] makes the call throw (reject);
    [a_exitCode], [a_stdout], [a_stderr] are the result of a box command;
    [a_found] answers [existsSync] and the search for the native addon,
    whose [JsBoxlite] export is [a_JsBoxlite]. *)
Record Answer := {
  a_throw : option JsError;
  a_exitCode : Z;
  a_stdout : string;
  a_stderr : string;
  a_found : bool;
  a_JsBoxlite : bool
}.

Record State := {
  globals : Globals;
  this : BoxLiteProvider;
  log : list Event
}.

Definition initial_state (g : Globals) : State :=
  {| globals := g; this := new_BoxLiteProvider; log := [] |}.

(** Computations: state passing with exceptions; what was written before a
    [throw] stays written. *)
Definition M (A : Type) : Type := State -> Res A * State.

Definition ret {A} (a : A) : M A := fun s => (Ok a, s).

Definition bind {A B} (m : M A) (k : A -> M B) : M B :=
  fun s =>
    match m s with
    | (Ok a, s') => k a s'
    | (Throw e, s') => (Throw e, s')
    end.

Definition throw {A} (e : JsError) : M A := fun s => (Throw e, s).

Definition try_catch {A} (m : M A) (handler : JsError -> M A) : M A :=
  fun s =>
    match m s with
    | (Ok a, s') => (Ok a, s')
    | (Throw e, s') => handler e s'
    end.

Declare Scope js_scope.
Delimit Scope js_scope with js.
Notation "x <- c ;; k" := (bind c (fun x => k))
  (at level 100, c at next level, right associativity) : js_scope.
Notation "c ;;; k" := (bind c (fun _ => k))
  (at level 100, right associativity) : js_scope.
Open Scope js_scope.

Definition get_globals : M Globals := fun s => (Ok (globals s), s).
Definition get_this : M BoxLiteProvider := fun s => (Ok (this s), s).

Definition put_globals (g : Globals) : M unit :=
  fun s => (Ok tt, {| globals := g; this := this s; log := log s |}).
Definition put_this (t : BoxLiteProvider) : M unit :=
  fun s => (Ok tt, {| globals := globals s; this := t; log := log s |}).

Definition set_box (b : option nat) (t : BoxLiteProvider) : BoxLiteProvider :=
  {| config := config t; volumes := volumes t; box := b; currentImage := currentImage t |}.
Definition set_currentImage (i : string) (t : BoxLiteProvider) : BoxLiteProvider :=
  {| config := config t; volumes := volumes t; box := box t; currentImage := i |}.
Definition set_volumes (v : list VolumeMount) (t : BoxLiteProvider) : BoxLiteProvider :=
  {| config := config t; volumes := v; box := box t; currentImage := currentImage t |}.
Definition set_config (c : Config) (t : BoxLiteProvider) : BoxLiteProvider :=
  {| config := c; volumes := volumes t; box := box t; currentImage := currentImage t |}.

Section Semantics.

(** The behaviour of the outside world: the answer to the [n]-th call, and
    the reading of [Date.now()] after [n] calls. *)
Variable oracle : nat -> Answer.
Variable clock : nat -> Z.

(** A call that cannot throw. *)
Definition ask (ev : nat -> Event) : M Answer :=
  fun s =>
    let n := length (log s) in
    (Ok (oracle n), {| globals := globals s; this := this s; log := log s ++ [ev n] |}).

(** A call that throws when the world says so. *)
Definition call (ev : nat -> Event) : M Answer :=
  fun s =>
    let n := length (log s) in
    let s' := {| globals := globals s; this := this s; log := log s ++ [ev n] |} in
    match a_throw (oracle n) with
    | Some e => (Throw e, s')
    | None => (Ok (oracle n), s')
    end.

Definition now : M Z := fun s => (Ok (clock (length (log s))), s).

(** [box.exec(cmd, ...args)] and [box.stop()] on a [SimpleBox]. *)
Definition box_exec (id : nat) (cmd : string) (argv : list string) : M Answer :=
  call (fun _ => BoxExec id cmd argv).

Definition box_stop (id : nat) : M unit :=
  call (fun _ => BoxStop id) ;;; ret tt.

(** A constructor call; the new object is known by the position of the
    call in the log. *)
Definition construct (owner : Owner) (cls : BoxClass) (opts : BoxOptions) : M nat :=
  fun s =>
    let n := length (log s) in
    match a_throw (oracle n) with
    | Some e =>
        (Throw e, {| globals := globals s; this := this s;
                     log := log s ++ [BoxNewThrew owner cls opts] |})
    | None =>
        (Ok n, {| globals := globals s; this := this s;
                  log := log s ++ [BoxNew n owner cls opts] |})
    end.

(** [new SimpleBox(opts)]: the constructor of [SimpleBoxDirect] first
    checks the native addon. *)
Definition new_SimpleBox (owner : Owner) (cls : BoxClass) (opts : BoxOptions) : M nat :=
  g <- get_globals ;;
  let addon_ok := match nativeModule g with Some m => JsBoxlite m | None => false end in
  match cls with
  | SimpleBoxDirect =>
      if addon_ok then construct owner cls opts
      else throw (Error "Native module not loaded")
  | SimpleBoxNpm => construct owner cls opts
  end.

(** [loadNativeModuleDirect]: the search through the candidate directories
    and the [require] calls are one question to the host. *)
Definition loadNativeModuleDirect : M (option NativeModule) :=
  g <- get_globals ;;
  match nativeModule g with
  | Some m => ret (Some m)
  | None =>
      a <- ask (fun _ => LoadNative) ;;
      if a_found a then
        let m := {| JsBoxlite := a_JsBoxlite a |} in
        put_globals {| SimpleBox := SimpleBox g;
                       boxliteModuleLoaded := boxliteModuleLoaded g;
                       boxliteRuntimeVerified := boxliteRuntimeVerified g;
                       boxliteRuntimeError := boxliteRuntimeError g;
                       nativeModule := Some m |} ;;;
        ret (Some m)
      else ret None
  end.

Definition set_loaded (cls : BoxClass) : M unit :=
  g <- get_globals ;;
  put_globals {| SimpleBox := Some cls;
                 boxliteModuleLoaded := true;
                 boxliteRuntimeVerified := boxliteRuntimeVerified g;
                 boxliteRuntimeError := boxliteRuntimeError g;
                 nativeModule := nativeModule g |}.

Definition loadBoxLiteModule : M bool :=
  g <- get_globals ;;
  if boxliteModuleLoaded g then ret true
  else
    directNative <- loadNativeModuleDirect ;;
    g1 <- get_globals ;;
    let has_js := match nativeModule g1 with Some m => JsBoxlite m | None => false end in
    if (match directNative with Some _ => has_js | None => false end) then
      set_loaded SimpleBoxDirect ;;; ret true
    else
      try_catch
        (call (fun _ => ImportPackage) ;;; set_loaded SimpleBoxNpm ;;; ret true)
        (fun _ => ret false).

Definition set_verified (err : option string) : M unit :=
  g <- get_globals ;;
  put_globals {| SimpleBox := SimpleBox g;
                 boxliteModuleLoaded := boxliteModuleLoaded g;
                 boxliteRuntimeVerified := true;
                 boxliteRuntimeError := err;
                 nativeModule := nativeModule g |}.

Definition is_null (o : option string) : bool :=
  match o with Some _ => false | None => true end.

Definition testBox_options : BoxOptions :=
  {| bo_image := "alpine:latest"; bo_memoryMib := 256; bo_cpus := 1;
     bo_autoRemove := true; bo_workingDir := None; bo_volumes := [] |}.

Definition verifyBoxLiteRuntime : M bool :=
  g <- get_globals ;;
  if boxliteRuntimeVerified g then ret (is_null (boxliteRuntimeError g))
  else
    match (if boxliteModuleLoaded g then SimpleBox g else None) with
    | None =>
        set_verified (Some "BoxLite module not loaded") ;;; ret false
    | Some cls =>
        try_catch
          (testBox <- new_SimpleBox ByProbe cls testBox_options ;;
           result <- box_exec testBox "echo" ["test"] ;;
           box_stop testBox ;;;
           if (a_exitCode result =? 0)%Z then
             set_verified None ;;; ret true
           else
             throw (Error ("Test command failed with exit code "
                           ++ Z_to_string (a_exitCode result))%string))
          (fun error =>
             set_verified (Some (message error)) ;;; ret false)
    end.

Definition loadBoxLite : M bool :=
  moduleLoaded <- loadBoxLiteModule ;;
  if negb moduleLoaded then ret false
  else verifyBoxLiteRuntime.

Definition isAvailable : M bool := loadBoxLite.

(** [{ ...this.config, ...config }] *)
Definition over {A} (new old : option A) : option A :=
  match new with Some _ => new | None => old end.

Definition merge_config (old new : Config) : Config :=
  {| memoryMib := over (memoryMib new) (memoryMib old);
     cpus := over (cpus new) (cpus old);
     workDir := over (workDir new) (workDir old);
     autoRemove := over (autoRemove new) (autoRemove old) |}.

Definition init (cfg : option Config) : M unit :=
  t <- get_this ;;
  match cfg with
  | Some c => put_this (set_config (merge_config (config t) c) t)
  | None => ret tt
  end ;;;
  available <- isAvailable ;;
  if negb available then throw (Error "BoxLite is not available on this platform")
  else ret tt.

(** The options that [getOrCreateBox] passes to the constructor. *)
Definition box_options (t : BoxLiteProvider) (image : string) : BoxOptions :=
  {| bo_image := image;
     bo_memoryMib := or_num (memoryMib (config t)) 1024;
     bo_cpus := or_num (cpus (config t)) 2;
     bo_autoRemove := match autoRemove (config t) with
                      | Some a => a | None => true end;
     bo_workingDir := Some (or_str (workDir (config t)) "/workspace");
     bo_volumes := volumes t |}.

Definition getOrCreateBox (image : string) : M nat :=
  t <- get_this ;;
  match (match box t with
         | Some b => if currentImage t =? image then Some b else None
         | None => None
         end) with
  | Some b => ret b
  | None =>
      match box t with
      | Some b => try_catch (box_stop b) (fun _ => ret tt)
      | None => ret tt
      end ;;;
      g <- get_globals ;;
      match SimpleBox g with
      | None => throw (Error "BoxLite is not loaded")
      | Some cls =>
          b <- new_SimpleBox ByProvider cls (box_options t image) ;;
          t1 <- get_this ;;
          put_this (set_currentImage image (set_box (Some b) t1)) ;;;
          box_exec b "echo" ["Box ready"] ;;;
          ret b
      end
  end.

(** [Object.entries(env).map(([k, v]) => `${k}="${v}"`).join(' ')] *)
Definition envString (e : option (list (string * string))) : string :=
  match e with
  | Some kvs => join " " (map (fun kv => (fst kv ++ "=" ++ quoted (snd kv))%string) kvs)
  | None => ""
  end.

Definition fullCommand (options : SandboxExecOptions) (wd : string) : string :=
  let argv := match args options with Some a => a | None => [] end in
  let es := envString (env options) in
  if truthy es
  then "cd " ++ wd ++ " && " ++ es ++ " " ++ command options ++ " " ++ join " " argv
  else "cd " ++ wd ++ " && " ++ command options ++ " " ++ join " " argv.

Definition exec_try (options : SandboxExecOptions) (startTime : Z) (wd targetImage : string)
  : M SandboxExecResult :=
  b <- getOrCreateBox targetImage ;;
  result <- box_exec b "sh" ["-c"; fullCommand options wd] ;;
  t1 <- now ;;
  ret {| stdout := a_stdout result; stderr := a_stderr result;
         exitCode := a_exitCode result; duration := (t1 - startTime)%Z |}.

Definition exec_catch (startTime : Z) (error : JsError) : M SandboxExecResult :=
  t1 <- now ;;
  ret {| stdout := or_str (e_stdout error) "";
         stderr := or_str (e_stderr error) (String_of error);
         exitCode := or_num (e_exitCode error) 1;
         duration := (t1 - startTime)%Z |}.

(** [cwd || this.config.workDir || '/workspace'] *)
Definition exec_workDir (options : SandboxExecOptions) (t : BoxLiteProvider) : string :=
  or_str (cwd options) (or_str (workDir (config t)) "/workspace").

(** [image || this.currentImage || 'node:18-alpine'] *)
Definition exec_targetImage (options : SandboxExecOptions) (t : BoxLiteProvider) : string :=
  or_str (image options) (if truthy (currentImage t) then currentImage t
                          else "node:18-alpine").

Definition exec (options : SandboxExecOptions) : M SandboxExecResult :=
  startTime <- now ;;
  t <- get_this ;;
  let wd := exec_workDir options t in
  let targetImage := exec_targetImage options t in
  try_catch (exec_try options startTime wd targetImage) (exec_catch startTime).

(** The [switch] of [runScript] on the lowered extension: image and
    runtime. *)
Definition select_runtime (filePath : string) : string * string :=
  let ext := toLowerCase (Path.extname filePath) in
  if ext =? ".py" then ("python:3.11-slim", "python")
  else if (ext =? ".ts") || (ext =? ".mts") then ("oven/bun:latest", "bun")
  else if (ext =? ".js") || (ext =? ".mjs") then ("node:18-alpine", "node")
  else ("node:18-alpine", "node").

Definition setVolumes (v : list VolumeMount) : M unit :=
  t <- get_this ;; put_this (set_volumes v t).

Definition base64_command (containerFile : string) : string :=
  "base64 " ++ quoted containerFile.

Definition list_command (workDir : string) : string :=
  "ls -la " ++ quoted (workDir ++ "/") ++ " && find " ++ quoted workDir
  ++ " -maxdepth 2 -type f 2>/dev/null".

(** The body of the [for (const containerFile of files)] loop, inside its
    own [try]/[catch]. *)
Definition sync_file (b : nat) (containerFile : string) : M unit :=
  try_catch
    (catResult <- box_exec b "sh" ["-c"; base64_command containerFile] ;;
     if (a_exitCode catResult =? 0)%Z && truthy (a_stdout catResult) then
       let hostFile := containerFile in
       let base64Content := strip_spaces (a_stdout catResult) in
       let parentDir := dirname hostFile in
       ex <- ask (fun _ => FsExists parentDir) ;;
       (if negb (a_found ex) then call (fun _ => FsMkdir parentDir) ;;; ret tt
        else ret tt) ;;;
       call (fun _ => FsWrite hostFile base64Content) ;;;
       ret tt
     else ret tt)
    (fun _ => ret tt).

Fixpoint sync_files (b : nat) (files : list string) : M unit :=
  match files with
  | [] => ret tt
  | f :: rest => sync_file b f ;;; sync_files b rest
  end.

(** [lines.filter((f) => f && f.startsWith(workDir) && !f.endsWith(scriptBasename))] *)
Definition files_to_sync (workDir scriptBasename listing : string) : list string :=
  filter (fun f => truthy f && startsWith f workDir && negb (endsWith f scriptBasename))
         (split (trim listing) newline).

Definition sync_back (b : nat) (workDir scriptBasename : string) : M unit :=
  try_catch
    (listResult <- box_exec b "sh" ["-c"; list_command workDir] ;;
     if truthy (a_stdout listResult) then
       sync_files b (files_to_sync workDir scriptBasename (a_stdout listResult))
     else ret tt)
    (fun _ => ret tt).

(** [if (this.box) { try { await this.box.stop() } catch {} this.box = null }]:
    the statements of [stop], which [runScript] repeats before it creates
    the box with the volume mount. *)
Definition stop : M unit :=
  t <- get_this ;;
  match box t with
  | Some b =>
      try_catch (box_stop b) (fun _ => ret tt) ;;;
      t1 <- get_this ;;
      put_this (set_box None t1)
  | None => ret tt
  end.

(** The commands that [runScript] hands to [sh -c] in the box. *)
Definition install_command (workDir : string) (pkgs : list string) : string :=
  "cd " ++ quoted workDir ++ " && npm install --no-save " ++ join " " pkgs.

Definition script_command (workDir runtime scriptPath argsStr : string) : string :=
  "cd " ++ quoted workDir ++ " && " ++ runtime ++ " " ++ quoted scriptPath ++ " " ++ argsStr.

(** [options?.packages && options.packages.length > 0 && runtime !== 'python'] *)
Definition installs (runtime : string) (pkgs : list string) : bool :=
  (0 <? length pkgs)%nat && negb (runtime =? "python").

(** The [if] that installs the packages in the box; the result of the
    install command is not looked at. *)
Definition install_packages (b : nat) (workDir runtime : string) (pkgs : list string)
  : M unit :=
  if installs runtime pkgs then
    box_exec b "sh" ["-c"; install_command workDir pkgs] ;;; ret tt
  else ret tt.

(** [runScript].  The path computed for [/workspace] is overwritten by
    [filePath] before its first use, so the script is run under its host
    path. *)
Definition runScript (filePath workDir : string) (options : option ScriptOptions)
  : M SandboxExecResult :=
  let image := fst (select_runtime filePath) in
  let runtime := snd (select_runtime filePath) in
  setVolumes [{| hostPath := workDir; guestPath := workDir; readOnly := Some false |}] ;;;
  let scriptPathInContainer := filePath in
  stop ;;;
  b <- getOrCreateBox image ;;
  let pkgs := option_list options packages in
  install_packages b workDir runtime pkgs ;;;
  startTime <- now ;;
  let argsStr := join " " (option_list options so_args) in
  result <- box_exec b "sh"
    ["-c"; script_command workDir runtime scriptPathInContainer argsStr] ;;
  let scriptBasename := Path.basename filePath in
  sync_back b workDir scriptBasename ;;;
  t2 <- now ;;
  ret {| stdout := a_stdout result; stderr := a_stderr result;
         exitCode := a_exitCode result; duration := (t2 - startTime)%Z |}.

Definition shutdown : M unit := stop.

Definition getCapabilities : SandboxCapabilities :=
  {| cap_supportsVolumeMounts := true;
     cap_supportsNetworking := true;
     cap_isolation := vm;
     cap_supportedRuntimes := ["node"; "python"; "bun"];
     cap_supportsPooling := true |}.

End Semantics.

(** The provider's boxes that were created and not yet asked to stop,
    oldest first. *)
Definition live_step (l : list nat) (e : Event) : list nat :=
  match e with
  | BoxNew id ByProvider _ _ => l ++ [id]
  | BoxStop id => filter (fun j => negb (j =? id)%nat) l
  | _ => l
  end.

Definition live (l : list Event) : list nat := fold_left live_step l [].

(** The operations a caller can apply to a provider instance. *)
Inductive Op :=
| OpInit (cfg : option Config)
| OpIsAvailable
| OpExec (options : SandboxExecOptions)
| OpRunScript (filePath workDir : string) (options : option ScriptOptions)
| OpSetVolumes (v : list VolumeMount)
| OpStop
| OpShutdown.

(** One operation run to completion; a rejection leaves the state that
    was reached when it was raised. *)
Definition run_op (oracle : nat -> Answer) (clock : nat -> Z) (s : State) (op : Op) : State :=
  match op with
  | OpInit cfg => snd (init oracle cfg s)
  | OpIsAvailable => snd (isAvailable oracle s)
  | OpExec o => snd (exec oracle clock o s)
  | OpRunScript f w o => snd (runScript oracle clock f w o s)
  | OpSetVolumes v => snd (setVolumes v s)
  | OpStop => snd (stop oracle s)
  | OpShutdown => snd (shutdown oracle s)
  end.

Definition run_ops (oracle : nat -> Answer) (clock : nat -> Z) (ops : list Op) (s : State)
  : State :=
  fold_left (run_op oracle clock) ops s.

End BoxLite.

(* ================================================================== *)
(** ** core/sandbox/plugin.ts and types.ts: paths and images *)
(* ================================================================== *)

Module BaseProvider.

(** [SANDBOX_IMAGES] of types.ts, as a lookup by runtime name. *)
Definition SANDBOX_IMAGES (runtime : string) : option string :=
  if runtime =? "node" then Some "node:18-alpine"
  else if runtime =? "python" then Some "python:3.11-slim"
  else if runtime =? "bun" then Some "oven/bun:latest"
  else None.




End BaseProvider.

(** ** extensions/sandbox/boxlite.ts: the class [SimpleBoxDirect] *)

(** The box class used when the native addon is loaded directly.  The
    addon is seen through the calls the class makes: [runtime.create],
    [box.exec], [box.stop], and the [execution] object that [box.exec]
    resolves with. *)
Module DirectBox.

(** [runtime.create(opts, name)]: it throws before a promise exists, or
    returns a promise that rejects, or one that resolves with the native
    box (an object, hence truthy). *)
Inductive Created :=
| CreateThrows (e : JsError)
| CreateRejects (e : JsError)
| CreateResolves.

(** One answer of [stream.next()]. *)
Inductive Next :=
| Line (s : string)
| Null
| NextThrows.

(** A stream is the sequence of answers that [next()] gives; a sequence
    that runs out counts as ended. *)
Definition Stream := list Next.

(** The [execution] object: [stdout()] and [stderr()] throw or give a
    stream (or nothing), [wait()] throws or gives the exit code. *)
Record Execution := {
  x_stdout : Res (option Stream);
  x_stderr : Res (option Stream);
  x_wait : Res Z
}.

Record NativeAnswer := {
  n_created : Created;
  n_execution : Res Execution;
  n_stopped : option JsError
}.

(** Calls into the addon; a native box is known by the position of the
    [create] call that made it. *)
Inductive NativeEvent :=
| NCreate
| NCreateThrew
| NExec (h : nat) (cmd : string) (argv : list string)
| NStop (h : nat).

(** The fields [_box] and [_boxPromise] (a promise is awaited as soon as
    it exists, so it is kept as its outcome), and the calls made so far. *)
Record DirectState := {
  _box : option nat;
  _boxPromise : option (Res nat);
  calls : list NativeEvent
}.

Definition new_SimpleBoxDirect : DirectState :=
  {| _box := None; _boxPromise := None; calls := [] |}.

Record ExecOutput := {
  o_exitCode : Z;
  o_stdout : string;
  o_stderr : string
}.

Section Native.
Variable oracle : nat -> NativeAnswer.

(** [this._box = await this._boxPromise; return this._box] for a promise
    with outcome [p]. *)
Definition await_box (p : Res nat) (s : DirectState) : Res nat * DirectState :=
  match p with
  | Ok h => (Ok h, {| _box := Some h; _boxPromise := _boxPromise s; calls := calls s |})
  | Throw e => (Throw e, s)
  end.

Definition _ensureBox (s : DirectState) : Res nat * DirectState :=
  match _box s with
  | Some h => (Ok h, s)
  | None =>
      match _boxPromise s with
      | Some p => await_box p s
      | None =>
          let n := length (calls s) in
          match n_created (oracle n) with
          | CreateThrows e =>
              (Throw e, {| _box := None; _boxPromise := None;
                           calls := calls s ++ [NCreateThrew] |})
          | CreateRejects e =>
              await_box (Throw e)
                {| _box := None; _boxPromise := Some (Throw e);
                   calls := calls s ++ [NCreate] |}
          | CreateResolves =>
              await_box (Ok n)
                {| _box := None; _boxPromise := Some (Ok n);
                   calls := calls s ++ [NCreate] |}
          end
      end
  end.

(** The two [while (true)] loops: lines are pushed until [next()] gives
    [null] or throws. *)
Fixpoint read_lines (st : Stream) : list string :=
  match st with
  | Line l :: rest => l :: read_lines rest
  | Null :: _ => []
  | NextThrows :: _ => []
  | [] => []
  end.

(** [try { stdout = await execution.stdout() } catch {}] followed by
    [if (stdout) { ... }] *)
Definition lines_of (r : Res (option Stream)) : list string :=
  match r with
  | Ok (Some st) => read_lines st
  | Ok None => []
  | Throw _ => []
  end.

Definition exec (cmd : string) (argv : list string) (s : DirectState)
  : Res ExecOutput * DirectState :=
  match _ensureBox s with
  | (Throw e, s1) => (Throw e, s1)
  | (Ok h, s1) =>
      let n := length (calls s1) in
      let s2 := {| _box := _box s1; _boxPromise := _boxPromise s1;
                   calls := calls s1 ++ [NExec h cmd argv] |} in
      match n_execution (oracle n) with
      | Throw e => (Throw e, s2)
      | Ok execution =>
          let stdoutLines := lines_of (x_stdout execution) in
          let stderrLines := lines_of (x_stderr execution) in
          match x_wait execution with
          | Throw e => (Throw e, s2)
          | Ok code =>
              (Ok {| o_exitCode := code;
                     o_stdout := join "" stdoutLines;
                     o_stderr := join "" stderrLines |}, s2)
          end
      end
  end.

Definition stop (s : DirectState) : Res unit * DirectState :=
  match _box s with
  | None => (Ok tt, s)
  | Some h =>
      let n := length (calls s) in
      let s1 := {| _box := _box s; _boxPromise := _boxPromise s;
                   calls := calls s ++ [NStop h] |} in
      match n_stopped (oracle n) with
      | Some e => (Throw e, s1)
      | None => (Ok tt, s1)
      end
  end.

(** The calls a holder of the object can make. *)
Inductive Call :=
| CallExec (cmd : string) (argv : list string)
| CallStop.

Definition run_call (s : DirectState) (c : Call) : DirectState :=
  match c with
  | CallExec cmd argv => snd (exec cmd argv s)
  | CallStop => snd (stop s)
  end.

Definition run_calls (cs : list Call) (s : DirectState) : DirectState :=
  fold_left run_call cs s.

End Native.

Definition is_create (e : NativeEvent) : bool :=
  match e with NCreate => true | _ => false end.

(** The native box an event is addressed to. *)
Definition target (e : NativeEvent) : option nat :=
  match e with
  | NExec h _ _ | NStop h => Some h
  | _ => None
  end.

(** What holds of a [SimpleBoxDirect] after any calls: at most one
    [create] returned a promise; without a promise there is no box and no
    command was sent; with a resolved promise the box is the one created
    and every command went to it. *)
Definition wf (s : DirectState) : Prop :=
  length (filter is_create (calls s)) <= 1
  /\ match _boxPromise s with
     | None =>
         _box s = None /\ filter is_create (calls s) = []
         /\ Forall (fun e => target e = None) (calls s)
     | Some (Throw _) =>
         _box s = None /\ Forall (fun e => target e = None) (calls s)
     | Some (Ok h) =>
         _box s = Some h /\ nth_error (calls s) h = Some NCreate
         /\ Forall (fun e => target e = None \/ target e = Some h) (calls s)
     end.

(** A world in which the creation of the native box is rejected. *)
Definition no_vm : nat -> NativeAnswer :=
  fun _ => {| n_created := CreateRejects (Error "KVM is not available");
              n_execution := Throw (Error "unreachable");
              n_stopped := None |}.

End DirectBox.

(** ** extensions/sandbox/boxlite.ts: the search for the native addon *)

(** [getBoxliteSearchPaths] and [loadNativeModuleDirect], which the
    provider model above asks as one question to the host. *)
Module NativeLoader.
Import BoxLite.

(** [s.includes(t)] *)
Fixpoint includes (s t : string) : bool :=
  String.prefix t s ||
  match s with
  | EmptyString => false
  | String _ s' => includes s' t
  end.

(** What the loader reads from the process and the host.  [require_file]
    and [require_package] are the outcomes of [require] on a path and on a
    package name. *)
Record Host := {
  execPath : string;
  platform : string;
  arch : string;
  existsSync : string -> bool;
  require_file : string -> Res NativeModule;
  require_package : string -> Res NativeModule
}.

Inductive LoaderEvent :=
| Exists (path : string)
| RequireFile (path : string)
| RequirePackage (name : string).

Section Loader.

(** [path.join] *)
Variable path_join : list string -> string.
Variable h : Host.

Definition isBunBinary : bool :=
  includes (execPath h) "workany-api"
  || (negb (includes (execPath h) "node") && negb (includes (execPath h) "bun")).

Definition getBoxliteSearchPaths : list string :=
  let execDir := dirname (execPath h) in
  if isBunBinary then
    [path_join [execDir; "boxlite"];
     path_join [execDir; ".."; "Resources"; "boxlite"];
     path_join [execDir; "Resources"; "boxlite"]]
  else [].

Definition nodeFileName : string :=
  if (platform h =? "darwin") && (arch h =? "arm64") then "index.darwin-arm64.node"
  else if (platform h =? "linux") && (arch h =? "x64") then "index.linux-x64-gnu.node"
  else if (platform h =? "darwin") && (arch h =? "x64") then "index.darwin-x64.node"
  else "".

(** The [for (const boxliteDir of searchPaths)] loop: the module of the
    first candidate that exists and loads, and the calls made. *)
Fixpoint search (dirs : list string) : option NativeModule * list LoaderEvent :=
  match dirs with
  | [] => (None, [])
  | boxliteDir :: rest =>
      let nativeModulePath := path_join [boxliteDir; nodeFileName] in
      if existsSync h nativeModulePath then
        match require_file h nativeModulePath with
        | Ok m => (Some m, [Exists nativeModulePath; RequireFile nativeModulePath])
        | Throw _ =>
            let r := search rest in
            (fst r, Exists nativeModulePath :: RequireFile nativeModulePath :: snd r)
        end
      else
        let r := search rest in
        (fst r, Exists nativeModulePath :: snd r)
  end.

(** The package tried when no file was loaded; none on darwin-x64. *)
Definition fallback_package : option string :=
  if (platform h =? "darwin") && (arch h =? "arm64")
  then Some "@boxlite-ai/boxlite-darwin-arm64"
  else if (platform h =? "linux") && (arch h =? "x64")
  then Some "@boxlite-ai/boxlite-linux-x64-gnu"
  else None.

(** [loadNativeModuleDirect], from the value [cached] of the module
    variable [nativeModule]: the value returned (which is also the new
    value of the variable when it is not [null]) and the calls made. *)
Definition loadNativeModuleDirect (cached : option NativeModule)
  : option NativeModule * list LoaderEvent :=
  match cached with
  | Some m => (Some m, [])
  | None =>
      if negb (truthy nodeFileName) then (None, [])
      else
        match search getBoxliteSearchPaths with
        | (Some m, evs) => (Some m, evs)
        | (None, evs) =>
            match fallback_package with
            | Some name =>
                match require_package h name with
                | Ok m => (Some m, evs ++ [RequirePackage name])
                | Throw _ => (None, evs ++ [RequirePackage name])
                end
            | None => (None, evs)
            end
        end
  end.

(** A candidate directory that gives no module. *)
Definition fails (boxliteDir : string) : Prop :=
  existsSync h (path_join [boxliteDir; nodeFileName]) = false
  \/ exists e, require_file h (path_join [boxliteDir; nodeFileName]) = Throw e.

End Loader.

Definition is_lookup (e : LoaderEvent) : bool :=
  match e with Exists _ => true | _ => false end.

Definition is_package (e : LoaderEvent) : bool :=
  match e with RequirePackage _ => true | _ => false end.

(** A packaged Linux build with the addon beside the executable. *)
Definition packaged_linux : Host :=
  {| execPath := "/opt/workany/workany-api";
     platform := "linux"; arch := "x64";
     existsSync := fun p => p =? "/opt/workany/boxlite/index.linux-x64-gnu.node";
     require_file := fun _ => Ok {| JsBoxlite := true |};
     require_package := fun _ => Throw (Error "Cannot find module") |}.

(** A Windows build, for which there is no addon. *)
Definition packaged_windows : Host :=
  {| execPath := "C:\workany\workany-api.exe";
     platform := "win32"; arch := "x64";
     existsSync := fun _ => true;
     require_file := fun _ => Ok {| JsBoxlite := true |};
     require_package := fun _ => Ok {| JsBoxlite := true |} |}.

End NativeLoader.

(* ================================================================== *)
(** ** Vocabulary of the statements *)
(* ================================================================== *)

Module CodexInv.
Import Codex.

(** A process event that settles the promise. *)
Definition settles (ev : ProcEvent) : bool :=
  match ev with
  | OnClose _ | OnError _ => true
  | _ => false
  end.

(** Effects that the listeners themselves can add. *)
Definition timer_effect (e : Effect) : Prop :=
  match e with
  | ClearTimeout | Kill _ => True
  | _ => False
  end.

(** A [spawn] call. *)
Definition is_spawn (e : Effect) : bool :=
  match e with
  | Spawn _ _ _ => true
  | _ => false
  end.

(** Output of the child, as opposed to the events that end the call. *)
Definition is_data (ev : ProcEvent) : bool :=
  match ev with
  | OnStdout _ | OnStderr _ => true
  | _ => false
  end.

Fixpoint err_data (tr : list ProcEvent) : string :=
  match tr with
  | [] => ""
  | OnStderr d :: rest => d ++ err_data rest
  | _ :: rest => err_data rest
  end.

End CodexInv.

Module BoxLiteInv.
Import BoxLite.

(** At every moment of the past at most one box of the provider was
    live. *)
Definition history_ok (l : list Event) : Prop :=
  forall p q, l = p ++ q -> length (live p) <= 1.

(** The live box, if any, is the one the provider holds. *)
Definition owns_live (s : State) : Prop :=
  live (log s) = [] \/
  exists id, live (log s) = [id] /\ box (this s) = Some id /\ id < length (log s).

Definition Inv (s : State) : Prop := history_ok (log s) /\ owns_live s.

(** Events that neither create a box of the provider nor stop a box. *)
Definition quiet (e : Event) : Prop :=
  match e with
  | BoxNew _ ByProvider _ _ => False
  | BoxStop _ => False
  | _ => True
  end.

(** What a computation appends to the log. *)
Definition adds (P : Event -> Prop) (s s' : State) : Prop :=
  exists l, log s' = log s ++ l /\ Forall P l.

(** Events of [getOrCreateBox]. *)
Definition setup_event (e : Event) : Prop :=
  match e with
  | BoxStop _ | BoxNew _ ByProvider _ _ | BoxNewThrew ByProvider _ _ => True
  | BoxExec _ cmd argv => cmd = "echo" /\ argv = ["Box ready"]
  | _ => False
  end.

(** Events of [exec]: those of [getOrCreateBox] and the command itself. *)
Definition exec_event (e : Event) : Prop :=
  match e with
  | BoxStop _ | BoxNew _ ByProvider _ _ | BoxNewThrew ByProvider _ _ => True
  | BoxExec _ _ _ => True
  | _ => False
  end.

(** Events of the copy-back of one file. *)
Definition file_event (b : nat) (f : string) (e : Event) : Prop :=
  match e with
  | BoxExec b' cmd argv => b' = b /\ cmd = "sh" /\ argv = ["-c"; base64_command f]
  | FsExists p => p = dirname f
  | FsMkdir p => p = dirname f
  | FsWrite p _ => p = f
  | _ => False
  end.

(** Events of the copy-back after the script. *)
Definition sync_event (b : nat) (w sb : string) (e : Event) : Prop :=
  match e with
  | BoxExec b' cmd argv =>
      b' = b /\ cmd = "sh"
      /\ (argv = ["-c"; list_command w] \/ exists f, argv = ["-c"; base64_command f])
  | FsExists _ => True
  | FsMkdir _ => True
  | FsWrite p _ => p <> "" /\ startsWith p w = true /\ endsWith p sb = false
  | _ => False
  end.

(** Events of [runScript]: host files are written only by the copy-back,
    and only under the filter of the source. *)
Definition run_event (w sb : string) (e : Event) : Prop :=
  match e with
  | FsWrite p _ => p <> "" /\ startsWith p w = true /\ endsWith p sb = false
  | LoadNative | ImportPackage => False
  | BoxNew _ ByProbe _ _ | BoxNewThrew ByProbe _ _ => False
  | _ => True
  end.

Definition stop_events (s : State) : list Event :=
  match box (this s) with Some b => [BoxStop b] | None => [] end.

Definition install_events (b : nat) (w runtime : string) (pkgs : list string) : list Event :=
  if installs runtime pkgs then [BoxExec b "sh" ["-c"; install_command w pkgs]] else [].

(** Constructor calls of the runtime check. *)
Definition is_probe (e : Event) : bool :=
  match e with
  | BoxNew _ ByProbe _ _ | BoxNewThrew ByProbe _ _ => true
  | _ => false
  end.

Definition probes (l : list Event) : nat := length (filter is_probe l).

(** Events of [isAvailable]: module loading and the test box. *)
Definition avail_event (e : Event) : Prop :=
  match e with
  | LoadNative | ImportPackage => True
  | BoxNew _ ByProbe _ _ | BoxNewThrew ByProbe _ _ => True
  | BoxExec _ _ _ | BoxStop _ => True
  | _ => False
  end.

Definition merged (cfg : option Config) (t : BoxLiteProvider) : BoxLiteProvider :=
  match cfg with
  | Some c => set_config (merge_config (config t) c) t
  | None => t
  end.

(** [n] calls of [isAvailable] in a row: their results and the last
    state. *)
Fixpoint isAvailable_n (oracle : nat -> Answer) (n : nat) (s : State)
  : list (Res bool) * State :=
  match n with
  | O => ([], s)
  | S k =>
      let r := isAvailable oracle s in
      let rest := isAvailable_n oracle k (snd r) in
      (fst r :: fst rest, snd rest)
  end.

End BoxLiteInv.

Module CodexMore.
Import Codex CodexInv.



(** The first candidate of a list that exists on the host. *)
Definition first_existing (h : Host) (candidates : list string) : option string :=
  find (existsSync h) candidates.

(** [CODEX_PATH] is set, non-empty, and names an existing file. *)
Definition env_path_usable (h : Host) : bool :=
  match CODEX_PATH h with
  | Some p => truthy p && existsSync h p
  | None => false
  end.

(** The path printed by [which codex] (the first line of [where codex] on
    win32), when the command succeeded. *)
Definition which_path (h : Host) : option string :=
  match which_codex h with
  | Ok out => Some (if platform h =? "win32" then hd "" (split (trim out) newline)
                    else trim out)
  | Throw _ => None
  end.

Definition which_usable (h : Host) : bool :=
  match which_path h with
  | Some p => truthy p && existsSync h p
  | None => false
  end.

End CodexMore.

(** Vocabulary for the statements about the BoxLite provider beyond the
    invariant. *)
Module BoxLiteMore.
Import BoxLite BoxLiteInv.

(** The state a fresh provider reaches by a sequence of operations, the
    module variables starting at [g]. *)
Definition reached (oracle : nat -> Answer) (clock : nat -> Z) (ops : list Op) (g : Globals)
  : State :=
  run_ops oracle clock ops (initial_state g).

(** The mount that [runScript] sets: the work directory under its own
    path. *)
Definition workDir_mount (w : string) : VolumeMount :=
  {| hostPath := w; guestPath := w; readOnly := Some false |}.

(** A constructor call of the provider hands over the volumes [v]. *)
Definition creates_with (v : list VolumeMount) (e : Event) : Prop :=
  match e with
  | BoxNew _ ByProvider _ opts | BoxNewThrew ByProvider _ opts => bo_volumes opts = v
  | _ => True
  end.

(** Operations that do not run the availability check. *)
Definition no_load (op : Op) : bool :=
  match op with
  | OpInit _ | OpIsAvailable => false
  | _ => true
  end.

(** Events that touch the host file system. *)
Definition is_fs (e : Event) : bool :=
  match e with
  | FsExists _ | FsMkdir _ | FsWrite _ _ => true
  | _ => false
  end.

(** The argument lists of the commands run in boxes, in order. *)
Definition exec_commands (l : list Event) : list (list string) :=
  flat_map (fun e => match e with BoxExec _ _ argv => [argv] | _ => [] end) l.

(** [1] when [runScript] runs the install command, [0] otherwise. *)
Definition install_count (runtime : string) (pkgs : list string) : nat :=
  if installs runtime pkgs then 1 else 0.

(** The module variables agree with each other. *)
Definition consistent (g : Globals) : Prop :=
  (boxliteModuleLoaded g = true <-> SimpleBox g <> None)
  /\ (SimpleBox g = Some SimpleBoxDirect ->
      exists m, nativeModule g = Some m /\ JsBoxlite m = true)
  /\ (boxliteRuntimeVerified g = true -> boxliteModuleLoaded g = true)
  /\ (boxliteRuntimeVerified g = false -> boxliteRuntimeError g = None).

End BoxLiteMore.

Module CopyBackMore.
Import BoxLite BoxLiteInv.

(** The content [c] written to the host path [p] is the output, without
    its white space, of a [base64] command on [p] that box [b] ran and
    that exited with code 0. *)
Definition written_from_read (oracle : nat -> Answer) (b : nat) (l : list Event)
  (p c : string) : Prop :=
  exists n,
    nth_error l n = Some (BoxExec b "sh" ["-c"; base64_command p])
    /\ a_throw (oracle n) = None
    /\ a_exitCode (oracle n) = 0%Z
    /\ c = strip_spaces (a_stdout (oracle n)).

Definition read_command (f : string) : list string := ["-c"; base64_command f].

End CopyBackMore.

(** ** Sample hosts and worlds *)

(** Concrete hosts, providers and worlds used to run the models. *)
Module Samples.

(** [path.join] of a POSIX host. *)
Definition posix_join_parts (segments : list string) : ascii * string :=
  match Path.join segments with
  | String c rest => (c, rest)
  | EmptyString => (Path.dot, "")
  end.

(** A Linux host on which no codex binary can be found. *)
Definition bare_host : Codex.Host :=
  {| Codex.platform := "linux";
     Codex.CODEX_PATH := None;
     Codex.existsSync := fun _ => false;
     Codex.which_codex := Throw (Error "Command failed: which codex");
     Codex.homedir := "/home/u";
     Codex.path_join_parts := posix_join_parts;
     Codex.bundledPaths := ["/opt/workany/codex"];
     Codex.process_cwd := "/home/u";
     Codex.clock := fun n => (1000 + 50 * Z.of_nat n)%Z |}.

(** The same host with codex installed in /usr/local/bin. *)
Definition codex_host : Codex.Host :=
  {| Codex.platform := "linux";
     Codex.CODEX_PATH := None;
     Codex.existsSync := fun p => p =? "/usr/local/bin/codex";
     Codex.which_codex := Ok ("/usr/local/bin/codex" ++ nl)%string;
     Codex.homedir := "/home/u";
     Codex.path_join_parts := posix_join_parts;
     Codex.bundledPaths := ["/opt/workany/codex"];
     Codex.process_cwd := "/home/u";
     Codex.clock := fun n => (1000 + 50 * Z.of_nat n)%Z |}.

Definition codex_ready : Codex.CodexProvider :=
  snd (Codex.init codex_host Codex.new_CodexProvider).

Definition sleep_5 : SandboxExecOptions :=
  {| command := "sleep"; args := Some ["5"]; cwd := None; env := None;
     timeout := Some 50%Z; image := None |}.

(** [ls] in a working directory that is a regular file. *)
Definition ls_in_a_file : SandboxExecOptions :=
  {| command := "ls"; args := None; cwd := Some "/etc/passwd"; env := None;
     timeout := None; image := None |}.

Definition echo_hi : SandboxExecOptions :=
  {| command := "echo"; args := Some ["hi"]; cwd := None; env := None;
     timeout := None; image := None |}.

(** Answers of the BoxLite world. *)
Definition fine : BoxLite.Answer :=
  {| BoxLite.a_throw := None; BoxLite.a_exitCode := 0; BoxLite.a_stdout := "";
     BoxLite.a_stderr := ""; BoxLite.a_found := true; BoxLite.a_JsBoxlite := true |}.

Definition absent : BoxLite.Answer :=
  {| BoxLite.a_throw := None; BoxLite.a_exitCode := 0; BoxLite.a_stdout := "";
     BoxLite.a_stderr := ""; BoxLite.a_found := false; BoxLite.a_JsBoxlite := false |}.

Definition throws (msg : string) : BoxLite.Answer :=
  {| BoxLite.a_throw := Some (Error msg); BoxLite.a_exitCode := 0; BoxLite.a_stdout := "";
     BoxLite.a_stderr := ""; BoxLite.a_found := false; BoxLite.a_JsBoxlite := false |}.

Definition exits (code : Z) (out err : string) : BoxLite.Answer :=
  {| BoxLite.a_throw := None; BoxLite.a_exitCode := code; BoxLite.a_stdout := out;
     BoxLite.a_stderr := err; BoxLite.a_found := true; BoxLite.a_JsBoxlite := true |}.

(** A world in which every call succeeds with empty output. *)
Definition calm : nat -> BoxLite.Answer := fun _ => fine.

(** The answers of a list, then [fine] for ever. *)
Definition script (answers : list BoxLite.Answer) : nat -> BoxLite.Answer :=
  fun n => nth n answers fine.

Definition ticks : nat -> Z := fun n => Z.of_nat n.

(** Module state after the npm package was imported. *)
Definition loaded_globals : BoxLite.Globals :=
  {| BoxLite.SimpleBox := Some BoxLite.SimpleBoxNpm;
     BoxLite.boxliteModuleLoaded := true;
     BoxLite.boxliteRuntimeVerified := true;
     BoxLite.boxliteRuntimeError := None;
     BoxLite.nativeModule := None |}.

Definition with_packages (pkgs : list string) : option ScriptOptions :=
  Some {| so_args := None; so_env := None; so_timeout := None; packages := Some pkgs |}.

(** The package is missing at the first call and the native addon is
    found at the second, where the test box runs. *)
Definition late_install : nat -> BoxLite.Answer :=
  script [absent; throws "Cannot find package '@boxlite-ai/boxlite'";
          fine; fine; exits 0 "test" ""; fine].

(** A registry without the package: [npm install] fails in the box. *)
Definition failing_install : nat -> BoxLite.Answer :=
  script [fine; fine; exits 1 "" "npm ERR! 404 Not Found"; exits 0 "done" ""].

(** The box lists the script, an output file, and a file of the sibling
    directory [/tmp/w2]; every [base64] answers with some content. *)
Definition sibling_listing : nat -> BoxLite.Answer :=
  fun n =>
    match n with
    | 0 | 1 | 2 => fine
    | 3 => exits 0 ("/tmp/w/job.js" ++ nl ++ "/tmp/w/out.txt" ++ nl ++ "/tmp/w2/out.txt") ""
    | _ => exits 0 "aGk=" ""
    end.

(** The box lists one path, which leaves the work directory through
    [..]; the [base64] answers with some content. *)
Definition dotdot_listing : nat -> BoxLite.Answer :=
  fun n =>
    match n with
    | 0 | 1 | 2 => fine
    | 3 => exits 0 "/tmp/w/../keys/id" ""
    | _ => exits 0 "aGk=" ""
    end.

End Samples.

(* ================================================================== *)
(** * Properties *)
(* ================================================================== *)

(** ** Strings and paths *)

Module StringFacts.

Lemma eqb_false_neq (a b : string) : (a =? b) = false -> a <> b.
Proof. intros H E. apply String.eqb_neq in H. contradiction. Qed.

Lemma truthy_true (s : string) : truthy s = true <-> s <> "".
Proof.
  unfold truthy. destruct (s =? "") eqn:E; simpl.
  - apply String.eqb_eq in E. split; [discriminate | congruence].
  - apply String.eqb_neq in E. split; auto.
Qed.

Lemma truthy_false (s : string) : truthy s = false <-> s = "".
Proof.
  unfold truthy. destruct (s =? "") eqn:E; simpl.
  - apply String.eqb_eq in E. split; auto.
  - apply String.eqb_neq in E. split; [discriminate | contradiction].
Qed.

Lemma str_app_assoc (a b c : string) : ((a ++ b) ++ c = a ++ (b ++ c))%string.
Proof. induction a; simpl; congruence. Qed.

Lemma str_app_nil_r (a : string) : (a ++ "")%string = a.
Proof. induction a; simpl; congruence. Qed.

Lemma append_nonempty_r (a b : string) : b <> "" -> (a ++ b)%string <> "".
Proof.
  destruct a; simpl; [auto | discriminate].
Qed.

Lemma append_nonempty_l (a b : string) : a <> "" -> (a ++ b)%string <> "".
Proof.
  destruct a; simpl; [congruence | discriminate].
Qed.

Lemma or_str_nonempty (o : option string) (d : string) : d <> "" -> or_str o d <> "".
Proof.
  intros Hd. unfold or_str. destruct o as [s|]; auto.
  destruct (truthy s) eqn:E; auto. now apply truthy_true.
Qed.

Lemma or_num_nonzero (o : option Z) (d : Z) : d <> 0%Z -> or_num o d <> 0%Z.
Proof.
  intros Hd. unfold or_num. destruct o as [z|]; auto.
  destruct (z =? 0)%Z eqn:E; auto. now apply Z.eqb_neq.
Qed.

Lemma String_of_nonempty (e : JsError) : String_of e <> "".
Proof.
  unfold String_of. destruct (message e =? ""); discriminate.
Qed.

(** A string that ends with [t] is not [endsWith]-rejected: the text
    itself is one of its own suffixes. *)
Lemma endsWith_refl (s : string) : endsWith s s = true.
Proof. destruct s; cbn [endsWith]; rewrite String.eqb_refl; reflexivity. Qed.

Lemma endsWith_app (a t : string) : endsWith (a ++ t) t = true.
Proof.
  induction a as [|c a IH].
  - apply endsWith_refl.
  - cbn [endsWith append]. rewrite IH. apply orb_true_r.
Qed.

Lemma endsWith_inv (s t : string) :
  endsWith s t = true -> exists a, s = (a ++ t)%string.
Proof.
  induction s as [|c s IH]; cbn [endsWith]; intros H.
  - rewrite orb_false_r in H. apply String.eqb_eq in H. subst. now exists "".
  - apply orb_true_iff in H. destruct H as [H|H].
    + apply String.eqb_eq in H. exists "". now rewrite H.
    + destruct (IH H) as [a Ha]. exists (String c a). simpl. now rewrite Ha.
Qed.


Lemma prefix_inv (p s : string) :
  String.prefix p s = true -> exists r, s = (p ++ r)%string.
Proof.
  revert s. induction p as [|c p IH]; intros s H.
  - exists s. reflexivity.
  - destruct s as [|d s]; simpl in H; [discriminate|].
    destruct (ascii_dec c d); [|discriminate]. subst d.
    destruct (IH s H) as [r Hr]. exists r. simpl. now rewrite Hr.
Qed.

End StringFacts.

Module PathFacts.
Import Path.

Example extname_html : extname "index.html" = ".html".
Proof. reflexivity. Qed.
Example extname_two : extname "index.coffee.md" = ".md".
Proof. reflexivity. Qed.
Example extname_trailing_dot : extname "index." = ".".
Proof. reflexivity. Qed.
Example extname_none : extname "index" = "".
Proof. reflexivity. Qed.
Example extname_hidden : extname ".index" = "".
Proof. reflexivity. Qed.
Example extname_hidden_md : extname "/tmp/w/.index.md" = ".md".
Proof. reflexivity. Qed.
Example extname_dir_dot : extname "/a.b/c" = "".
Proof. reflexivity. Qed.
Example extname_dotdot : extname "/a/.." = "".
Proof. reflexivity. Qed.
Example extname_dots : extname "..." = ".".
Proof. reflexivity. Qed.
Example basename_plain : basename "/tmp/w/run.py" = "run.py".
Proof. reflexivity. Qed.
Example basename_trailing : basename "/tmp/w/dir//" = "dir".
Proof. reflexivity. Qed.
Example basename_root : basename "/" = "".
Proof. reflexivity. Qed.
Example dirname_plain : BoxLite.dirname "/tmp/w/out.txt" = "/tmp/w".
Proof. reflexivity. Qed.
Example dirname_top : BoxLite.dirname "/a" = "/".
Proof. reflexivity. Qed.
Example dirname_relative : BoxLite.dirname "a" = ".".
Proof. reflexivity. Qed.
Example dirname_trailing : BoxLite.dirname "/a/b/" = "/a".
Proof. reflexivity. Qed.
Example dirname_double : BoxLite.dirname "/a//b" = "/a/".
Proof. reflexivity. Qed.
Example dirname_two_roots : BoxLite.dirname "//a" = "//".
Proof. reflexivity. Qed.

End PathFacts.

(** ** Plugin definition *)

Module PluginSpec.
Import Plugin StringFacts.

(** C5. [defineSandboxPlugin] checks the definition when it is made, without
    calling the factory: an empty [metadata.type], an empty [metadata.name]
    or a [factory] that is not a function makes it throw at once an error
    that names the missing part; a plugin that passes the three checks is
    returned as it was given. *)
Theorem defineSandboxPlugin_validates (plugin : SandboxPlugin) :
  (type (metadata plugin) = "" ->
   defineSandboxPlugin plugin = Throw (Error "Sandbox plugin must have a type")) /\
  (type (metadata plugin) <> "" -> name (metadata plugin) = "" ->
   defineSandboxPlugin plugin = Throw (Error "Sandbox plugin must have a name")) /\
  (type (metadata plugin) <> "" -> name (metadata plugin) <> "" ->
   typeof (factory plugin) <> "function" ->
   defineSandboxPlugin plugin = Throw (Error "Sandbox plugin must have a factory function")) /\
  (type (metadata plugin) <> "" -> name (metadata plugin) <> "" ->
   typeof (factory plugin) = "function" ->
   defineSandboxPlugin plugin = Ok plugin).
Proof.
  unfold defineSandboxPlugin.
  repeat split; intros.
  - assert (E : truthy (type (metadata plugin)) = false) by now apply truthy_false.
    now rewrite E.
  - assert (E1 : truthy (type (metadata plugin)) = true) by now apply truthy_true.
    assert (E2 : truthy (name (metadata plugin)) = false) by now apply truthy_false.
    now rewrite E1, E2.
  - assert (E1 : truthy (type (metadata plugin)) = true) by now apply truthy_true.
    assert (E2 : truthy (name (metadata plugin)) = true) by now apply truthy_true.
    assert (E3 : (typeof (factory plugin) =? "function") = false) by now apply String.eqb_neq.
    now rewrite E1, E2, E3.
  - assert (E1 : truthy (type (metadata plugin)) = true) by now apply truthy_true.
    assert (E2 : truthy (name (metadata plugin)) = true) by now apply truthy_true.
    assert (E3 : (typeof (factory plugin) =? "function") = true) by now apply String.eqb_eq.
    now rewrite E1, E2, E3.
Qed.

(** The codex plugin of the repository passes the checks, and the same
    definition with its type blanked, or with a factory that is not a
    function, is refused. *)
Lemma defineSandboxPlugin_validates_witness :
  defineSandboxPlugin codexPlugin_def = Ok codexPlugin_def
  /\ defineSandboxPlugin
       {| metadata := {| type := ""; name := "Codex Sandbox"; version := "1.0.0";
                         description := ""; configSchema := ""; builtin := None;
                         isolation := process; supportedRuntimes := [];
                         supportsVolumeMounts := false; supportsNetworking := false;
                         supportsPooling := false; tags := None |};
          factory := JsFunction "createCodexProvider";
          onInit := None; onDestroy := None |}
     = Throw (Error "Sandbox plugin must have a type")
  /\ defineSandboxPlugin
       {| metadata := CODEX_CLI_METADATA; factory := JsUndefined;
          onInit := None; onDestroy := None |}
     = Throw (Error "Sandbox plugin must have a factory function").
Proof.
  split; [|split].
  - apply (defineSandboxPlugin_validates codexPlugin_def); simpl;
      [discriminate | discriminate | reflexivity].
  - apply (proj1 (defineSandboxPlugin_validates _)). reflexivity.
  - apply (defineSandboxPlugin_validates
             {| metadata := CODEX_CLI_METADATA; factory := JsUndefined;
                onInit := None; onDestroy := None |}); simpl; discriminate.
Defined.

End PluginSpec.

(** ** The Codex provider *)

Module CodexFacts.
Import Codex CodexInv StringFacts.

Lemma resolved_stays dur tr : forall l r,
  resolved l = Some r -> resolved (run_listeners dur l tr) = Some r.
Proof.
  unfold run_listeners.
  induction tr as [|ev tr IH]; intros l r H; simpl; auto.
  apply IH. destruct ev; simpl; try assumption.
  - destruct (pending l); simpl; assumption.
  - now rewrite H.
  - now rewrite H.
Qed.

Lemma pending_quiet dur tr : forall l,
  resolved l = None -> forallb (fun ev => negb (settles ev)) tr = true ->
  resolved (run_listeners dur l tr) = None.
Proof.
  unfold run_listeners.
  induction tr as [|ev tr IH]; intros l H Hq; simpl in *; auto.
  apply andb_true_iff in Hq. destruct Hq as [Hev Hq].
  apply IH; auto.
  destruct ev; simpl in *; try assumption; try discriminate.
  destruct (pending l); simpl; assumption.
Qed.

Lemma settled_if_settling dur tr : forall l,
  existsb settles tr = true -> exists r, resolved (run_listeners dur l tr) = Some r.
Proof.
  unfold run_listeners.
  induction tr as [|ev tr IH]; intros l H; simpl in *; [discriminate|].
  apply orb_true_iff in H. destruct H as [H|H]; [|now apply IH].
  destruct ev; simpl in H; try discriminate.
  - destruct (resolved l) as [r0|] eqn:E.
    + exists r0. apply (resolved_stays dur tr). simpl. now rewrite E.
    + eexists. apply (resolved_stays dur tr). simpl. rewrite E. reflexivity.
  - destruct (resolved l) as [r0|] eqn:E.
    + exists r0. apply (resolved_stays dur tr). simpl. now rewrite E.
    + eexists. apply (resolved_stays dur tr). simpl. rewrite E. reflexivity.
Qed.

(** The listeners add only timer effects to what was done before. *)
Lemma effects_grow dur tr : forall l,
  exists extra, effects (run_listeners dur l tr) = effects l ++ extra
                /\ Forall timer_effect extra.
Proof.
  unfold run_listeners.
  induction tr as [|ev tr IH]; intros l; simpl.
  - exists []. rewrite app_nil_r. auto.
  - destruct (IH (handle dur l ev)) as [extra [E F]].
    rewrite E.
    assert (H : exists one, effects (handle dur l ev) = effects l ++ one
                            /\ Forall timer_effect one).
    { destruct ev; simpl; unfold clear.
      - exists []. rewrite app_nil_r. auto.
      - exists []. rewrite app_nil_r. auto.
      - destruct (pending l); simpl.
        + exists [Kill "SIGTERM"]. split; auto. repeat constructor.
        + exists []. rewrite app_nil_r. auto.
      - destruct (timeoutId l).
        + exists [ClearTimeout]. split; auto. repeat constructor.
        + exists []. rewrite app_nil_r. auto.
      - destruct (timeoutId l).
        + exists [ClearTimeout]. split; auto. repeat constructor.
        + exists []. rewrite app_nil_r. auto. }
    destruct H as [one [E1 F1]]. rewrite E1.
    exists (one ++ extra). rewrite app_assoc. split; auto.
    apply Forall_app. auto.
Qed.

(** A spawn failure met while the promise is pending settles it with exit
    code 1 and the error text on [stderr]. *)
Lemma error_settles dur pre msg post : forall l,
  resolved l = None -> forallb (fun ev => negb (settles ev)) pre = true ->
  exists r, resolved (run_listeners dur l (pre ++ OnError msg :: post)) = Some r
            /\ exitCode r = 1%Z
            /\ exists before, stderr r = (before ++ nl ++ msg)%string.
Proof.
  intros l H Hq. unfold run_listeners. rewrite fold_left_app. simpl.
  pose proof (pending_quiet dur pre l H Hq) as P. unfold run_listeners in P.
  set (l1 := fold_left (handle dur) pre l) in *.
  eexists. split; [|split].
  - apply (resolved_stays dur post). simpl. rewrite P. reflexivity.
  - reflexivity.
  - simpl. eauto.
Qed.

Lemma promise_resolved l r : resolved l = Some r -> promise_of l = Resolved r.
Proof. unfold promise_of. now intros ->. Qed.

(** A call in which nothing throws is the run of the listeners on what
    the child delivers. *)
Lemma exec_runs h this o trace :
  no_codex this = false ->
  Codex.exec h this o (runs trace)
  = (promise_of (run_listeners (elapsed h) (exec_start h this o) trace),
     effects (run_listeners (elapsed h) (exec_start h this o) trace)).
Proof.
  intros Hn. unfold Codex.exec, runs. rewrite Hn.
  cbn [cwd_error spawn_error child_events].
  destruct (calls_process_cwd o); reflexivity.
Qed.

(** Unless [process.cwd()] throws, [exec] calls [spawn], and nothing
    before it. *)
Lemma exec_spawns h this o w :
  no_codex this = false ->
  (calls_process_cwd o = true -> cwd_error w = None) ->
  exists extra, snd (Codex.exec h this o w) = exec_spawn h this o :: extra.
Proof.
  intros Hn Hc. unfold Codex.exec. rewrite Hn.
  assert (C : (if calls_process_cwd o then cwd_error w else None) = None).
  { destruct (calls_process_cwd o); [now apply Hc | reflexivity]. }
  rewrite C. destruct (spawn_error w); cbn [snd]; [eauto|].
  destruct (effects_grow (elapsed h) (child_events w) (exec_start h this o)) as [extra [E _]].
  rewrite E. cbn [effects exec_start app]. eauto.
Qed.

Lemma runScript_runs h this f w o install trace :
  no_codex this = false ->
  ((0 <? length (option_list o packages))%nat = true -> exists v, install = Ok v) ->
  Codex.runScript h this f w o install (runs trace)
  = (promise_of (run_listeners (elapsed h) (script_start h this f w o) trace),
     effects (run_listeners (elapsed h) (script_start h this f w o) trace)).
Proof.
  intros Hn Hi. unfold Codex.runScript, runs. rewrite Hn.
  cbn [cwd_error spawn_error child_events].
  destruct ((0 <? length (option_list o packages))%nat).
  - destruct (Hi eq_refl) as [v ->]. reflexivity.
  - reflexivity.
Qed.

End CodexFacts.

(** ** The BoxLite provider *)

Module BoxLiteFacts.
Import BoxLite BoxLiteInv StringFacts.

Lemma live_snoc l e : live (l ++ [e]) = live_step (live l) e.
Proof. unfold live. now rewrite fold_left_app. Qed.

Lemma history_ok_nil : history_ok [].
Proof.
  intros p q E. symmetry in E. apply app_eq_nil in E. destruct E; subst. simpl. lia.
Qed.

Lemma history_ok_snoc l e :
  history_ok l -> length (live (l ++ [e])) <= 1 -> history_ok (l ++ [e]).
Proof.
  intros H Hl p q E.
  destruct q as [|x q] using rev_ind.
  - rewrite app_nil_r in E. subst p. exact Hl.
  - rewrite app_assoc in E. apply app_inj_tail in E. destruct E as [E _].
    eapply H; eauto.
Qed.

Lemma quiet_live l e : quiet e -> live (l ++ [e]) = live l.
Proof.
  intros Q. rewrite live_snoc. destruct e; simpl in *; try reflexivity; try contradiction.
  destruct owner; [contradiction | reflexivity].
Qed.

Lemma quiet_live_app l : forall l', Forall quiet l' -> live (l ++ l') = live l.
Proof.
  intros l'. induction l' as [|e l' IH] using rev_ind; intros F.
  - now rewrite app_nil_r.
  - apply Forall_app in F. destruct F as [F1 F2]. inversion F2; subst.
    rewrite app_assoc, quiet_live; auto.
Qed.

Lemma history_ok_quiet l : forall l',
  history_ok l -> Forall quiet l' -> history_ok (l ++ l').
Proof.
  intros l'. induction l' as [|e l' IH] using rev_ind; intros H F.
  - now rewrite app_nil_r.
  - apply Forall_app in F. destruct F as [F1 F2]. inversion F2; subst.
    rewrite app_assoc. apply history_ok_snoc; auto.
    rewrite quiet_live by assumption.
    apply (IH H F1 (l ++ l') []). now rewrite app_nil_r.
Qed.

Lemma adds_refl P s : adds P s s.
Proof. exists []. rewrite app_nil_r. auto. Qed.

Lemma adds_trans P s1 s2 s3 : adds P s1 s2 -> adds P s2 s3 -> adds P s1 s3.
Proof.
  intros [l1 [E1 F1]] [l2 [E2 F2]]. exists (l1 ++ l2).
  rewrite E2, E1, app_assoc. split; auto. apply Forall_app; auto.
Qed.

Lemma adds_weaken (P Q : Event -> Prop) s s' :
  (forall e, P e -> Q e) -> adds P s s' -> adds Q s s'.
Proof.
  intros I [l [E F]]. exists l. split; auto. eapply Forall_impl; eauto.
Qed.

Lemma Inv_quiet s s' :
  Inv s -> box (this s') = box (this s) -> adds quiet s s' -> Inv s'.
Proof.
  intros [H O] B [l [E F]]. split.
  - rewrite E. now apply history_ok_quiet.
  - unfold owns_live in *. rewrite E, quiet_live_app by assumption.
    destruct O as [O | [id [O1 [O2 O3]]]]; [now left | right].
    exists id. rewrite B, length_app. repeat split; auto. lia.
Qed.

Ltac break_match :=
  match goal with
  | |- context [match ?x with _ => _ end] =>
      lazymatch x with
      | context [match _ with _ => _ end] => fail
      | _ => destruct x eqn:?
      end
  end.

Ltac unfold_m :=
  cbv beta zeta delta [bind ret throw try_catch get_this get_globals put_this put_globals
    call ask now box_exec box_stop new_SimpleBox construct set_verified set_loaded] in *.

Ltac snoc_one :=
  unfold adds; cbn [log]; eexists; split; [reflexivity | repeat constructor; cbn; auto].

Arguments getOrCreateBox : simpl never.
Arguments stop : simpl never.
Arguments exec : simpl never.
Arguments sync_file : simpl never.
Arguments sync_back : simpl never.
Arguments runScript : simpl never.
Arguments loadBoxLiteModule : simpl never.
Arguments verifyBoxLiteRuntime : simpl never.
Arguments isAvailable : simpl never.
Arguments init : simpl never.
Arguments list_command : simpl never.
Arguments base64_command : simpl never.
Arguments install_command : simpl never.
Arguments script_command : simpl never.
Arguments fullCommand : simpl never.
Arguments box_options : simpl never.
Arguments files_to_sync : simpl never.
Arguments dirname : simpl never.
Arguments select_runtime : simpl never.
Arguments installs : simpl never.
Arguments install_packages : simpl never.

Section Facts.
Variable oracle : nat -> Answer.
Variable clock : nat -> Z.

(** [stop] *)
Lemma stop_spec s :
  let r := stop oracle s in
  fst r = Ok tt
  /\ globals (snd r) = globals s
  /\ this (snd r) = set_box None (this s)
  /\ log (snd r) = log s ++ match box (this s) with Some b => [BoxStop b] | None => [] end.
Proof.
  unfold stop. unfold_m. cbn.
  destruct (box (this s)) as [b|] eqn:B; cbn.
  - destruct (a_throw (oracle (length (log s)))); cbn; repeat split; reflexivity.
  - rewrite app_nil_r. repeat split; auto.
    destruct (this s); cbn in *. now subst.
Qed.

Lemma stop_Inv s : Inv s -> Inv (snd (stop oracle s)) /\ live (log (snd (stop oracle s))) = [].
Proof.
  intros [H O].
  destruct (stop_spec s) as [_ [_ [T L]]].
  assert (Lv : live (log (snd (stop oracle s))) = []).
  { rewrite L. destruct (box (this s)) as [b|] eqn:B.
    - rewrite live_snoc. cbn.
      destruct O as [O | [id [O1 [O2 O3]]]].
      + now rewrite O.
      + rewrite O1. rewrite B in O2. inversion O2; subst. cbn.
        now rewrite Nat.eqb_refl.
    - rewrite app_nil_r. destruct O as [O | [id [O1 [O2 O3]]]]; auto. congruence. }
  split; auto. split.
  - rewrite L. destruct (box (this s)) as [b|] eqn:B.
    + apply history_ok_snoc; auto. rewrite <- L, Lv. simpl. lia.
    + now rewrite app_nil_r.
  - now left.
Qed.

Ltac live_calc :=
  repeat rewrite live_snoc; cbn [live_step];
  repeat match goal with
         | H : live (log _) = _ |- _ => rewrite H
         end;
  cbn [filter app length]; rewrite ?Nat.eqb_refl; cbn [negb filter app length].

Ltac solve_adds :=
  first
    [ apply adds_refl
    | unfold adds; cbn [log]; repeat rewrite <- app_assoc;
      eexists; split; [reflexivity | repeat constructor; cbn; auto] ].

Ltac split_O :=
  match goal with
  | O : owns_live _ |- _ =>
      destruct O as [O | [?id [?O1 [?O2 ?O3]]]];
      [ | repeat match goal with
                 | B : box (this ?s) = _, O2 : box (this ?s) = _ |- _ =>
                     rewrite B in O2; first [discriminate O2 | inversion O2; subst; clear O2]
                 end ]
  end.

Ltac eqb_cases :=
  repeat match goal with
         | |- context [(?a =? ?b)%nat] =>
             destruct (Nat.eqb_spec a b);
             [ try (repeat rewrite length_app in *; cbn [length] in *; lia) | ];
             cbn [negb filter app length]
         end.

Ltac solve_len := live_calc; eqb_cases; cbn; lia.

Ltac solve_owns :=
  unfold owns_live; cbn [log this box set_box set_currentImage set_volumes set_config];
  live_calc; eqb_cases;
  first
    [ left; reflexivity
    | right; eexists; repeat split; try reflexivity; try eassumption;
      repeat rewrite length_app; cbn [length]; lia ].

Ltac solve_Inv :=
  let H := fresh "H" in
  let O := fresh "O" in
  intros [H O]; split_O;
  (split;
   [ cbn [log]; repeat (apply history_ok_snoc); try exact H; solve_len
   | solve_owns ]).

Lemma getOrCreateBox_spec image s :
  let r := getOrCreateBox oracle image s in
  globals (snd r) = globals s
  /\ config (this (snd r)) = config (this s)
  /\ volumes (this (snd r)) = volumes (this s)
  /\ adds setup_event s (snd r)
  /\ (Inv s -> Inv (snd r))
  /\ (forall b, fst r = Ok b -> box (this (snd r)) = Some b)
  /\ (box (this s) = None -> forall b, fst r = Ok b ->
      exists cls, log (snd r) = log s ++ [BoxNew b ByProvider cls (box_options (this s) image);
                                          BoxExec b "echo" ["Box ready"]]).
Proof.
  unfold getOrCreateBox. unfold_m. cbn.
  repeat (break_match; cbn).
  all: repeat match goal with |- _ /\ _ => split end; try reflexivity;
    try (intros; discriminate); try (intros; congruence).
  all: try solve_adds.
  all: try solve_Inv.
  all: try (intros ? b0 E; inversion E; subst; eexists; cbn; rewrite <- app_assoc; reflexivity).
Qed.

Lemma setup_exec_event e : setup_event e -> exec_event e.
Proof. destruct e; simpl; auto. Qed.

Lemma box_exec_quiet b c a : quiet (BoxExec b c a).
Proof. exact I. Qed.

(** Running one more command in a box keeps the invariant. *)
Lemma Inv_exec_event s b c a :
  Inv s -> Inv {| globals := globals s; this := this s; log := log s ++ [BoxExec b c a] |}.
Proof.
  intros Hj. apply (Inv_quiet s); auto.
  exists [BoxExec b c a]. split; auto. repeat constructor.
Qed.

Lemma exec_spec o s :
  let r := exec oracle clock o s in
  (exists res, fst r = Ok res)
  /\ globals (snd r) = globals s
  /\ adds exec_event s (snd r)
  /\ (Inv s -> Inv (snd r)).
Proof.
  unfold exec, exec_try, exec_catch. unfold_m. cbn.
  pose proof (getOrCreateBox_spec (exec_targetImage o (this s)) s) as G.
  destruct (getOrCreateBox oracle (exec_targetImage o (this s)) s) as [[b|e] s1];
    cbn in G |- *; destruct G as [G1 [G2 [G3 [G4 [G5 [G6 G7]]]]]].
  - destruct (a_throw (oracle (length (log s1)))); cbn;
      (split; [eauto | split; [exact G1 | split;
         [ eapply adds_trans;
           [eapply adds_weaken; [apply setup_exec_event | exact G4] | snoc_one]
         | intros Hj; apply Inv_exec_event; auto ]]]).
  - split; [eauto | split; [exact G1 | split; [|exact G5]]].
    eapply adds_weaken; [apply setup_exec_event | exact G4].
Qed.

Lemma sync_file_spec b f s :
  let r := sync_file oracle b f s in
  fst r = Ok tt /\ globals (snd r) = globals s /\ this (snd r) = this s
  /\ adds (file_event b f) s (snd r).
Proof.
  unfold sync_file. unfold_m. cbn.
  repeat (break_match; cbn).
  all: repeat match goal with |- _ /\ _ => split end; try reflexivity; solve_adds.
Qed.

Lemma sync_files_spec b files : forall s,
  let r := sync_files oracle b files s in
  fst r = Ok tt /\ globals (snd r) = globals s /\ this (snd r) = this s
  /\ adds (fun e => exists f, In f files /\ file_event b f e) s (snd r).
Proof.
  induction files as [|f files IH]; intros s; cbn [sync_files].
  - unfold_m. cbn. repeat split; auto. apply adds_refl.
  - unfold bind.
    pose proof (sync_file_spec b f s) as F.
    destruct (sync_file oracle b f s) as [r1 s1]. cbn in F.
    destruct F as [F1 [F2 [F3 F4]]]. subst r1.
    pose proof (IH s1) as R.
    destruct (sync_files oracle b files s1) as [r2 s2]. cbn in R |- *.
    destruct R as [R1 [R2 [R3 R4]]].
    repeat split; try congruence.
    eapply adds_trans.
    + eapply adds_weaken; [|exact F4]. intros e He. exists f. split; [now left | exact He].
    + eapply adds_weaken; [|exact R4]. intros e [f' [I He]]. exists f'. split; [now right | exact He].
Qed.

Lemma files_to_sync_In w sb listing f :
  In f (files_to_sync w sb listing) ->
  f <> "" /\ startsWith f w = true /\ endsWith f sb = false.
Proof.
  unfold files_to_sync. intros H. apply filter_In in H. destruct H as [_ H].
  apply andb_true_iff in H. destruct H as [H H3].
  apply andb_true_iff in H. destruct H as [H1 H2].
  repeat split; auto.
  - now apply truthy_true.
  - now apply negb_true_iff.
Qed.

Lemma sync_back_spec b w sb s :
  let r := sync_back oracle b w sb s in
  fst r = Ok tt /\ globals (snd r) = globals s /\ this (snd r) = this s
  /\ adds (sync_event b w sb) s (snd r).
Proof.
  unfold sync_back. unfold_m. cbn.
  destruct (a_throw (oracle (length (log s)))); cbn.
  - repeat split; auto. snoc_one.
  - destruct (truthy (a_stdout (oracle (length (log s))))); cbn.
    + match goal with
      | |- context [sync_files oracle b ?fs ?s0] =>
          pose proof (sync_files_spec b fs s0) as R;
          destruct (sync_files oracle b fs s0) as [r2 s2]
      end.
      cbn in R |- *. destruct R as [R1 [R2 [R3 R4]]]. subst r2. cbn.
      repeat split; auto.
      eapply adds_trans; cycle 1.
      * eapply adds_weaken; [|exact R4].
        intros e [f [I He]]. apply files_to_sync_In in I. destruct I as [I1 [I2 I3]].
        destruct e; cbn in He |- *; auto.
        -- destruct He as [? [? ?]]. repeat split; eauto.
        -- subst. auto.
      * snoc_one.
    + repeat split; auto. snoc_one.
Qed.

Lemma setup_run_event w sb e : setup_event e -> run_event w sb e.
Proof. destruct e as [| |? []| []| | | | |]; simpl; tauto. Qed.

Lemma sync_run_event b w sb e : sync_event b w sb e -> run_event w sb e.
Proof. destruct e as [| |? []| []| | | | |]; simpl; tauto. Qed.

Lemma install_packages_spec b w runtime pkgs s :
  let r := install_packages oracle b w runtime pkgs s in
  globals (snd r) = globals s /\ this (snd r) = this s
  /\ adds (fun e => exists c a, e = BoxExec b c a) s (snd r)
  /\ (fst r = Ok tt -> log (snd r) = log s ++ install_events b w runtime pkgs)
  /\ (forall u, fst r = Ok u -> u = tt).
Proof.
  unfold install_packages, install_events. unfold_m.
  destruct (installs runtime pkgs); cbn.
  - destruct (a_throw (oracle (length (log s)))); cbn; repeat split; auto;
      try (intros; discriminate); try (snoc_one; eauto); destruct u; auto.
  - rewrite app_nil_r. repeat split; auto; try apply adds_refl. destruct u; auto.
Qed.

Lemma exec_run_event w sb e : (exists b c a, e = BoxExec b c a) -> run_event w sb e.
Proof. intros [b [c [a E]]]. subst. exact I. Qed.

Lemma Inv_sync_events b w sb s s' :
  Inv s -> this s' = this s -> adds (sync_event b w sb) s s' -> Inv s'.
Proof.
  intros Hj T A. apply (Inv_quiet s); auto; [now rewrite T|].
  eapply adds_weaken; [|exact A].
  intros e. destruct e as [| |? []| []| | | | |]; simpl; tauto.
Qed.

Lemma runScript_spec f w o s :
  let r := runScript oracle clock f w o s in
  globals (snd r) = globals s
  /\ (Inv s -> Inv (snd r))
  /\ adds (run_event w (Path.basename f)) s (snd r)
  /\ (forall res, fst r = Ok res ->
      exists b cls opts post,
        log (snd r) =
          log s ++ stop_events s
          ++ [BoxNew b ByProvider cls opts; BoxExec b "echo" ["Box ready"]]
          ++ install_events b w (snd (select_runtime f)) (option_list o packages)
          ++ [BoxExec b "sh"
                ["-c"; script_command w (snd (select_runtime f)) f
                         (join " " (option_list o so_args))]]
          ++ post
        /\ bo_image opts = fst (select_runtime f)
        /\ bo_volumes opts = [{| hostPath := w; guestPath := w; readOnly := Some false |}]
        /\ Forall (sync_event b w (Path.basename f)) post
        /\ box (this (snd r)) = Some b).
Proof.
  unfold runScript, setVolumes. unfold_m. cbn.
  set (s1 := {| globals := globals s; this := set_volumes _ (this s); log := log s |}).
  assert (J1 : Inv s -> Inv s1).
  { intros Hj. apply (Inv_quiet s); auto. exists []. cbn. rewrite app_nil_r. auto. }
  pose proof (stop_spec s1) as St. pose proof (stop_Inv s1) as SJ.
  destruct (stop oracle s1) as [r1 s2]. cbn in St, SJ.
  destruct St as [St1 [St2 [St3 St4]]]. subst r1. cbn.
  assert (A2 : adds (run_event w (Path.basename f)) s s2).
  { exists (stop_events s). split; [exact St4|]. unfold stop_events.
    destruct (box (this s)); repeat constructor. }
  pose proof (getOrCreateBox_spec (fst (select_runtime f)) s2) as G.
  destruct (getOrCreateBox oracle (fst (select_runtime f)) s2) as [[b|e] s3];
    cbn in G |- *; destruct G as [G1 [G2 [G3 [G4 [G5 [G6 G7]]]]]].
  2:{ split; [congruence | split; [| split]].
      - intros Hj. apply G5, (proj1 (SJ (J1 Hj))).
      - eapply adds_trans; [exact A2|].
        eapply adds_weaken; [apply setup_run_event | exact G4].
      - intros; discriminate. }
  assert (B2 : box (this s2) = None) by (rewrite St3; reflexivity).
  destruct (G7 B2 b eq_refl) as [cls L3].
  assert (A3 : adds (run_event w (Path.basename f)) s s3).
  { eapply adds_trans; [exact A2|].
    eapply adds_weaken; [apply setup_run_event | exact G4]. }
  pose proof (install_packages_spec b w (snd (select_runtime f)) (option_list o packages) s3) as P.
  destruct (install_packages oracle b w (snd (select_runtime f)) (option_list o packages) s3)
    as [[u|e] s4]; cbn in P |- *; destruct P as [P1 [P2 [P3 [P4 P5]]]].
  2:{ split; [congruence | split; [| split]].
      - intros Hj. apply (Inv_quiet s3); [apply G5, (proj1 (SJ (J1 Hj))) | now rewrite P2 |].
        eapply adds_weaken; [|exact P3]. intros e0 [c [a E]]. subst. exact I.
      - eapply adds_trans; [exact A3|].
        eapply adds_weaken; [|exact P3]. intros e0 [c [a E]]. subst. exact I.
      - intros; discriminate. }
  rewrite (P5 u eq_refl) in P4. specialize (P4 eq_refl).
  assert (J4 : Inv s -> Inv s4).
  { intros Hj. apply (Inv_quiet s3); [apply G5, (proj1 (SJ (J1 Hj))) | now rewrite P2 |].
    eapply adds_weaken; [|exact P3]. intros e0 [c [a E]]. subst. exact I. }
  assert (A4 : adds (run_event w (Path.basename f)) s s4).
  { eapply adds_trans; [exact A3|].
    eapply adds_weaken; [|exact P3]. intros e0 [c [a E]]. subst. exact I. }
  destruct (a_throw (oracle (length (log s4)))); cbn.
  { split; [congruence | split; [| split]].
    - intros Hj. apply Inv_exec_event. auto.
    - eapply adds_trans; [exact A4|]. snoc_one.
    - intros; discriminate. }
  match goal with
  | |- context [sync_back oracle b w ?sb ?s0] =>
      pose proof (sync_back_spec b w sb s0) as Y;
      destruct (sync_back oracle b w sb s0) as [r5 s5]
  end.
  cbn [fst snd] in Y |- *. destruct Y as [Y1 [Y2 [Y3 Y4]]]. subst r5. cbn.
  split; [cbn in Y2; congruence|]. split; [|split].
  - intros Hj. eapply Inv_sync_events; [| exact Y3 | exact Y4].
    apply Inv_exec_event. auto.
  - eapply adds_trans; [exact A4|]. eapply adds_trans; cycle 1.
    + eapply adds_weaken; [apply sync_run_event | exact Y4].
    + snoc_one.
  - intros res _. destruct Y4 as [post [Y4 Y5]]. cbn in Y4, Y3.
    exists b, cls, (box_options (this s2) (fst (select_runtime f))), post.
    split; [|split; [|split; [|split]]].
    + rewrite Y4, P4, L3, St4. unfold stop_events.
      repeat rewrite <- app_assoc. reflexivity.
    + reflexivity.
    + rewrite St3. reflexivity.
    + exact Y5.
    + rewrite Y3. cbn. rewrite P2. apply G6. reflexivity.
Qed.

Lemma probes_app l1 l2 : probes (l1 ++ l2) = probes l1 + probes l2.
Proof. unfold probes. now rewrite filter_app, length_app. Qed.

Ltac solve_probe_log :=
  cbn [log]; repeat rewrite <- app_assoc;
  eexists; split; [reflexivity | ];
  cbn; repeat split; try lia; try (intros; congruence); try (intros; discriminate);
  try (left; reflexivity); try (right; reflexivity); try (repeat constructor).

Lemma isAvailable_spec s :
  let r := isAvailable oracle s in
  (exists b, fst r = Ok b
     /\ (boxliteModuleLoaded (globals (snd r)) = true ->
         boxliteRuntimeVerified (globals (snd r)) = true
         /\ b = is_null (boxliteRuntimeError (globals (snd r))))
     /\ (boxliteModuleLoaded (globals (snd r)) = false -> b = false))
  /\ this (snd r) = this s
  /\ (exists l, log (snd r) = log s ++ l
              /\ probes l <= 1
              /\ (boxliteRuntimeVerified (globals s) = true -> probes l = 0)
              /\ (probes l = 0 \/ boxliteRuntimeVerified (globals (snd r)) = true)
              /\ Forall avail_event l)
  /\ (boxliteModuleLoaded (globals s) = true ->
      boxliteRuntimeVerified (globals s) = true -> snd r = s)
  /\ (boxliteRuntimeVerified (globals s) = true ->
      boxliteRuntimeVerified (globals (snd r)) = true)
  /\ (Inv s -> Inv (snd r)).
Proof.
  unfold isAvailable, loadBoxLite, loadBoxLiteModule, loadNativeModuleDirect,
    verifyBoxLiteRuntime.
  unfold_m. cbn.
  repeat (break_match; cbn).
  all: split; [eexists; split; [reflexivity | split; intros; try split; congruence] |].
  all: split; [reflexivity|].
  all: split; [first [ exists []; rewrite app_nil_r; cbn; repeat split; auto; fail
                     | solve_probe_log ] |].
  all: split; [intros; try congruence; try reflexivity |].
  all: split; [intros; try congruence; try reflexivity |].
  all: solve_Inv.
Qed.

(** The availability check does not look at the provider instance. *)
Lemma isAvailable_this t s :
  isAvailable oracle {| globals := globals s; this := t; log := log s |}
  = (fst (isAvailable oracle s),
     {| globals := globals (snd (isAvailable oracle s)); this := t;
        log := log (snd (isAvailable oracle s)) |}).
Proof.
  unfold isAvailable, loadBoxLite, loadBoxLiteModule, loadNativeModuleDirect,
    verifyBoxLiteRuntime.
  unfold_m. cbn.
  repeat (break_match; cbn).
  all: reflexivity.
Qed.

Lemma init_unfold cfg s :
  init oracle cfg s =
  let r := isAvailable oracle {| globals := globals s; this := merged cfg (this s);
                                 log := log s |} in
  match fst r with
  | Ok true => (Ok tt, snd r)
  | Ok false => (Throw (Error "BoxLite is not available on this platform"), snd r)
  | Throw e => (Throw e, snd r)
  end.
Proof.
  unfold init, merged. unfold_m. cbn.
  destruct cfg as [c|]; cbn.
  - destruct (isAvailable oracle _) as [[[|]|e] s1]; reflexivity.
  - assert (E : {| globals := globals s; this := this s; log := log s |} = s)
      by (destruct s; reflexivity).
    rewrite E.
    destruct (isAvailable oracle s) as [[[|]|e] s1]; reflexivity.
Qed.

Lemma merged_box cfg t : box (merged cfg t) = box t.
Proof. destruct cfg; reflexivity. Qed.

Lemma init_Inv cfg s : Inv s -> Inv (snd (init oracle cfg s)).
Proof.
  intros Hj. rewrite init_unfold. cbv zeta.
  set (s0 := {| globals := globals s; this := merged cfg (this s); log := log s |}).
  assert (J0 : Inv s0).
  { apply (Inv_quiet s); auto.
    - cbn. apply merged_box.
    - exists []. cbn. rewrite app_nil_r. auto. }
  destruct (isAvailable_spec s0) as [_ [_ [_ [_ [_ Hs]]]]].
  specialize (Hs J0).
  destruct (isAvailable oracle s0) as [[[|]|e] s1]; exact Hs.
Qed.

Lemma setVolumes_Inv v s : Inv s -> Inv (snd (setVolumes v s)).
Proof.
  intros Hj. unfold setVolumes. unfold_m. cbn.
  apply (Inv_quiet s); auto. exists []. cbn. rewrite app_nil_r. auto.
Qed.

Lemma run_op_Inv s op : Inv s -> Inv (run_op oracle clock s op).
Proof.
  intros Hj. destruct op; cbn [run_op].
  - now apply init_Inv.
  - now apply isAvailable_spec.
  - now apply exec_spec.
  - now apply runScript_spec.
  - now apply setVolumes_Inv.
  - now apply stop_Inv.
  - unfold shutdown. now apply stop_Inv.
Qed.

Lemma run_ops_Inv ops : forall s, Inv s -> Inv (run_ops oracle clock ops s).
Proof.
  unfold run_ops. induction ops as [|op ops IH]; intros s Hj; cbn; auto.
  apply IH. now apply run_op_Inv.
Qed.

Lemma initial_Inv g : Inv (initial_state g).
Proof. split; [apply history_ok_nil | now left]. Qed.

(** [getOrCreateBox] on a box of another image: the old box is stopped
    first, then the new one is created. *)
Lemma getOrCreateBox_restart image s old b :
  box (this s) = Some old -> (currentImage (this s) =? image) = false ->
  fst (getOrCreateBox oracle image s) = Ok b ->
  exists cls,
    log (snd (getOrCreateBox oracle image s))
    = log s ++ [BoxStop old; BoxNew b ByProvider cls (box_options (this s) image);
                BoxExec b "echo" ["Box ready"]].
Proof.
  intros B I. unfold getOrCreateBox. unfold_m. cbn. rewrite B, I. cbn.
  repeat (break_match; cbn).
  all: intros E; try discriminate E; inversion E; subst; eexists;
    repeat rewrite <- app_assoc; cbn; rewrite length_app; cbn;
    repeat rewrite <- app_assoc; reflexivity.
Qed.

End Facts.
End BoxLiteFacts.

(* ================================================================== *)
(** * The claims *)
(* ================================================================== *)
(** ** C1: [exec] returns a result *)

Module ExecContract.
Import Codex CodexInv CodexFacts BoxLite BoxLiteInv BoxLiteFacts StringFacts Samples.

Lemma boxlite_exec_catch oracle clock (o : SandboxExecOptions) (s : State) :
  exists r, fst (BoxLite.exec oracle clock o s) = Ok r
    /\ (forall e,
          fst (exec_try oracle clock o (clock (length (log s)))
                 (exec_workDir o (this s)) (exec_targetImage o (this s)) s) = Throw e ->
          exitCode r <> 0%Z /\ stderr r = or_str (e_stderr e) (String_of e))
    /\ (forall res,
          fst (exec_try oracle clock o (clock (length (log s)))
                 (exec_workDir o (this s)) (exec_targetImage o (this s)) s) = Ok res ->
          r = res).
Proof.
  unfold BoxLite.exec, exec_catch.
  cbv beta zeta iota delta [bind ret try_catch get_this now].
  destruct (exec_try oracle clock o _ _ _ s) as [[res|e] s1]; cbn.
  - eexists. split; [reflexivity|]. split; intros; [discriminate | congruence].
  - eexists. split; [reflexivity|]. split; [|intros; discriminate].
    intros e0 E. inversion E; subst. cbn. split; [|reflexivity].
    apply or_num_nonzero. discriminate.
Qed.

Lemma boxlite_not_loaded oracle clock (o : SandboxExecOptions) (s : State) :
  box (this s) = None -> SimpleBox (globals s) = None ->
  fst (exec_try oracle clock o (clock (length (log s)))
         (exec_workDir o (this s)) (exec_targetImage o (this s)) s)
  = Throw (Error "BoxLite is not loaded").
Proof.
  intros B S. unfold exec_try, getOrCreateBox.
  cbv beta zeta iota delta [bind ret throw try_catch get_this get_globals].
  rewrite B. cbn. rewrite S. reflexivity.
Qed.

(** What holds of the claim.  The Codex promise resolves as soon as the
    child closes or reports a spawn failure through its [error] event;
    without a codex binary the result is exit code 1 with "Codex CLI is not
    installed", whatever the world does; a spawn failure reported by the
    [error] event gives exit code 1 and a [stderr] that ends with the error
    text.  BoxLite's [exec] always resolves: whatever the [try] block
    throws (no box library, a constructor or a command that fails) is
    turned into a result with a non-zero exit code and a non-empty
    [stderr]. *)
Lemma exec_returns_result :
  (forall h this o trace,
      existsb settles trace = true ->
      exists r, fst (Codex.exec h this o (runs trace)) = Resolved r)
  /\ (forall h this o w,
        no_codex this = true ->
        exists r, fst (Codex.exec h this o w) = Resolved r
                  /\ exitCode r = 1%Z /\ stderr r = "Codex CLI is not installed")
  /\ (forall h this o pre msg post,
        no_codex this = false ->
        forallb (fun ev => negb (settles ev)) pre = true ->
        exists r, fst (Codex.exec h this o (runs (pre ++ OnError msg :: post))) = Resolved r
                  /\ exitCode r = 1%Z /\ stderr r <> ""
                  /\ exists before, stderr r = (before ++ nl ++ msg)%string)
  /\ (forall oracle clock o s,
        exists r, fst (BoxLite.exec oracle clock o s) = Ok r
          /\ (forall e,
                fst (exec_try oracle clock o (clock (length (log s)))
                       (exec_workDir o (this s)) (exec_targetImage o (this s)) s) = Throw e ->
                exitCode r <> 0%Z /\ stderr r <> "")
          /\ (box (this s) = None -> SimpleBox (globals s) = None ->
              exitCode r = 1%Z /\ stderr r = "Error: BoxLite is not loaded")).
Proof.
  split; [|split; [|split]].
  - intros h this o trace Hs. unfold Codex.exec, runs, promise_of.
    destruct (no_codex this); [cbn; eauto|].
    cbn [cwd_error spawn_error child_events].
    destruct (calls_process_cwd o); cbv iota; cbn [fst];
      match goal with
      | |- context [run_listeners ?d ?l0 trace] =>
          destruct (settled_if_settling d trace l0 Hs) as [r R]; rewrite R; eauto
      end.
  - intros h this o w Hn. unfold Codex.exec. rewrite Hn. cbn. eauto.
  - intros h this o pre msg post Hn Hq. unfold Codex.exec, runs, promise_of.
    rewrite Hn. cbn [cwd_error spawn_error child_events].
    destruct (calls_process_cwd o); cbv iota; cbn [fst];
      match goal with
      | |- context [run_listeners ?d ?l0 _] =>
          destruct (error_settles d pre msg post l0 eq_refl Hq) as [r [E [X [before S]]]]
      end;
      rewrite E; exists r; (repeat split; auto; [|eauto]);
      rewrite S; apply append_nonempty_r; apply append_nonempty_l; discriminate.
  - intros oracle clock o s.
    destruct (boxlite_exec_catch oracle clock o s) as [r [E [T _]]].
    exists r. split; [exact E|]. split.
    + intros e He. destruct (T e He) as [X S]. split; auto.
      rewrite S. apply or_str_nonempty. apply String_of_nonempty.
    + intros B Sb. destruct (T _ (boxlite_not_loaded oracle clock o s B Sb)) as [X S].
      split.
      * pose proof (boxlite_not_loaded oracle clock o s B Sb) as N.
        revert E. unfold BoxLite.exec, exec_catch.
        cbv beta zeta iota delta [bind ret try_catch get_this now].
        destruct (exec_try oracle clock o _ _ _ s) as [[res|e] s1]; cbn in N |- *;
          [discriminate|].
        inversion N; subst. intros E. inversion E; subst. reflexivity.
      * rewrite S. reflexivity.
Qed.

(** On the bare state of a fresh module nothing is loaded: [exec] reports
    it; and a spawn failure reported after some output still resolves the
    Codex promise. *)
Lemma exec_returns_result_example :
  (exists r, fst (BoxLite.exec calm ticks echo_hi (initial_state initial_globals)) = Ok r
             /\ exitCode r = 1%Z /\ stderr r = "Error: BoxLite is not loaded")
  /\ (exists r, fst (Codex.exec codex_host codex_ready echo_hi
                       (runs ([OnStderr "sh: "] ++ OnError "spawn ENOENT" :: []))) = Resolved r
                /\ exitCode r = 1%Z /\ stderr r <> "").
Proof.
  split.
  - destruct (proj2 (proj2 (proj2 exec_returns_result)) calm ticks echo_hi
                (initial_state initial_globals)) as [r [E [_ N]]].
    exists r. split; [exact E|]. apply N; reflexivity.
  - destruct (proj1 (proj2 (proj2 exec_returns_result)) codex_host codex_ready echo_hi
                [OnStderr "sh: "] "spawn ENOENT" [] eq_refl eq_refl)
      as [r [E [X [S _]]]].
    exists r. auto.
Qed.

(** The promise of the Codex [exec] is rejected exactly when codex is
    present and [process.cwd()] (called for a missing [cwd]) or [spawn]
    throws; the error is the one thrown. *)
Lemma codex_exec_rejects_iff h this o w e :
  fst (Codex.exec h this o w) = Rejected e
  <-> no_codex this = false
      /\ ((calls_process_cwd o = true /\ cwd_error w = Some e)
          \/ ((calls_process_cwd o = false \/ cwd_error w = None)
              /\ spawn_error w = Some e)).
Proof.
  unfold Codex.exec, promise_of.
  destruct (no_codex this); cbn.
  - split; [discriminate | intros [X _]; discriminate].
  - destruct (calls_process_cwd o); cbn.
    + destruct (cwd_error w) as [e1|]; cbn.
      * split.
        -- intros E. inversion E; subst. auto.
        -- intros [_ [[_ E]|[[X|X] _]]]; try discriminate. now inversion E.
      * destruct (spawn_error w) as [e2|]; cbn.
        -- split.
           ++ intros E. inversion E; subst. auto.
           ++ intros [_ [[_ E]|[_ E]]]; try discriminate. now inversion E.
        -- split.
           ++ destruct (resolved _); discriminate.
           ++ intros [_ [[_ E]|[_ E]]]; discriminate.
    + destruct (spawn_error w) as [e2|]; cbn.
      * split.
        -- intros E. inversion E; subst. auto.
        -- intros [_ [[X _]|[_ E]]]; try discriminate. now inversion E.
      * split.
        -- destruct (resolved _); discriminate.
        -- intros [_ [[X _]|[_ E]]]; discriminate.
Qed.

(** C1. The claim fails for the Codex provider: [spawn] is called outside
    any [try], inside a promise that is only ever resolved, so when it
    throws before it returns a child, [exec] does not return a result with
    exit code 1 as it does for the failures that arrive as an [error]
    event: the promise is rejected with the error, for every command.  An
    instance is [ls] in a working directory that is a file. *)
Theorem spawn_throw_rejects_exec (o : SandboxExecOptions) (e : JsError)
  (trace : list ProcEvent) :
  fst (Codex.exec codex_host codex_ready o
         {| cwd_error := None; spawn_error := Some e; child_events := trace |})
  = Rejected e
  /\ (exists argv,
        snd (Codex.exec codex_host codex_ready o
               {| cwd_error := None; spawn_error := Some e; child_events := trace |})
        = [Spawn "/usr/local/bin/codex" argv (or_str (cwd o) "/home/u")])
  /\ Codex.exec codex_host codex_ready ls_in_a_file
       {| cwd_error := None; spawn_error := Some (Error "spawn ENOTDIR");
          child_events := [] |}
     = (Rejected (Error "spawn ENOTDIR"),
        [Spawn "/usr/local/bin/codex"
           ["sandbox"; "linux"; "--full-auto"; "--"; "ls"] "/etc/passwd"]).
Proof.
  split; [|split].
  - apply codex_exec_rejects_iff. split; [reflexivity|].
    right. split; [now right | reflexivity].
  - unfold Codex.exec.
    change (no_codex codex_ready) with false.
    change (codexPath codex_ready) with (Some "/usr/local/bin/codex").
    change (process_cwd codex_host) with "/home/u".
    cbv beta iota zeta. cbn [cwd_error spawn_error or_str truthy].
    destruct (calls_process_cwd o); cbv iota; cbn [snd]; eexists; reflexivity.
  - vm_compute. reflexivity.
Qed.

End ExecContract.

(** ** C2: what a timeout returns *)

Module Timeouts.
Import Codex CodexInv CodexFacts StringFacts Samples.

Lemma run_data dur tr : forall l,
  forallb is_data tr = true ->
  timeoutId (run_listeners dur l tr) = timeoutId l
  /\ pending (run_listeners dur l tr) = pending l
  /\ resolved (run_listeners dur l tr) = resolved l
  /\ effects (run_listeners dur l tr) = effects l
  /\ l_stderr (run_listeners dur l tr) = (l_stderr l ++ err_data tr)%string.
Proof.
  unfold run_listeners.
  induction tr as [|ev tr IH]; intros l H; simpl in *.
  - now rewrite str_app_nil_r.
  - apply andb_true_iff in H. destruct H as [Hev H].
    destruct (IH (handle dur l ev) H) as [I1 [I0 [I2 [I3 I4]]]].
    rewrite I1, I0, I2, I3, I4.
    destruct ev; simpl in *; try discriminate; repeat split; auto.
    now rewrite str_app_assoc.
Qed.

Lemma run_app dur l a b :
  run_listeners dur l (a ++ b) = run_listeners dur (run_listeners dur l a) b.
Proof. unfold run_listeners. apply fold_left_app. Qed.

Lemma run_cons dur l ev tr :
  run_listeners dur l (ev :: tr) = run_listeners dur (handle dur l ev) tr.
Proof. reflexivity. Qed.

Lemma timer_then_close dur pre mid code post l :
  pending l = true -> resolved l = None ->
  forallb is_data pre = true -> forallb is_data mid = true ->
  In (Kill "SIGTERM")
     (effects (run_listeners dur l (pre ++ TimerFires :: mid ++ OnClose code :: post)))
  /\ exists r,
      resolved (run_listeners dur l (pre ++ TimerFires :: mid ++ OnClose code :: post))
      = Some r
      /\ stderr r = (l_stderr l ++ err_data pre ++ nl ++ "Execution timed out"
                     ++ err_data mid)%string
      /\ exitCode r = or_num code 0.
Proof.
  intros T R Hpre Hmid.
  rewrite run_app, run_cons, run_app, run_cons.
  destruct (run_data dur pre l Hpre) as [P1 [P0 [P2 [P3 P4]]]].
  set (l1 := run_listeners dur l pre) in *.
  assert (H1 : handle dur l1 TimerFires
               = {| l_stdout := l_stdout l1;
                    l_stderr := (l_stderr l1 ++ nl ++ "Execution timed out")%string;
                    timeoutId := timeoutId l1; pending := false; resolved := resolved l1;
                    effects := effects l1 ++ [Kill "SIGTERM"] |}).
  { cbn. rewrite P0, T. reflexivity. }
  rewrite H1. clear H1.
  set (l2 := {| l_stdout := l_stdout l1;
                l_stderr := (l_stderr l1 ++ nl ++ "Execution timed out")%string;
                timeoutId := timeoutId l1; pending := false; resolved := resolved l1;
                effects := effects l1 ++ [Kill "SIGTERM"] |}).
  destruct (run_data dur mid l2 Hmid) as [M1 [M0 [M2 [M3 M4]]]].
  set (l3 := run_listeners dur l2 mid) in *.
  split.
  - destruct (effects_grow dur post (handle dur l3 (OnClose code))) as [extra [E _]].
    rewrite E. apply in_or_app. left.
    cbn. unfold clear. rewrite M3. cbn.
    destruct (timeoutId l3); [apply in_or_app; left|];
      apply in_or_app; right; now left.
  - eexists. split.
    + apply (resolved_stays dur post). cbn. rewrite M2. cbn. rewrite P2, R. reflexivity.
    + cbn. rewrite M4. cbn. rewrite P4. split; [|reflexivity].
      repeat rewrite str_app_assoc. reflexivity.
Qed.

(** When the timer fires before the child has closed, the child is sent
    SIGTERM and the marker is appended to [stderr]; the promise settles
    when the child closes, and the exit code of the result is the [code] of
    the close event, or 0 when that is [null]. *)
Lemma timeout_then_close h this o t pre mid code post :
  no_codex this = false -> timeout o = Some t -> t <> 0%Z ->
  forallb is_data pre = true -> forallb is_data mid = true ->
  In (Kill "SIGTERM")
     (snd (Codex.exec h this o (runs (pre ++ TimerFires :: mid ++ OnClose code :: post))))
  /\ exists r,
      fst (Codex.exec h this o (runs (pre ++ TimerFires :: mid ++ OnClose code :: post)))
      = Resolved r
      /\ stderr r = (err_data pre ++ nl ++ "Execution timed out" ++ err_data mid)%string
      /\ exitCode r = or_num code 0.
Proof.
  intros Hn Ht Hz Hpre Hmid. rewrite (exec_runs h this o _ Hn). unfold exec_start.
  rewrite Ht.
  assert (A : negb (t =? 0)%Z = true) by (apply negb_true_iff, Z.eqb_neq; exact Hz).
  rewrite A. cbn [fst snd].
  match goal with |- context [run_listeners ?d ?l0 _] => set (dur := d); set (l := l0) end.
  destruct (timer_then_close dur pre mid code post l eq_refl eq_refl Hpre Hmid)
    as [K [r [R X]]].
  split; [exact K|]. exists r. split; [now apply promise_resolved | exact X].
Qed.

(** C2. A command that outlives its 50 ms timeout and is ended by the
    SIGTERM that the timer sends: Node reports the close with
    [code = null], and [exec] settles with the marker on [stderr] and with
    exit code 0, since [code || 0] reads the missing code as success.
    [runScript] does the same with its default timeout. *)
Theorem timeout_killed_child_exits_zero :
  Codex.exec codex_host codex_ready sleep_5 (runs [TimerFires; OnClose None])
  = (Resolved {| stdout := ""; stderr := (nl ++ "Execution timed out")%string;
                 exitCode := 0; duration := 50 |},
     [Spawn "/usr/local/bin/codex"
        ["sandbox"; "linux"; "--full-auto"; "--"; "sleep"; "5"] "/home/u";
      SetTimeout 50; Kill "SIGTERM"; ClearTimeout])
  /\ Codex.runScript codex_host codex_ready "/home/u/job/wait.py" "/home/u/job" None
       (Ok "") (runs [TimerFires; OnClose None])
     = (Resolved {| stdout := ""; stderr := (nl ++ "Execution timed out")%string;
                    exitCode := 0; duration := 50 |},
        [Spawn "/usr/local/bin/codex"
           ["sandbox"; "linux"; "--full-auto"; "--"; "python"; "/home/u/job/wait.py"]
           "/home/u/job";
         SetTimeout 120000; Kill "SIGTERM"; ClearTimeout]).
Proof. split; reflexivity. Qed.

End Timeouts.

(** ** C4: [init] on an unavailable provider *)

Module InitContract.
Import BoxLite BoxLiteInv BoxLiteFacts Samples.

(** C4, as stated, fails for the Codex provider: on a host without codex
    [isAvailable] answers [false] and [init] still completes. *)
Lemma codex_init_completes_when_unavailable :
  fst (Codex.isAvailable bare_host Codex.new_CodexProvider) = false
  /\ fst (Codex.init bare_host Codex.new_CodexProvider) = Ok tt.
Proof. split; reflexivity. Qed.

(** C4, amended. [BoxLiteProvider.init] throws "BoxLite is not available on
    this platform" exactly when its availability check answers [false], and
    completes when it answers [true].  [CodexProvider.init] never throws: it
    records the path that was found, if any, and a provider without codex
    reports the failure from [exec] as exit code 1. *)
Theorem init_fails_only_for_boxlite :
  (forall oracle cfg s,
      fst (BoxLite.isAvailable oracle s) = Ok false ->
      fst (BoxLite.init oracle cfg s)
      = Throw (Error "BoxLite is not available on this platform"))
  /\ (forall oracle cfg s,
        fst (BoxLite.isAvailable oracle s) = Ok true ->
        fst (BoxLite.init oracle cfg s) = Ok tt)
  /\ (forall h this,
        fst (Codex.init h this) = Ok tt
        /\ Codex.codexPath (snd (Codex.init h this)) = Codex.getCodexPath h)
  /\ (forall h this o w,
        fst (Codex.isAvailable h this) = false ->
        exists d,
          Codex.exec h (snd (Codex.init h this)) o w
          = (Codex.Resolved {| stdout := ""; stderr := "Codex CLI is not installed";
                               exitCode := 1; duration := d |}, [])).
Proof.
  split; [|split; [|split]].
  - intros oracle cfg s H. rewrite init_unfold. cbv zeta.
    rewrite (isAvailable_this oracle (merged cfg (this s)) s). cbn [fst snd].
    rewrite H. reflexivity.
  - intros oracle cfg s H. rewrite init_unfold. cbv zeta.
    rewrite (isAvailable_this oracle (merged cfg (this s)) s). cbn [fst snd].
    rewrite H. reflexivity.
  - intros h this. split; reflexivity.
  - intros h this o w H. unfold Codex.isAvailable in H. cbn in H.
    unfold Codex.exec, Codex.init, Codex.no_codex. cbn.
    destruct (Codex.getCodexPath h); [discriminate|]. eauto.
Qed.

(** With nothing to load the check answers [false] and [init] throws. *)
Lemma init_fails_only_for_boxlite_witness :
  fst (BoxLite.init (script [absent; throws "Cannot find package"]) None
         (initial_state initial_globals))
  = Throw (Error "BoxLite is not available on this platform").
Proof.
  apply (proj1 init_fails_only_for_boxlite). reflexivity.
Defined.

End InitContract.

(** ** C6: [stop] and [shutdown] *)

Module StopContract.
Import BoxLite BoxLiteInv BoxLiteFacts Samples.

(** C6. [stop] never throws and leaves the provider without a box; a
    second [stop] changes nothing and calls nothing, so over both calls the
    box that was held is asked to stop once; [shutdown] is [stop].  The
    Codex provider holds nothing: its [stop] and [shutdown] do nothing. *)
Theorem stop_twice_is_stop_once :
  (forall oracle s,
      fst (BoxLite.stop oracle s) = Ok tt
      /\ box (this (snd (BoxLite.stop oracle s))) = None
      /\ BoxLite.stop oracle (snd (BoxLite.stop oracle s))
         = (Ok tt, snd (BoxLite.stop oracle s))
      /\ log (snd (BoxLite.stop oracle (snd (BoxLite.stop oracle s))))
         = log s ++ stop_events s
      /\ BoxLite.shutdown oracle s = BoxLite.stop oracle s)
  /\ (forall this,
        Codex.stop this = (Ok tt, this)
        /\ Codex.stop (snd (Codex.stop this)) = (Ok tt, this)
        /\ Codex.shutdown this = Codex.stop this).
Proof.
  split.
  - intros oracle s.
    destruct (stop_spec oracle s) as [S1 [S2 [S3 S4]]].
    assert (B : box (this (snd (BoxLite.stop oracle s))) = None)
      by (rewrite S3; reflexivity).
    assert (E : BoxLite.stop oracle (snd (BoxLite.stop oracle s))
                = (Ok tt, snd (BoxLite.stop oracle s))).
    { generalize dependent (snd (BoxLite.stop oracle s)). intros s1 _ _ _ B1.
      unfold BoxLite.stop. cbv beta zeta iota delta [bind ret get_this].
      rewrite B1. reflexivity. }
    repeat split; auto.
    rewrite E. cbn [snd]. exact S4.
  - intros this. repeat split.
Qed.

End StopContract.

(** ** C3: the cached runtime check *)

Module AvailabilityCache.
Import BoxLite BoxLiteInv BoxLiteFacts Samples.

(** C3, as stated, fails: a [false] that comes from the module failing to
    load is not cached, and the next call may answer [true]. *)
Lemma second_call_can_differ :
  fst (isAvailable late_install (initial_state initial_globals)) = Ok false
  /\ fst (isAvailable late_install
            (snd (isAvailable late_install (initial_state initial_globals)))) = Ok true.
Proof. split; reflexivity. Qed.

Section Cache.
Variable oracle : nat -> Answer.

Lemma probes_bounded n : forall s,
  probes (log (snd (isAvailable_n oracle n s))) <= probes (log s) + 1
  /\ (boxliteRuntimeVerified (globals s) = true ->
      probes (log (snd (isAvailable_n oracle n s))) = probes (log s)).
Proof.
  induction n as [|k IH]; intros s; cbn [isAvailable_n fst snd].
  - split; [lia | reflexivity].
  - destruct (isAvailable_spec oracle s) as [_ [_ [[l [L [P1 [P2 [P3 _]]]]] [_ [V _]]]]].
    destruct (IH (snd (isAvailable oracle s))) as [I1 I2].
    rewrite L, probes_app in I1, I2.
    split.
    + destruct P3 as [P3|P3].
      * lia.
      * rewrite (I2 P3). lia.
    + intros Hv. rewrite (I2 (V Hv)), (P2 Hv). lia.
Qed.

(** Once the module is loaded the answer is read from the cache. *)
Lemma cached_call s b :
  fst (isAvailable oracle s) = Ok b ->
  boxliteModuleLoaded (globals (snd (isAvailable oracle s))) = true ->
  forall s', globals s' = globals (snd (isAvailable oracle s)) ->
             isAvailable oracle s' = (Ok b, s').
Proof.
  intros E Hl s' G.
  destruct (isAvailable_spec oracle s) as [[b0 [E0 [C0 _]]] _].
  rewrite E in E0. inversion E0; subst b0. clear E0.
  destruct (C0 Hl) as [Hv Hb].
  destruct (isAvailable_spec oracle s') as [[b1 [E1 [C1 _]]] [_ [_ [Same _]]]].
  rewrite G in Same. specialize (Same Hl Hv).
  rewrite Same in C1. rewrite G in C1. destruct (C1 Hl) as [_ Hb1].
  destruct (isAvailable oracle s') as [r1 s1]. cbn in *. subst. reflexivity.
Qed.

Lemma run_op_globals clock s op :
  boxliteModuleLoaded (globals s) = true ->
  boxliteRuntimeVerified (globals s) = true ->
  globals (run_op oracle clock s op) = globals s.
Proof.
  intros Hl Hv. destruct op; cbn [run_op].
  - rewrite init_unfold. cbv zeta.
    set (s0 := {| globals := globals s; this := merged cfg (this s); log := log s |}).
    destruct (isAvailable_spec oracle s0) as [_ [_ [_ [Same _]]]].
    specialize (Same Hl Hv).
    destruct (isAvailable oracle s0) as [[[|]|e] s1]; cbn in *; subst; reflexivity.
  - destruct (isAvailable_spec oracle s) as [_ [_ [_ [Same _]]]].
    now rewrite (Same Hl Hv).
  - now apply exec_spec.
  - now apply runScript_spec.
  - reflexivity.
  - now apply stop_spec.
  - unfold shutdown. now apply stop_spec.
Qed.

Lemma run_ops_globals clock ops : forall s,
  boxliteModuleLoaded (globals s) = true ->
  boxliteRuntimeVerified (globals s) = true ->
  globals (run_ops oracle clock ops s) = globals s.
Proof.
  unfold run_ops. induction ops as [|op ops IH]; intros s Hl Hv; cbn; auto.
  pose proof (run_op_globals clock s op Hl Hv) as G.
  rewrite IH; rewrite ?G; auto.
Qed.

(** C3, amended. Any number of calls of [isAvailable] construct the test
    box at most once.  As soon as a call has loaded the module (so that the
    check ran, or its stored outcome was read), the outcome is stored for
    good: every later call answers the same boolean, [true] or [false],
    without touching the world, also after any other operations of the
    provider.  A [false] that is due to the module not loading is not
    stored; the next call tries to load it again. *)
Theorem availability_cached_once_loaded (s : State) :
  (forall n, probes (log (snd (isAvailable_n oracle n s))) <= probes (log s) + 1)
  /\ (boxliteModuleLoaded (globals (snd (isAvailable oracle s))) = true ->
      (forall n, isAvailable_n oracle n (snd (isAvailable oracle s))
                 = (repeat (fst (isAvailable oracle s)) n, snd (isAvailable oracle s)))
      /\ (forall clock ops,
            let later := run_ops oracle clock ops (snd (isAvailable oracle s)) in
            isAvailable oracle later = (fst (isAvailable oracle s), later)))
  /\ (boxliteModuleLoaded (globals (snd (isAvailable oracle s))) = false ->
      fst (isAvailable oracle s) = Ok false
      /\ boxliteRuntimeVerified (globals (snd (isAvailable oracle s)))
         = boxliteRuntimeVerified (globals s)).
Proof.
  split; [|split].
  - intros n. apply probes_bounded.
  - intros Hl.
    destruct (isAvailable_spec oracle s) as [[b [E [C _]]] _].
    destruct (C Hl) as [Hv _].
    split.
    + induction n as [|k IH]; cbn [isAvailable_n repeat]; [reflexivity|].
      rewrite (cached_call s b E Hl _ eq_refl). cbn [fst snd]. rewrite IH, E.
      reflexivity.
    + intros clock ops later. rewrite E.
      apply (cached_call s b E Hl). unfold later.
      apply run_ops_globals; assumption.
  - intros Hl.
    destruct (isAvailable_spec oracle s) as [[b [E [_ C]]] _].
    split; [rewrite E, (C Hl); reflexivity|].
    revert Hl. clear.
    unfold isAvailable, loadBoxLite, loadBoxLiteModule, loadNativeModuleDirect,
      verifyBoxLiteRuntime.
    unfold_m. cbn.
    repeat (break_match; cbn); intros; congruence.
Qed.

End Cache.

(** In a world where everything works, the first call runs the test box
    and three more calls repeat its answer from the cache. *)
Lemma availability_cached_once_loaded_witness :
  isAvailable_n calm 3 (snd (isAvailable calm (initial_state initial_globals)))
  = (repeat (fst (isAvailable calm (initial_state initial_globals))) 3,
     snd (isAvailable calm (initial_state initial_globals))).
Proof.
  apply (proj1 (proj2 (availability_cached_once_loaded calm
                         (initial_state initial_globals))));
    reflexivity.
Defined.

End AvailabilityCache.

(** ** C7 and C8: [runScript] *)

Module RunScript.
Import CodexInv CodexFacts BoxLite BoxLiteInv BoxLiteFacts StringFacts Samples.

(** The effects of the Codex [runScript]: the package installation, if
    any, then the spawn, then its timer and what the listeners add. *)
Lemma codex_runScript_effects h this f w o install b :
  Codex.no_codex this = false ->
  (forall e, (0 <? length (option_list o packages))%nat = true -> install = Throw e ->
     Codex.runScript h this f w o install b
     = (Codex.Resolved
          {| stdout := "";
             stderr := ("Failed to install packages: " ++ message e)%string;
             exitCode := 1; duration := Codex.elapsed h |},
        Codex.script_install f w o))
  /\ (((0 <? length (option_list o packages))%nat = true -> exists v, install = Ok v) ->
      exists extra,
        snd (Codex.runScript h this f w o install b)
        = Codex.script_install f w o ++ Codex.script_spawn h this f w o :: extra
        /\ Forall (fun e => is_spawn e = false) extra
        /\ (Codex.spawn_error b = None ->
            exists extra',
              extra = Codex.SetTimeout
                        (or_num (match o with Some x => so_timeout x | None => None end)
                                120000) :: extra'
              /\ Forall timer_effect extra')).
Proof.
  intros Hn. unfold Codex.runScript. rewrite Hn.
  split.
  - intros e Hp He. rewrite Hp, He. reflexivity.
  - intros Hok.
    assert (E : exists v, (if (0 <? length (option_list o packages))%nat
                           then install else Ok "") = Ok v).
    { destruct (0 <? length (option_list o packages))%nat; [apply Hok; reflexivity | eauto]. }
    destruct E as [v E]. rewrite E.
    destruct (Codex.spawn_error b) as [e|]; cbn [snd].
    + exists []. split; [reflexivity|]. split; [constructor | intros; discriminate].
    + destruct (effects_grow (Codex.elapsed h) (Codex.child_events b)
                  (Codex.script_start h this f w o)) as [extra [G F]].
      exists (Codex.SetTimeout
                (or_num (match o with Some x => so_timeout x | None => None end) 120000)
              :: extra).
      split; [|split].
      * rewrite G. cbn [Codex.effects Codex.script_start]. rewrite <- app_assoc. reflexivity.
      * constructor; [reflexivity|]. eapply Forall_impl; [|exact F].
        intros a T. destruct a; cbn in *; tauto.
      * intros _. eauto.
Qed.






(** C8, as stated, fails for the BoxLite provider.  For a Python script the
    declared packages are not installed at all: the calls are the
    constructor, the readiness check, the script and the file listing.  For
    a Node script a failed [npm install] (exit code 1) is not looked at:
    the script runs all the same and its result is returned. *)
Lemma boxlite_install_not_checked :
  log (snd (BoxLite.runScript calm ticks "/w/job.py" "/w" (with_packages ["requests"])
              (initial_state loaded_globals)))
  = [BoxNew 0 ByProvider SimpleBoxNpm
       (box_options
          (set_volumes [{| hostPath := "/w"; guestPath := "/w"; readOnly := Some false |}]
                       new_BoxLiteProvider)
          "python:3.11-slim");
     BoxExec 0 "echo" ["Box ready"];
     BoxExec 0 "sh" ["-c"; script_command "/w" "python" "/w/job.py" ""];
     BoxExec 0 "sh" ["-c"; list_command "/w"]]
  /\ fst (BoxLite.runScript failing_install ticks "/w/job.js" "/w"
            (with_packages ["no-such-pkg"]) (initial_state loaded_globals))
     = Ok {| stdout := "done"; stderr := ""; exitCode := 0; duration := 2 |}
  /\ log (snd (BoxLite.runScript failing_install ticks "/w/job.js" "/w"
                 (with_packages ["no-such-pkg"]) (initial_state loaded_globals)))
     = [BoxNew 0 ByProvider SimpleBoxNpm
          (box_options
             (set_volumes [{| hostPath := "/w"; guestPath := "/w"; readOnly := Some false |}]
                          new_BoxLiteProvider)
             "node:18-alpine");
        BoxExec 0 "echo" ["Box ready"];
        BoxExec 0 "sh" ["-c"; install_command "/w" ["no-such-pkg"]];
        BoxExec 0 "sh" ["-c"; script_command "/w" "node" "/w/job.js" ""];
        BoxExec 0 "sh" ["-c"; list_command "/w"]].
Proof. repeat split; reflexivity. Qed.

(** C8, amended. With codex present and a non-empty package list, the
    Codex [runScript] installs the packages on the host before anything is
    spawned ([pip install] for Python, [npm install] otherwise); if the
    installation throws, the result is exit code 1 with "Failed to install
    packages: ..." on [stderr], and nothing is spawned.  The BoxLite
    [runScript] runs [npm install] in the box right before the script when
    the runtime is not python, and runs no installation for python. *)
Theorem packages_installed_before_script :
  (forall h this f w o install world,
      Codex.no_codex this = false ->
      option_list o packages <> [] ->
      (exists rest,
          snd (Codex.runScript h this f w o install world)
          = Codex.ExecSync
              ((if snd (Codex.select_runtime f) then "pip install " else "npm install ")
               ++ join " " (option_list o packages))%string w :: rest)
      /\ (forall e, install = Throw e ->
            Codex.runScript h this f w o install world
            = (Codex.Resolved
                 {| stdout := "";
                    stderr := ("Failed to install packages: " ++ message e)%string;
                    exitCode := 1; duration := Codex.elapsed h |},
               [Codex.ExecSync
                  ((if snd (Codex.select_runtime f) then "pip install "
                    else "npm install ")
                   ++ join " " (option_list o packages))%string w])))
  /\ (forall oracle clock f w o s res,
        fst (BoxLite.runScript oracle clock f w o s) = Ok res ->
        exists b pre post,
          log (snd (BoxLite.runScript oracle clock f w o s))
          = log s ++ pre
            ++ install_events b w (snd (BoxLite.select_runtime f)) (option_list o packages)
            ++ [BoxExec b "sh"
                  ["-c"; script_command w (snd (BoxLite.select_runtime f)) f
                           (join " " (option_list o so_args))]]
            ++ post
          /\ Forall setup_event pre
          /\ Forall (sync_event b w (Path.basename f)) post)
  /\ (forall b w pkgs, install_events b w "python" pkgs = [])
  /\ (forall b w runtime pkgs,
        runtime <> "python" -> pkgs <> [] ->
        install_events b w runtime pkgs
        = [BoxExec b "sh" ["-c"; install_command w pkgs]]).
Proof.
  split; [|split; [|split]].
  - intros h this f w o install world Hn Hp.
    assert (P : (0 <? length (option_list o packages))%nat = true).
    { destruct (option_list o packages); [contradiction | reflexivity]. }
    assert (I : Codex.script_install f w o
                = [Codex.ExecSync
                     ((if snd (Codex.select_runtime f) then "pip install "
                       else "npm install ")
                      ++ join " " (option_list o packages))%string w]).
    { unfold Codex.script_install. rewrite P. reflexivity. }
    destruct (codex_runScript_effects h this f w o install world Hn) as [Fail Run].
    rewrite I in Fail, Run.
    split.
    + destruct install as [v|e].
      * destruct Run as [extra [E _]]; [eauto|]. rewrite E. cbn. eauto.
      * rewrite (Fail e P eq_refl). cbn. eauto.
    + intros e He. apply Fail; auto.
  - intros oracle clock f w o s res E.
    destruct (runScript_spec oracle clock f w o s) as [_ [_ [_ Shape]]].
    destruct (Shape res E) as [b [cls [opts [post [L [_ [_ [F _]]]]]]]].
    exists b, (stop_events s ++ [BoxNew b ByProvider cls opts; BoxExec b "echo" ["Box ready"]]),
      post.
    split; [|split; [|exact F]].
    + rewrite L. repeat rewrite <- app_assoc. reflexivity.
    + apply Forall_app. split.
      * unfold stop_events. destruct (box (this s)); repeat constructor.
      * repeat constructor.
  - intros b w pkgs. unfold install_events, installs.
    rewrite andb_false_r. reflexivity.
  - intros b w runtime pkgs Hr Hp. unfold install_events, installs.
    destruct pkgs; [contradiction|]. cbn.
    apply String.eqb_neq in Hr. rewrite Hr. reflexivity.
Qed.

(** On a host with codex, a Python script with a package that pip cannot
    find: the installation is the only effect. *)
Lemma packages_installed_before_script_witness :
  Codex.runScript codex_host codex_ready "/home/u/job/plot.py" "/home/u/job"
    (with_packages ["no-such-pkg"]) (Throw (Error "Command failed: pip install no-such-pkg"))
    (Codex.runs [])
  = (Codex.Resolved
       {| stdout := "";
          stderr := "Failed to install packages: Command failed: pip install no-such-pkg";
          exitCode := 1; duration := 50 |},
     [Codex.ExecSync "pip install no-such-pkg" "/home/u/job"]).
Proof.
  exact (proj2 (proj1 packages_installed_before_script codex_host codex_ready
                  "/home/u/job/plot.py" "/home/u/job" (with_packages ["no-such-pkg"])
                  (Throw (Error "Command failed: pip install no-such-pkg")) (Codex.runs [])
                  eq_refl ltac:(discriminate))
           (Error "Command failed: pip install no-such-pkg") eq_refl).
Defined.

End RunScript.

(** ** C9: one box per provider *)

Module OneBox.
Import BoxLite BoxLiteInv BoxLiteFacts Samples.

(** C9. Whatever operations were applied to a fresh provider, and whatever
    the world answered: at every moment of its history at most one box of
    the provider had been created and not yet stopped, and such a box is
    the one the provider holds.  From there, [getOrCreateBox] with another
    image stops the held box before it constructs the new one, [runScript]
    starts by stopping the held box, and [stop] leaves the provider with no
    box and no live box. *)
Theorem at_most_one_live_box oracle clock g ops :
  (forall p q, log (run_ops oracle clock ops (initial_state g)) = p ++ q ->
               length (live p) <= 1)
  /\ (forall id, In id (live (log (run_ops oracle clock ops (initial_state g)))) ->
                 box (this (run_ops oracle clock ops (initial_state g))) = Some id)
  /\ (forall image old b,
        box (this (run_ops oracle clock ops (initial_state g))) = Some old ->
        (currentImage (this (run_ops oracle clock ops (initial_state g))) =? image) = false ->
        fst (getOrCreateBox oracle image (run_ops oracle clock ops (initial_state g))) = Ok b ->
        exists cls,
          log (snd (getOrCreateBox oracle image (run_ops oracle clock ops (initial_state g))))
          = log (run_ops oracle clock ops (initial_state g))
            ++ [BoxStop old;
                BoxNew b ByProvider cls
                  (box_options (this (run_ops oracle clock ops (initial_state g))) image);
                BoxExec b "echo" ["Box ready"]])
  /\ (forall f w o res,
        fst (runScript oracle clock f w o (run_ops oracle clock ops (initial_state g))) = Ok res ->
        exists b cls opts rest,
          log (snd (runScript oracle clock f w o (run_ops oracle clock ops (initial_state g))))
          = log (run_ops oracle clock ops (initial_state g))
            ++ stop_events (run_ops oracle clock ops (initial_state g))
            ++ BoxNew b ByProvider cls opts :: rest)
  /\ box (this (snd (stop oracle (run_ops oracle clock ops (initial_state g))))) = None
  /\ live (log (snd (stop oracle (run_ops oracle clock ops (initial_state g))))) = [].
Proof.
  pose proof (run_ops_Inv oracle clock ops (initial_state g) (initial_Inv g)) as Hj.
  set (s := run_ops oracle clock ops (initial_state g)) in *.
  split; [|split; [|split; [|split; [|split]]]].
  - exact (proj1 Hj).
  - intros id I. destruct (proj2 Hj) as [O | [id' [O1 [O2 O3]]]].
    + rewrite O in I. destruct I.
    + rewrite O1 in I. destruct I as [I|[]]. now subst.
  - intros image old b. apply getOrCreateBox_restart.
  - intros f w o res E.
    destruct (runScript_spec oracle clock f w o s) as [_ [_ [_ Shape]]].
    destruct (Shape res E) as [b [cls [opts [post [L _]]]]].
    exists b, cls, opts. eexists. rewrite L. cbn. reflexivity.
  - destruct (stop_spec oracle s) as [_ [_ [T _]]]. rewrite T. reflexivity.
  - apply stop_Inv. exact Hj.
Qed.

(** A provider that runs a command in the node image and then a Python
    script: the node box is stopped before the python box is made. *)
Lemma at_most_one_live_box_witness :
  length (live [BoxNew 0 ByProvider SimpleBoxNpm
                  (box_options new_BoxLiteProvider "node:18-alpine");
                BoxExec 0 "echo" ["Box ready"]]) <= 1.
Proof.
  apply (proj1 (at_most_one_live_box calm ticks loaded_globals
                  [OpExec echo_hi; OpRunScript "/w/job.py" "/w" None])
           [BoxNew 0 ByProvider SimpleBoxNpm
              (box_options new_BoxLiteProvider "node:18-alpine");
            BoxExec 0 "echo" ["Box ready"]]
           [BoxExec 0 "sh" ["-c"; fullCommand echo_hi "/workspace"];
            BoxStop 0;
            BoxNew 4 ByProvider SimpleBoxNpm
              (box_options
                 (set_volumes
                    [{| hostPath := "/w"; guestPath := "/w"; readOnly := Some false |}]
                    new_BoxLiteProvider)
                 "python:3.11-slim");
            BoxExec 4 "echo" ["Box ready"];
            BoxExec 4 "sh" ["-c"; script_command "/w" "python" "/w/job.py" ""];
            BoxExec 4 "sh" ["-c"; list_command "/w"]]).
  reflexivity.
Defined.

End OneBox.

(** ** C10: what the copy-back writes *)

Module CopyBack.
Import BoxLite BoxLiteInv BoxLiteFacts StringFacts Samples.

Lemma after_last_slash_suffix s : forall cur,
  exists a, (cur ++ s)%string = (a ++ Path.after_last_slash s cur)%string.
Proof.
  induction s as [|c s IH]; intros cur; cbn [Path.after_last_slash].
  - exists "". now rewrite str_app_nil_r.
  - destruct (Ascii.eqb c Path.slash).
    + destruct (IH "") as [a E]. cbn in E.
      exists (cur ++ String c a)%string.
      rewrite str_app_assoc. cbn. now rewrite <- E.
    + destruct (IH (cur ++ String c "")%string) as [a E].
      exists a. rewrite <- E. rewrite str_app_assoc. reflexivity.
Qed.

(** A path that does not end with a slash ends with its base name. *)
Lemma basename_suffix f :
  Path.strip_trailing_slashes f = f -> endsWith f (Path.basename f) = true.
Proof.
  intros E. unfold Path.basename. rewrite E.
  destruct (after_last_slash_suffix f "") as [a H]. cbn in H.
  rewrite H at 1. apply endsWith_app.
Qed.

(** What the filter of the copy-back does ensure: [runScript] writes a host
    file only in its copy-back, and only at a listed path that begins with
    the text of [workDir] and does not end with the base name of the
    script; so the script itself, given by a path that does not end with a
    slash, is never written. *)
Lemma copy_back_respects_filter oracle clock f w o s :
  exists added,
    log (snd (runScript oracle clock f w o s)) = log s ++ added
    /\ forall p c, In (FsWrite p c) added ->
         startsWith p w = true
         /\ endsWith p (Path.basename f) = false
         /\ (Path.strip_trailing_slashes f = f -> p <> f).
Proof.
  destruct (runScript_spec oracle clock f w o s) as [_ [_ [[added [L F]] _]]].
  exists added. split; [exact L|].
  intros p c I. rewrite Forall_forall in F. specialize (F _ I). cbn in F.
  destruct F as [_ [F1 F2]]. repeat split; auto.
  intros E Hp. subst p. rewrite (basename_suffix f E) in F2. discriminate.
Qed.

(** In the world of [sibling_listing] the script is listed and is not
    written. *)
Lemma listed_script_not_written :
  ~ In (FsWrite "/tmp/w/job.js" "aGk=")
       (log (snd (runScript sibling_listing ticks "/tmp/w/job.js" "/tmp/w" None
                    (initial_state loaded_globals)))).
Proof.
  destruct (copy_back_respects_filter sibling_listing ticks "/tmp/w/job.js" "/tmp/w" None
              (initial_state loaded_globals)) as [added [L W]].
  cbn [log initial_state app] in L. rewrite L. intros I.
  destruct (W _ _ I) as [_ [_ N]]. apply N; reflexivity.
Qed.

(** C10. The copy-back is meant to write only inside [workDir] ("filter
    only file paths", "lines starting with workDir"), but its test is
    [f.startsWith(workDir)] on the text of the listed line, without a
    separator after [workDir] and without resolving the path.  A listed
    file of the sibling directory [/tmp/w2] passes the filter for the work
    directory [/tmp/w] and is written on the host, and so is a listed path
    that leaves [/tmp/w] through [..]: both writes are outside [workDir].
    The second half of the claim holds: a path that ends with the base name
    of the script is never written. *)
Theorem copy_back_writes_sibling_directory :
  log (snd (runScript sibling_listing ticks "/tmp/w/job.js" "/tmp/w" None
              (initial_state loaded_globals)))
  = [BoxNew 0 ByProvider SimpleBoxNpm
       (box_options
          (set_volumes
             [{| hostPath := "/tmp/w"; guestPath := "/tmp/w"; readOnly := Some false |}]
             new_BoxLiteProvider)
          "node:18-alpine");
     BoxExec 0 "echo" ["Box ready"];
     BoxExec 0 "sh" ["-c"; script_command "/tmp/w" "node" "/tmp/w/job.js" ""];
     BoxExec 0 "sh" ["-c"; list_command "/tmp/w"];
     BoxExec 0 "sh" ["-c"; base64_command "/tmp/w/out.txt"];
     FsExists "/tmp/w";
     FsWrite "/tmp/w/out.txt" "aGk=";
     BoxExec 0 "sh" ["-c"; base64_command "/tmp/w2/out.txt"];
     FsExists "/tmp/w2";
     FsWrite "/tmp/w2/out.txt" "aGk="]
  /\ startsWith "/tmp/w2/out.txt" "/tmp/w/" = false
  /\ log (snd (runScript dotdot_listing ticks "/tmp/w/job.js" "/tmp/w" None
                 (initial_state loaded_globals)))
     = [BoxNew 0 ByProvider SimpleBoxNpm
          (box_options
             (set_volumes
                [{| hostPath := "/tmp/w"; guestPath := "/tmp/w"; readOnly := Some false |}]
                new_BoxLiteProvider)
             "node:18-alpine");
        BoxExec 0 "echo" ["Box ready"];
        BoxExec 0 "sh" ["-c"; script_command "/tmp/w" "node" "/tmp/w/job.js" ""];
        BoxExec 0 "sh" ["-c"; list_command "/tmp/w"];
        BoxExec 0 "sh" ["-c"; base64_command "/tmp/w/../keys/id"];
        FsExists "/tmp/w/../keys";
        FsWrite "/tmp/w/../keys/id" "aGk="]
  /\ Path.normalize "/tmp/w/../keys/id" = "/tmp/keys/id"
  /\ (forall oracle clock f w o s p c,
        In (FsWrite p c) (log (snd (runScript oracle clock f w o s))) ->
        In (FsWrite p c) (log s) \/ endsWith p (Path.basename f) = false).
Proof.
  split; [reflexivity|]. split; [reflexivity|]. split; [reflexivity|].
  split; [reflexivity|].
  intros oracle clock f w o s p c I.
  destruct (copy_back_respects_filter oracle clock f w o s) as [added [L W]].
  rewrite L in I. apply in_app_or in I. destruct I as [I|I]; [now left | right].
  now apply (W p c I).
Qed.

End CopyBack.

(* ================================================================== *)
(** ** Further properties of the code *)
(* ================================================================== *)

Module CodexLookup.
Import Codex CodexInv CodexFacts CodexMore StringFacts Samples.

Lemma find_some_exists (h : Host) l p : find (existsSync h) l = Some p -> existsSync h p = true.
Proof. intros H. now apply find_some in H. Qed.

Lemma getCodexPath_cases (h : Host) :
  getCodexPath h =
  if env_path_usable h then CODEX_PATH h
  else if which_usable h then which_path h
  else match first_existing h (commonPaths h) with
       | Some p => Some p
       | None => match getBundledCodexPath h with
                 | Some p => if truthy p then Some p else None
                 | None => None
                 end
       end.
Proof.
  unfold getCodexPath, env_path_usable, which_usable, which_path, first_existing.
  destruct (CODEX_PATH h) as [p|]; [destruct (truthy p && existsSync h p); [reflexivity|]|];
    (destruct (which_codex h) as [out|e]; [|reflexivity];
     destruct (truthy _ && existsSync h _); reflexivity).
Qed.

Lemma commonPaths_nonempty (h : Host) p : In p (commonPaths h) -> p <> "".
Proof.
  unfold commonPaths. destruct (platform h =? "win32"); cbn; intros I.
  - destruct I as [I|[]]. subst. discriminate.
  - destruct I as [I|[I|[I|[]]]]; subst; discriminate.
Qed.

(** X1. A path found by [getCodexPath] is never empty and always names a
    file that exists on the host; so when [isAvailable] answers [true], the
    provider holds such a path and [exec] starts by spawning exactly that
    file, instead of reporting that codex is missing: in every run in which
    [process.cwd()], if it is called at all, does not throw, whether or not
    the [spawn] itself succeeds and whatever the child does. *)
Theorem found_codex_exists_and_is_spawned (h : Host) :
  (forall p, getCodexPath h = Some p -> p <> "" /\ existsSync h p = true)
  /\ (forall this,
        fst (isAvailable h this) = true ->
        exists p,
          codexPath (snd (isAvailable h this)) = Some p
          /\ existsSync h p = true
          /\ no_codex (snd (isAvailable h this)) = false
          /\ forall o w,
               (calls_process_cwd o = true -> cwd_error w = None) ->
               exists argv wd rest,
                 snd (Codex.exec h (snd (isAvailable h this)) o w)
                 = Spawn p argv wd :: rest).
Proof.
  assert (S : forall p, getCodexPath h = Some p -> p <> "" /\ existsSync h p = true).
  { intros p. rewrite getCodexPath_cases.
    unfold env_path_usable, which_usable, first_existing, getBundledCodexPath.
    destruct (CODEX_PATH h) as [q|] eqn:C.
    - destruct (truthy q && existsSync h q) eqn:U.
      + intros E. inversion E; subst. apply andb_true_iff in U. destruct U as [U1 U2].
        split; [now apply truthy_true | assumption].
      + destruct (which_path h) as [w|] eqn:W.
        * destruct (truthy w && existsSync h w) eqn:U2.
          -- intros E. inversion E; subst. apply andb_true_iff in U2. destruct U2.
             split; [now apply truthy_true | assumption].
          -- destruct (find (existsSync h) (commonPaths h)) as [c|] eqn:F.
             ++ intros E. inversion E; subst. apply find_some in F. destruct F.
                split; [eapply commonPaths_nonempty; eauto | assumption].
             ++ destruct (find (existsSync h) (bundledPaths h)) as [b|] eqn:B; [|discriminate].
                destruct (truthy b) eqn:T; [|discriminate].
                intros E. inversion E; subst. apply find_some in B. destruct B.
                split; [now apply truthy_true | assumption].
        * destruct (find (existsSync h) (commonPaths h)) as [c|] eqn:F.
          -- intros E. inversion E; subst. apply find_some in F. destruct F.
             split; [eapply commonPaths_nonempty; eauto | assumption].
          -- destruct (find (existsSync h) (bundledPaths h)) as [b|] eqn:B; [|discriminate].
             destruct (truthy b) eqn:T; [|discriminate].
             intros E. inversion E; subst. apply find_some in B. destruct B.
             split; [now apply truthy_true | assumption].
    - destruct (which_path h) as [w|] eqn:W.
      + destruct (truthy w && existsSync h w) eqn:U2.
        * intros E. inversion E; subst. apply andb_true_iff in U2. destruct U2.
          split; [now apply truthy_true | assumption].
        * destruct (find (existsSync h) (commonPaths h)) as [c|] eqn:F.
          -- intros E. inversion E; subst. apply find_some in F. destruct F.
             split; [eapply commonPaths_nonempty; eauto | assumption].
          -- destruct (find (existsSync h) (bundledPaths h)) as [b|] eqn:B; [|discriminate].
             destruct (truthy b) eqn:T; [|discriminate].
             intros E. inversion E; subst. apply find_some in B. destruct B.
             split; [now apply truthy_true | assumption].
      + destruct (find (existsSync h) (commonPaths h)) as [c|] eqn:F.
        * intros E. inversion E; subst. apply find_some in F. destruct F.
          split; [eapply commonPaths_nonempty; eauto | assumption].
        * destruct (find (existsSync h) (bundledPaths h)) as [b|] eqn:B; [|discriminate].
          destruct (truthy b) eqn:T; [|discriminate].
          intros E. inversion E; subst. apply find_some in B. destruct B.
          split; [now apply truthy_true | assumption]. }
  split; [exact S|].
  intros this Ha. unfold isAvailable in *. cbn [fst snd] in *.
  destruct (getCodexPath h) as [p|] eqn:G; [|discriminate].
  destruct (S p eq_refl) as [Ne Ex].
  assert (T : truthy p = true) by now apply truthy_true.
  exists p. repeat split; auto.
  - unfold no_codex. cbn. now rewrite T.
  - intros o w Hc.
    destruct (exec_spawns h (set_codexPath (Some p) this) o w) as [extra E]; [|exact Hc|].
    + unfold no_codex. cbn. now rewrite T.
    + rewrite E. unfold exec_spawn. cbn [set_codexPath codexPath or_str]. rewrite T. eauto.
Qed.

Lemma found_codex_exists_and_is_spawned_witness :
  exists p,
    codexPath (snd (isAvailable codex_host new_CodexProvider)) = Some p
    /\ existsSync codex_host p = true.
Proof.
  destruct (proj2 (found_codex_exists_and_is_spawned codex_host) new_CodexProvider eq_refl)
    as [p [E [X _]]].
  exists p. split; assumption.
Defined.

(** X2. The order of the lookup: a usable [CODEX_PATH] wins over
    everything; otherwise the path printed by which/where, when it exists;
    otherwise the first existing common install location; the bundled
    launcher comes last.  Nothing is found exactly when none of these
    yields a path. *)
Theorem codex_lookup_priority (h : Host) :
  (forall p, CODEX_PATH h = Some p -> p <> "" -> existsSync h p = true ->
             getCodexPath h = Some p)
  /\ (env_path_usable h = false ->
      forall p, which_path h = Some p -> p <> "" -> existsSync h p = true ->
                getCodexPath h = Some p)
  /\ (env_path_usable h = false -> which_usable h = false ->
      forall p, first_existing h (commonPaths h) = Some p -> getCodexPath h = Some p)
  /\ (env_path_usable h = false -> which_usable h = false ->
      first_existing h (commonPaths h) = None ->
      forall p, getBundledCodexPath h = Some p -> p <> "" -> getCodexPath h = Some p)
  /\ (getCodexPath h = None <->
      env_path_usable h = false /\ which_usable h = false
      /\ first_existing h (commonPaths h) = None
      /\ (getBundledCodexPath h = None \/ getBundledCodexPath h = Some "")).
Proof.
  rewrite getCodexPath_cases.
  split; [|split; [|split; [|split]]].
  - intros p C Ne Ex. unfold env_path_usable. rewrite C, Ex.
    assert (T : truthy p = true) by now apply truthy_true. now rewrite T.
  - intros U p W Ne Ex. rewrite U. unfold which_usable. rewrite W, Ex.
    assert (T : truthy p = true) by now apply truthy_true. now rewrite T.
  - intros U W p F. now rewrite U, W, F.
  - intros U W F p B Ne. rewrite U, W, F, B.
    assert (T : truthy p = true) by now apply truthy_true. now rewrite T.
  - split.
    + destruct (env_path_usable h) eqn:U.
      * unfold env_path_usable in U. destruct (CODEX_PATH h); discriminate.
      * destruct (which_usable h) eqn:W.
        -- unfold which_usable in W. destruct (which_path h); discriminate.
        -- destruct (first_existing h (commonPaths h)); [discriminate|].
           destruct (getBundledCodexPath h) as [b|]; [|auto].
           destruct (truthy b) eqn:T; [discriminate|].
           apply truthy_false in T. subst. auto.
    + intros [U [W [F B]]]. rewrite U, W, F.
      destruct B as [B|B]; rewrite B; reflexivity.
Qed.

(** On a host where which finds codex and CODEX_PATH names another
    existing file, CODEX_PATH is the one that is used. *)
Lemma codex_lookup_priority_witness :
  getCodexPath
    {| platform := "linux"; CODEX_PATH := Some "/opt/codex/bin/codex";
       existsSync := fun _ => true;
       which_codex := Ok "/usr/local/bin/codex";
       homedir := "/home/u"; path_join_parts := posix_join_parts;
       bundledPaths := []; process_cwd := "/";
       clock := fun _ => 0%Z |}
  = Some "/opt/codex/bin/codex".
Proof.
  apply (proj1 (codex_lookup_priority _)); [reflexivity | discriminate | reflexivity].
Defined.

End CodexLookup.

Module CodexProcess.
Import Codex CodexInv CodexFacts CodexMore StringFacts Samples.



(** Without a timer the listeners perform no effect at all. *)
Lemma no_timer_no_effect dur tr : forall l,
  timeoutId l = false -> pending l = false ->
  effects (run_listeners dur l tr) = effects l.
Proof.
  unfold run_listeners.
  induction tr as [|ev tr IH]; intros l T P; simpl; auto.
  rewrite IH.
  - destruct ev; simpl; auto.
    + now rewrite P.
    + unfold clear. now rewrite T.
    + unfold clear. now rewrite T.
  - destruct ev; simpl; auto. now rewrite P.
  - destruct ev; simpl; auto. now rewrite P.
Qed.



(** X4. [exec] arms a timer only for a timeout that is present and not 0:
    without one, and unless [process.cwd()] throws before it, the spawn is
    the only effect, whether it succeeds or not and for every behaviour of
    the child, which is never killed.  [runScript] arms a timer as soon as
    the child is spawned, of 120000 ms when the timeout is missing or 0. *)
Theorem timer_only_with_timeout h this :
  no_codex this = false ->
  (forall o w,
      timeout o = None \/ timeout o = Some 0%Z ->
      (calls_process_cwd o = true -> cwd_error w = None) ->
      exists argv wd,
        snd (Codex.exec h this o w) = [Spawn (or_str (codexPath this) "") argv wd])
  /\ (forall f w o world,
        spawn_error world = None ->
        exists argv rest,
          snd (Codex.runScript h this f w o (Ok "") world)
          = (if (0 <? length (option_list o packages))%nat
             then [ExecSync
                     ((if snd (select_runtime f) then "pip install " else "npm install ")
                      ++ join " " (option_list o packages))%string w]
             else [])
            ++ Spawn (or_str (codexPath this) "") argv w
               :: SetTimeout
                    (match o with
                     | Some x => match so_timeout x with
                                 | Some t => if (t =? 0)%Z then 120000%Z else t
                                 | None => 120000%Z
                                 end
                     | None => 120000%Z
                     end)
               :: rest).
Proof.
  intros Hn. split.
  - intros o w Ht Hc. unfold Codex.exec. rewrite Hn.
    assert (C : (if calls_process_cwd o then cwd_error w else None) = None).
    { destruct (calls_process_cwd o); [now apply Hc | reflexivity]. }
    rewrite C. unfold exec_spawn.
    destruct (spawn_error w); cbn [snd]; [eauto|].
    assert (A : match timeout o with Some t => negb (t =? 0)%Z | None => false end = false).
    { destruct Ht as [Ht|Ht]; rewrite Ht; reflexivity. }
    rewrite no_timer_no_effect; unfold exec_start; cbn [timeoutId pending effects];
      rewrite ?A; try reflexivity.
    unfold exec_spawn. eauto.
  - intros f w o world Hs.
    destruct (RunScript.codex_runScript_effects h this f w o (Ok "") world Hn) as [_ Run].
    destruct Run as [extra0 [E [_ X]]]; [eauto|].
    destruct (X Hs) as [extra [-> _]].
    rewrite E. unfold script_install, script_spawn.
    assert (T : or_num (match o with Some x => so_timeout x | None => None end) 120000
                = match o with
                  | Some x => match so_timeout x with
                              | Some t => if (t =? 0)%Z then 120000%Z else t
                              | None => 120000%Z
                              end
                  | None => 120000%Z
                  end).
    { unfold or_num. destruct o as [x|]; [|reflexivity].
      destruct (so_timeout x); reflexivity. }
    rewrite T. do 2 eexists. cbn [app]. reflexivity.
Qed.

(** A command without a timeout whose child never ends on its own. *)
Lemma timer_only_with_timeout_witness :
  exists argv wd,
    snd (Codex.exec codex_host codex_ready echo_hi
           (runs [OnStdout "hi"; TimerFires; TimerFires]))
    = [Spawn "/usr/local/bin/codex" argv wd].
Proof.
  apply (proj1 (timer_only_with_timeout codex_host codex_ready eq_refl)).
  - left. reflexivity.
  - reflexivity.
Defined.

End CodexProcess.

Module BaseProviderFacts.
Import BaseProvider StringFacts.











Lemma lower_dot (x : string) :
  toLowerCase ("." ++ x)%string = String "." (toLowerCase x).
Proof. reflexivity. Qed.

(** X6. Every runtime that [detectRuntime] or the switch of
    [BoxLiteProvider.runScript] can choose is one of the runtimes the
    BoxLite provider declares, and is paired with the image that
    [SANDBOX_IMAGES] lists for it; a file with an unknown extension, or
    with none, gets node.  The two ways of reading the extension agree on
    every path whose [path.extname] is the dot followed by the text after
    the last dot. *)
Theorem runtime_and_image_consistent (filePath : string) :
  SANDBOX_IMAGES (fst (Plugin.detectRuntime filePath))
  = Some (snd (Plugin.detectRuntime filePath))
  /\ In (fst (Plugin.detectRuntime filePath))
        (cap_supportedRuntimes BoxLite.getCapabilities)
  /\ SANDBOX_IMAGES (snd (BoxLite.select_runtime filePath))
     = Some (fst (BoxLite.select_runtime filePath))
  /\ In (snd (BoxLite.select_runtime filePath))
        (cap_supportedRuntimes BoxLite.getCapabilities)
  /\ (toLowerCase (Path.extname filePath) <> ".py" ->
      toLowerCase (Path.extname filePath) <> ".ts" ->
      toLowerCase (Path.extname filePath) <> ".mts" ->
      BoxLite.select_runtime filePath = ("node:18-alpine", "node"))
  /\ (Path.extname filePath = ("." ++ Plugin.last_piece filePath)%string ->
      Plugin.detectRuntime filePath
      = (snd (BoxLite.select_runtime filePath), fst (BoxLite.select_runtime filePath))).
Proof.
  repeat match goal with |- _ /\ _ => split end.
  - unfold Plugin.detectRuntime.
    destruct (toLowerCase (Plugin.last_piece filePath) =? "py"); [reflexivity|].
    destruct ((_ =? "ts") || (_ =? "mts")); reflexivity.
  - unfold Plugin.detectRuntime.
    destruct (toLowerCase (Plugin.last_piece filePath) =? "py"); [cbn; auto|].
    destruct ((_ =? "ts") || (_ =? "mts")); cbn; auto.
  - unfold BoxLite.select_runtime.
    destruct (toLowerCase (Path.extname filePath) =? ".py"); [reflexivity|].
    destruct ((_ =? ".ts") || (_ =? ".mts")); [reflexivity|].
    destruct ((_ =? ".js") || (_ =? ".mjs")); reflexivity.
  - unfold BoxLite.select_runtime.
    destruct (toLowerCase (Path.extname filePath) =? ".py"); [cbn; auto|].
    destruct ((_ =? ".ts") || (_ =? ".mts")); [cbn; auto|].
    destruct ((_ =? ".js") || (_ =? ".mjs")); cbn; auto.
  - intros N1 N2 N3. unfold BoxLite.select_runtime.
    apply String.eqb_neq in N1, N2, N3. rewrite N1, N2, N3. cbn.
    destruct ((_ =? ".js") || (_ =? ".mjs")); reflexivity.
  - intros E. unfold Plugin.detectRuntime, BoxLite.select_runtime.
    rewrite E, lower_dot.
    set (x := toLowerCase (Plugin.last_piece filePath)).
    cbn [String.eqb Ascii.eqb Bool.eqb].
    destruct (x =? "py"); [reflexivity|].
    destruct ((x =? "ts") || (x =? "mts")); [reflexivity|].
    destruct ((x =? "js") || (x =? "mjs")); reflexivity.
Qed.

Lemma runtime_and_image_consistent_witness :
  Plugin.detectRuntime "/tmp/session/App.MTS"
  = (snd (BoxLite.select_runtime "/tmp/session/App.MTS"),
     fst (BoxLite.select_runtime "/tmp/session/App.MTS")).
Proof.
  apply (proj2 (proj2 (proj2 (proj2 (proj2
           (runtime_and_image_consistent "/tmp/session/App.MTS")))))).
  reflexivity.
Defined.

End BaseProviderFacts.

Module BoxLiteMoreFacts.
Import BoxLite BoxLiteInv BoxLiteFacts StringFacts Samples.

Section More.
Variable oracle : nat -> Answer.
Variable clock : nat -> Z.

Lemma merge_config_idem old new :
  merge_config (merge_config old new) new = merge_config old new.
Proof.
  unfold merge_config, over. cbn.
  destruct (memoryMib new), (cpus new), (workDir new), (autoRemove new); reflexivity.
Qed.

Lemma init_this cfg s : this (snd (init oracle cfg s)) = merged cfg (this s).
Proof.
  rewrite init_unfold. cbv zeta.
  set (s0 := {| globals := globals s; this := merged cfg (this s); log := log s |}).
  destruct (isAvailable_spec oracle s0) as [_ [T _]].
  destruct (isAvailable oracle s0) as [[[|]|e] s1]; exact T.
Qed.

(** X7. [init] changes nothing of the provider but its configuration: the
    keys given override the stored ones, the others are kept, the box, the
    volumes and the current image stay.  The configuration is merged
    before availability is checked, so it is stored also when [init]
    throws; and a second [init] with the same configuration leaves the
    provider as the first one did. *)
Theorem init_merges_config cfg s :
  box (this (snd (init oracle cfg s))) = box (this s)
  /\ volumes (this (snd (init oracle cfg s))) = volumes (this s)
  /\ currentImage (this (snd (init oracle cfg s))) = currentImage (this s)
  /\ (cfg = None -> config (this (snd (init oracle cfg s))) = config (this s))
  /\ (forall c, cfg = Some c ->
        config (this (snd (init oracle cfg s))) = merge_config (config (this s)) c)
  /\ this (snd (init oracle cfg (snd (init oracle cfg s))))
     = this (snd (init oracle cfg s)).
Proof.
  rewrite !init_this.
  destruct cfg as [c|]; cbn; repeat split; try reflexivity; try (intros; discriminate);
    try (intros c0 E; inversion E; subst; reflexivity).
  unfold set_config. cbn. now rewrite merge_config_idem.
Qed.

End More.

(** Where nothing can be loaded [init] throws, and the memory limit it was
    given is stored all the same. *)
Lemma init_merges_config_witness :
  config (this (snd (init (script [absent; throws "Cannot find package"])
                       (Some {| memoryMib := Some 2048%Z; cpus := None;
                                workDir := None; autoRemove := None |})
                       (initial_state initial_globals))))
  = merge_config (config new_BoxLiteProvider)
      {| memoryMib := Some 2048%Z; cpus := None; workDir := None; autoRemove := None |}.
Proof.
  exact (proj1 (proj2 (proj2 (proj2 (proj2
           (init_merges_config (script [absent; throws "Cannot find package"])
              (Some {| memoryMib := Some 2048%Z; cpus := None;
                       workDir := None; autoRemove := None |})
              (initial_state initial_globals)))))) _ eq_refl).
Defined.

End BoxLiteMoreFacts.

Module BoxLiteReuse.
Import BoxLite BoxLiteInv BoxLiteFacts BoxLiteMore BoxLiteMoreFacts StringFacts Samples.

Section Reuse.
Variable oracle : nat -> Answer.
Variable clock : nat -> Z.

Lemma getOrCreateBox_reuse image s b :
  box (this s) = Some b -> currentImage (this s) = image ->
  getOrCreateBox oracle image s = (Ok b, s).
Proof.
  intros B I. unfold getOrCreateBox. unfold_m. cbn.
  rewrite B, I, String.eqb_refl. reflexivity.
Qed.

Lemma getOrCreateBox_image image s :
  let r := getOrCreateBox oracle image s in
  (currentImage (this (snd r)) = image \/ currentImage (this (snd r)) = currentImage (this s))
  /\ (box (this (snd r)) <> None ->
      box (this s) <> None \/ SimpleBox (globals s) <> None)
  /\ adds (creates_with (volumes (this s))) s (snd r).
Proof.
  unfold getOrCreateBox. unfold_m. cbn.
  repeat (break_match; cbn).
  all: repeat match goal with |- _ /\ _ => split end.
  all: try (left; reflexivity); try (right; reflexivity).
  all: try (intros; first [left; congruence | right; congruence]).
  all: try apply adds_refl.
  all: unfold adds; cbn [log]; repeat rewrite <- app_assoc;
    eexists; (split; [reflexivity | repeat constructor; cbn; auto]).
Qed.

Lemma targetImage_truthy o t : truthy (exec_targetImage o t) = true.
Proof.
  unfold exec_targetImage, or_str.
  destruct (image o) as [i|].
  - destruct (truthy i) eqn:T; auto. destruct (truthy (currentImage t)) eqn:C; auto.
  - destruct (truthy (currentImage t)) eqn:C; auto.
Qed.

(** Where [exec] leaves the provider: as [getOrCreateBox] left it. *)
Lemma exec_this o s :
  this (snd (exec oracle clock o s))
  = this (snd (getOrCreateBox oracle (exec_targetImage o (this s)) s)).
Proof.
  unfold exec, exec_try, exec_catch. unfold_m. cbn.
  destruct (getOrCreateBox oracle (exec_targetImage o (this s)) s) as [[b|e] s1]; cbn.
  - destruct (a_throw (oracle (length (log s1)))); reflexivity.
  - reflexivity.
Qed.

Lemma select_runtime_truthy f : truthy (fst (BoxLite.select_runtime f)) = true.
Proof.
  unfold BoxLite.select_runtime.
  repeat match goal with |- context [if ?c then _ else _] => destruct c end; reflexivity.
Qed.

Lemma getOrCreateBox_throw image s e :
  fst (getOrCreateBox oracle image s) = Throw e ->
  e = Error "BoxLite is not loaded" \/ e = Error "Native module not loaded"
  \/ exists l ev, log (snd (getOrCreateBox oracle image s)) = l ++ [ev]
                  /\ a_throw (oracle (length l)) = Some e.
Proof.
  unfold getOrCreateBox. unfold_m. cbn.
  repeat (break_match; cbn).
  all: intros E; try discriminate E; inversion E; subst.
  all: try (left; reflexivity); try (right; left; reflexivity).
  all: right; right; eexists; eexists; split; [reflexivity | assumption].
Qed.

Lemma setup_not_fs e : setup_event e -> is_fs e = false.
Proof. destruct e; simpl; tauto. Qed.

Lemma sync_files_this b files s : this (snd (sync_files oracle b files s)) = this s.
Proof. apply sync_files_spec. Qed.

Lemma install_packages_throw b w rt pkgs s e :
  fst (install_packages oracle b w rt pkgs s) = Throw e ->
  log (snd (install_packages oracle b w rt pkgs s))
  = log s ++ [BoxExec b "sh" ["-c"; install_command w pkgs]]
  /\ a_throw (oracle (length (log s))) = Some e.
Proof.
  unfold install_packages. unfold_m.
  destruct (installs rt pkgs); cbn; [|discriminate].
  destruct (a_throw (oracle (length (log s)))) eqn:A; cbn; [|discriminate].
  intros E. inversion E; subst. auto.
Qed.

Lemma install_events_length b w rt pkgs :
  length (install_events b w rt pkgs) = install_count rt pkgs.
Proof. unfold install_events, install_count. destruct (installs rt pkgs); reflexivity. Qed.

(** [runScript], step by step: what it leaves in the provider, what it
    returns and what it throws. *)
Lemma runScript_more f w o s :
  let r := runScript oracle clock f w o s in
  let rt := snd (BoxLite.select_runtime f) in
  let n := length (log s) + length (stop_events s) + 2
           + install_count rt (option_list o packages) in
  volumes (this (snd r)) = [workDir_mount w]
  /\ config (this (snd r)) = config (this s)
  /\ adds (creates_with [workDir_mount w]) s (snd r)
  /\ (box (this (snd r)) <> None -> SimpleBox (globals s) <> None)
  /\ (truthy (currentImage (this s)) = true ->
      truthy (currentImage (this (snd r))) = true)
  /\ (forall res, fst r = Ok res ->
      a_throw (oracle n) = None
      /\ res = {| stdout := a_stdout (oracle n); stderr := a_stderr (oracle n);
                  exitCode := a_exitCode (oracle n);
                  duration := (clock (length (log (snd r))) - clock n)%Z |})
  /\ (forall e, fst r = Throw e ->
      adds (fun ev => is_fs ev = false) s (snd r)
      /\ (e = Error "BoxLite is not loaded" \/ e = Error "Native module not loaded"
          \/ exists l ev, log (snd r) = l ++ [ev] /\ a_throw (oracle (length l)) = Some e)).
Proof.
  unfold runScript, setVolumes. unfold_m. cbn.
  set (s1 := {| globals := globals s; this := set_volumes _ (this s); log := log s |}).
  pose proof (stop_spec oracle s1) as St.
  destruct (stop oracle s1) as [r1 s2]. cbn in St.
  destruct St as [St1 [St2 [St3 St4]]]. subst r1. cbn.
  assert (L2 : log s2 = log s ++ stop_events s) by exact St4.
  assert (A2 : adds (fun ev => is_fs ev = false) s s2).
  { exists (stop_events s). split; [exact L2|]. unfold stop_events.
    destruct (box (this s)); repeat constructor. }
  assert (C2 : adds (creates_with [workDir_mount w]) s s2).
  { exists (stop_events s). split; [exact L2|]. unfold stop_events.
    destruct (box (this s)); repeat constructor. }
  assert (B2 : box (this s2) = None) by (rewrite St3; reflexivity).
  assert (V2 : volumes (this s2) = [workDir_mount w]) by (rewrite St3; reflexivity).
  assert (K2 : config (this s2) = config (this s)) by (rewrite St3; reflexivity).
  assert (I2 : currentImage (this s2) = currentImage (this s)) by (rewrite St3; reflexivity).
  pose proof (getOrCreateBox_spec oracle (fst (BoxLite.select_runtime f)) s2) as G.
  pose proof (getOrCreateBox_image (fst (BoxLite.select_runtime f)) s2) as GI.
  pose proof (getOrCreateBox_throw (fst (BoxLite.select_runtime f)) s2) as GT.
  destruct (getOrCreateBox oracle (fst (BoxLite.select_runtime f)) s2) as [rb s3].
  cbn [fst snd] in G, GI, GT. destruct G as [G1 [G2 [G3 [G4 [G5 [G6 G7]]]]]].
  destruct GI as [GI1 [GI2 GI3]].
  assert (C3 : adds (creates_with [workDir_mount w]) s s3).
  { eapply adds_trans; [exact C2|]. rewrite <- V2. exact GI3. }
  assert (X3 : box (this s3) <> None -> SimpleBox (globals s) <> None).
  { intros N. destruct (GI2 N) as [N1|N1]; [congruence|]. now rewrite St2 in N1. }
  assert (T3 : truthy (currentImage (this s)) = true ->
               truthy (currentImage (this s3)) = true).
  { intros T. destruct GI1 as [E|E]; rewrite E.
    - apply select_runtime_truthy.
    - now rewrite I2. }
  destruct rb as [b|e]; cbn.
  2:{ repeat match goal with |- _ /\ _ => split end; try congruence; try assumption.
      - intros e0 E. inversion E; subst. split.
        + eapply adds_trans; [exact A2|].
          eapply adds_weaken; [apply setup_not_fs | exact G4].
        + now apply GT. }
  destruct (G7 B2 b eq_refl) as [cls L3].
  assert (A3 : adds (fun ev => is_fs ev = false) s s3).
  { eapply adds_trans; [exact A2|].
    eapply adds_weaken; [apply setup_not_fs | exact G4]. }
  pose proof (install_packages_spec oracle b w (snd (BoxLite.select_runtime f))
                (option_list o packages) s3) as P.
  pose proof (install_packages_throw b w (snd (BoxLite.select_runtime f))
                (option_list o packages) s3) as PT.
  destruct (install_packages oracle b w (snd (BoxLite.select_runtime f))
              (option_list o packages) s3)
    as [[u|e] s4]; cbn in P, PT |- *; destruct P as [P1 [P2 [P3 [P4 P5]]]].
  2:{ destruct (PT e eq_refl) as [PT1 PT2].
      repeat match goal with |- _ /\ _ => split end; try congruence;
        try (rewrite P2; assumption).
      - eapply adds_trans; [exact C3|]. eapply adds_weaken; [|exact P3].
        intros e0 [c [a E]]. subst. exact I.
      - intros e0 E. inversion E; subst. split.
        + eapply adds_trans; [exact A3|]. eapply adds_weaken; [|exact P3].
          intros e1 [c [a E1]]. subst. reflexivity.
        + right; right. eexists; eexists; split; [exact PT1 | exact PT2]. }
  rewrite (P5 u eq_refl) in P4. specialize (P4 eq_refl).
  assert (C4 : adds (creates_with [workDir_mount w]) s s4).
  { eapply adds_trans; [exact C3|]. eapply adds_weaken; [|exact P3].
    intros e0 [c [a E]]. subst. exact I. }
  assert (A4 : adds (fun ev => is_fs ev = false) s s4).
  { eapply adds_trans; [exact A3|]. eapply adds_weaken; [|exact P3].
    intros e1 [c [a E1]]. subst. reflexivity. }
  assert (N4 : length (log s4)
               = length (log s) + length (stop_events s) + 2
                 + install_count (snd (BoxLite.select_runtime f)) (option_list o packages)).
  { rewrite P4, L3, L2. repeat rewrite length_app. rewrite install_events_length.
    cbn [length]. lia. }
  destruct (a_throw (oracle (length (log s4)))) eqn:TH; cbn.
  { repeat match goal with |- _ /\ _ => split end; try congruence;
      try (rewrite P2; assumption).
    - eapply adds_trans; [exact C4|]. snoc_one.
    - intros e0 E. inversion E; subst. split.
      + eapply adds_trans; [exact A4|]. snoc_one.
      + right; right. eexists; eexists; split; [reflexivity | exact TH]. }
  match goal with
  | |- context [sync_back oracle b w ?sb ?s0] =>
      pose proof (sync_back_spec oracle b w sb s0) as Y;
      destruct (sync_back oracle b w sb s0) as [r5 s5]
  end.
  cbn [fst snd] in Y |- *. destruct Y as [Y1 [Y2 [Y3 Y4]]]. subst r5. cbn.
  cbn [this] in Y3.
  repeat match goal with |- _ /\ _ => split end; try congruence;
    try (rewrite Y3, P2; assumption).
  - eapply adds_trans; [exact C4|]. eapply adds_trans; cycle 1.
    + eapply adds_weaken; [|exact Y4].
      intros e0. destruct e0 as [| |? []| []| | | | |]; simpl; tauto.
    + snoc_one.
  - intros res E. rewrite <- N4. split; [exact TH|]. inversion E; subst. reflexivity.
Qed.

Lemma image_ok_op s op :
  truthy (currentImage (this s)) = true ->
  truthy (currentImage (this (run_op oracle clock s op))) = true.
Proof.
  intros T. destruct op; cbn [run_op].
  - rewrite init_this. destruct cfg; exact T.
  - destruct (isAvailable_spec oracle s) as [_ [E _]]. now rewrite E.
  - rewrite exec_this.
    destruct (getOrCreateBox_image (exec_targetImage options (this s)) s) as [[E|E] _];
      rewrite E; [apply targetImage_truthy | exact T].
  - now apply runScript_more.
  - exact T.
  - destruct (stop_spec oracle s) as [_ [_ [E _]]]. now rewrite E.
  - unfold shutdown. destruct (stop_spec oracle s) as [_ [_ [E _]]]. now rewrite E.
Qed.

Lemma image_ok_ops ops : forall s,
  truthy (currentImage (this s)) = true ->
  truthy (currentImage (this (run_ops oracle clock ops s))) = true.
Proof.
  unfold run_ops. induction ops as [|op ops IH]; intros s T; cbn; auto.
  apply IH. now apply image_ok_op.
Qed.

Lemma reached_image ops g :
  truthy (currentImage (this (reached oracle clock ops g))) = true.
Proof. apply image_ok_ops. reflexivity. Qed.

(** X8. In every state that a fresh provider can reach, [exec] with
    no [image] option (or with the image of the box that is held) reuses
    the box: it creates and stops nothing, runs exactly one command, the
    [cd]-prefixed command line, in that box, leaves the provider as it was
    and, when the command returns, hands back the box's output and exit
    code unchanged, non-zero codes included. *)
Theorem exec_reuses_box ops g o b :
  box (this (reached oracle clock ops g)) = Some b ->
  (image o = None \/ image o = Some (currentImage (this (reached oracle clock ops g)))) ->
  log (snd (exec oracle clock o (reached oracle clock ops g)))
  = log (reached oracle clock ops g)
    ++ [BoxExec b "sh"
          ["-c"; fullCommand o (exec_workDir o (this (reached oracle clock ops g)))]]
  /\ this (snd (exec oracle clock o (reached oracle clock ops g)))
     = this (reached oracle clock ops g)
  /\ globals (snd (exec oracle clock o (reached oracle clock ops g)))
     = globals (reached oracle clock ops g)
  /\ (a_throw (oracle (length (log (reached oracle clock ops g)))) = None ->
      exists d,
        fst (exec oracle clock o (reached oracle clock ops g))
        = Ok {| stdout := a_stdout (oracle (length (log (reached oracle clock ops g))));
                stderr := a_stderr (oracle (length (log (reached oracle clock ops g))));
                exitCode := a_exitCode (oracle (length (log (reached oracle clock ops g))));
                duration := d |}).
Proof.
  pose proof (reached_image ops g) as T.
  set (s := reached oracle clock ops g) in *.
  intros B I.
  assert (E : exec_targetImage o (this s) = currentImage (this s)).
  { unfold exec_targetImage. rewrite T.
    destruct I as [I|I]; rewrite I; cbn; [reflexivity | now rewrite T]. }
  unfold exec, exec_try, exec_catch. unfold_m. cbn.
  rewrite E, (getOrCreateBox_reuse (currentImage (this s)) s b B eq_refl). cbn.
  destruct (a_throw (oracle (length (log s)))); cbn; repeat split; try reflexivity.
  - intros; discriminate.
  - intros _. eexists. reflexivity.
Qed.

Lemma exec_unloaded o s :
  box (this s) = None -> SimpleBox (globals s) = None ->
  snd (exec oracle clock o s) = s
  /\ exists d, fst (exec oracle clock o s)
       = Ok {| stdout := ""; stderr := "Error: BoxLite is not loaded";
               exitCode := 1; duration := d |}.
Proof.
  intros B G. unfold exec, exec_try, exec_catch, getOrCreateBox. unfold_m. cbn.
  rewrite B, G. cbn. split; [destruct s; reflexivity | eexists; reflexivity].
Qed.

Lemma runScript_unloaded f w so s :
  box (this s) = None -> SimpleBox (globals s) = None ->
  fst (runScript oracle clock f w so s) = Throw (Error "BoxLite is not loaded")
  /\ log (snd (runScript oracle clock f w so s)) = log s
  /\ globals (snd (runScript oracle clock f w so s)) = globals s
  /\ box (this (snd (runScript oracle clock f w so s))) = None.
Proof.
  intros B G. unfold runScript, setVolumes, stop, getOrCreateBox. unfold_m. cbn.
  repeat (first [rewrite B | rewrite G]; cbn). auto.
Qed.

Lemma unloaded_ops ops : forall s,
  forallb no_load ops = true ->
  box (this s) = None -> SimpleBox (globals s) = None ->
  log (run_ops oracle clock ops s) = log s
  /\ globals (run_ops oracle clock ops s) = globals s
  /\ box (this (run_ops oracle clock ops s)) = None.
Proof.
  unfold run_ops. induction ops as [|op ops IH]; intros s F B G; cbn; auto.
  cbn in F. apply andb_true_iff in F. destruct F as [F1 F2].
  assert (H : log (run_op oracle clock s op) = log s
              /\ globals (run_op oracle clock s op) = globals s
              /\ box (this (run_op oracle clock s op)) = None).
  { destruct op as [c| |o|f w so|v| |]; cbn [run_op]; try discriminate F1.
    - destruct (exec_unloaded o s B G) as [E _]. rewrite E. auto.
    - destruct (runScript_unloaded f w so s B G) as [_ H]. exact H.
    - cbn. auto.
    - destruct (stop_spec oracle s) as [_ [E1 [E2 E3]]]. rewrite E1, E2, E3, B.
      rewrite app_nil_r. auto.
    - unfold shutdown. destruct (stop_spec oracle s) as [_ [E1 [E2 E3]]].
      rewrite E1, E2, E3, B. rewrite app_nil_r. auto. }
  destruct H as [H1 [H2 H3]].
  destruct (IH (run_op oracle clock s op) F2 H3) as [I1 [I2 I3]]; [congruence|].
  repeat split; congruence.
Qed.

(** X9. Nothing but the availability check loads the BoxLite module:
    as long as neither [init] nor [isAvailable] has been called, whatever
    else is called on the provider reaches the outside world at no point
    (the effect log stays empty, the module variables stay as they were),
    [exec] answers with exit code 1 and the text of the error
    [BoxLite is not loaded], and [runScript] rejects with that error. *)
Theorem nothing_runs_before_availability_check ops g o f w so :
  forallb no_load ops = true ->
  SimpleBox g = None ->
  log (reached oracle clock ops g) = []
  /\ globals (reached oracle clock ops g) = g
  /\ (exists d, fst (exec oracle clock o (reached oracle clock ops g))
       = Ok {| stdout := ""; stderr := "Error: BoxLite is not loaded";
               exitCode := 1; duration := d |})
  /\ fst (runScript oracle clock f w so (reached oracle clock ops g))
     = Throw (Error "BoxLite is not loaded").
Proof.
  intros F G.
  destruct (unloaded_ops ops (initial_state g) F eq_refl G) as [H1 [H2 H3]].
  fold (reached oracle clock ops g) in H1, H2, H3. cbn in H1, H2.
  assert (G' : SimpleBox (globals (reached oracle clock ops g)) = None) by now rewrite H2.
  repeat split; auto.
  - apply (exec_unloaded o _ H3 G').
  - apply (runScript_unloaded f w so _ H3 G').
Qed.

End Reuse.

Lemma exec_reuses_box_witness :
  log (snd (exec calm ticks echo_hi
              (reached calm ticks [OpIsAvailable; OpExec echo_hi] initial_globals)))
  = log (reached calm ticks [OpIsAvailable; OpExec echo_hi] initial_globals)
    ++ [BoxExec 4 "sh" ["-c"; "cd /workspace && echo hi"]].
Proof.
  exact (proj1 (exec_reuses_box calm ticks [OpIsAvailable; OpExec echo_hi]
                  initial_globals echo_hi 4 eq_refl (or_introl eq_refl))).
Defined.

Lemma nothing_runs_before_availability_check_witness :
  log (reached calm ticks [OpExec echo_hi; OpStop; OpExec echo_hi] initial_globals) = [].
Proof.
  exact (proj1 (nothing_runs_before_availability_check calm ticks
                  [OpExec echo_hi; OpStop; OpExec echo_hi] initial_globals
                  echo_hi "/tmp/w/job.js" "/tmp/w" None eq_refl eq_refl)).
Defined.

End BoxLiteReuse.

Module BoxLiteScripts.
Import BoxLite BoxLiteInv BoxLiteFacts BoxLiteMore BoxLiteMoreFacts BoxLiteReuse.
Import StringFacts Samples.

Section Scripts.
Variable oracle : nat -> Answer.
Variable clock : nat -> Z.

Lemma nth_error_middle {A} (l1 l2 : list A) x n :
  n = length l1 -> nth_error (l1 ++ x :: l2) n = Some x.
Proof.
  intros ->. rewrite nth_error_app2 by lia. now rewrite Nat.sub_diag.
Qed.

(** X10. What [runScript] returns is the outcome of the script command and
    of nothing else: the output and the exit code are those of the command
    that ran the script (the call that follows the stopping of the old box,
    the creation of the new one and the optional install), whatever the
    copy-back did afterwards; the duration runs from just before the script
    command to the end of the copy-back, so it leaves out the creation of
    the box and the installation. *)
Theorem runScript_returns_script_outcome f w o s res :
  fst (runScript oracle clock f w o s) = Ok res ->
  exists b n,
    n = length (log s) + length (stop_events s) + 2
        + install_count (snd (BoxLite.select_runtime f)) (option_list o packages)
    /\ nth_error (log (snd (runScript oracle clock f w o s))) n
       = Some (BoxExec b "sh"
                 ["-c"; script_command w (snd (BoxLite.select_runtime f)) f
                          (join " " (option_list o so_args))])
    /\ a_throw (oracle n) = None
    /\ stdout res = a_stdout (oracle n)
    /\ stderr res = a_stderr (oracle n)
    /\ exitCode res = a_exitCode (oracle n)
    /\ duration res
       = (clock (length (log (snd (runScript oracle clock f w o s)))) - clock n)%Z.
Proof.
  intros E.
  destruct (runScript_spec oracle clock f w o s) as [_ [_ [_ H]]].
  destruct (H res E) as [b [cls [opts [post [L _]]]]].
  destruct (runScript_more oracle clock f w o s) as [_ [_ [_ [_ [_ [R _]]]]]].
  destruct (R res E) as [T Q].
  exists b. eexists. split; [reflexivity|].
  split.
  - rewrite L. repeat rewrite app_assoc. rewrite <- app_assoc. cbn [app].
    apply nth_error_middle.
    repeat rewrite length_app. rewrite install_events_length. cbn [length]. lia.
  - split; [exact T|]. rewrite Q. cbn. repeat split; reflexivity.
Qed.

(** X11. [runScript] has no [catch] around the box: when it rejects, the
    error is the one thrown by the last call made to the box library, or
    one of the two errors raised before any call ([BoxLite is not loaded],
    [Native module not loaded]); and up to that point the host file system
    has not been touched. *)
Theorem runScript_rejects_with_box_error f w o s e :
  fst (runScript oracle clock f w o s) = Throw e ->
  adds (fun ev => is_fs ev = false) s (snd (runScript oracle clock f w o s))
  /\ (e = Error "BoxLite is not loaded" \/ e = Error "Native module not loaded"
      \/ exists l ev, log (snd (runScript oracle clock f w o s)) = l ++ [ev]
                      /\ a_throw (oracle (length l)) = Some e).
Proof.
  intros E. now apply runScript_more.
Qed.

Lemma exec_creates o s :
  adds (creates_with (volumes (this s))) s (snd (exec oracle clock o s))
  /\ volumes (this (snd (exec oracle clock o s))) = volumes (this s).
Proof.
  split.
  - unfold exec, exec_try, exec_catch. unfold_m. cbn.
    pose proof (getOrCreateBox_image oracle (exec_targetImage o (this s)) s) as G.
    destruct (getOrCreateBox oracle (exec_targetImage o (this s)) s) as [[b|e] s1];
      cbn in G |- *; destruct G as [_ [_ G]].
    + destruct (a_throw (oracle (length (log s1)))); cbn;
        (eapply adds_trans; [exact G | snoc_one]).
    + exact G.
  - rewrite exec_this. apply getOrCreateBox_spec.
Qed.

(** X12. Every box is created with the volumes the provider holds at that
    moment.  [exec] passes the volumes of the last [setVolumes] and keeps
    them; [runScript] replaces them by the single mount of its work
    directory under its own path before it creates its box, and leaves that
    mount set: a box that a later [exec] creates gets the mount of the last
    script, not the volumes set before it. *)
Theorem boxes_created_with_current_volumes o f w so v s :
  adds (creates_with (volumes (this s))) s (snd (exec oracle clock o s))
  /\ volumes (this (snd (exec oracle clock o s))) = volumes (this s)
  /\ adds (creates_with [workDir_mount w]) s (snd (runScript oracle clock f w so s))
  /\ volumes (this (snd (runScript oracle clock f w so s))) = [workDir_mount w]
  /\ adds (creates_with [workDir_mount w])
       (snd (runScript oracle clock f w so (snd (setVolumes v s))))
       (snd (exec oracle clock o
               (snd (runScript oracle clock f w so (snd (setVolumes v s)))))).
Proof.
  destruct (exec_creates o s) as [E1 E2].
  destruct (runScript_more oracle clock f w so s) as [R1 [_ [R2 _]]].
  repeat split; auto.
  set (s1 := snd (runScript oracle clock f w so (snd (setVolumes v s)))).
  destruct (exec_creates o s1) as [E3 _].
  destruct (runScript_more oracle clock f w so (snd (setVolumes v s))) as [R3 _].
  fold s1 in R3. now rewrite R3 in E3.
Qed.

End Scripts.

Lemma runScript_returns_script_outcome_witness :
  exists b n,
    n = 0 + 0 + 2 + 1
    /\ nth_error (log (snd (runScript failing_install ticks "/tmp/w/job.js" "/tmp/w"
                              (with_packages ["left-pad"]) (initial_state loaded_globals)))) n
       = Some (BoxExec b "sh"
                 ["-c"; script_command "/tmp/w" "node" "/tmp/w/job.js" ""])
    /\ a_throw (failing_install n) = None
    /\ "done" = a_stdout (failing_install n)
    /\ "" = a_stderr (failing_install n)
    /\ 0%Z = a_exitCode (failing_install n)
    /\ (5 - 3)%Z = (ticks 5 - ticks n)%Z.
Proof.
  exact (runScript_returns_script_outcome failing_install ticks "/tmp/w/job.js" "/tmp/w"
           (with_packages ["left-pad"]) (initial_state loaded_globals)
           {| stdout := "done"; stderr := ""; exitCode := 0; duration := (5 - 3)%Z |}
           eq_refl).
Defined.

Lemma runScript_rejects_with_box_error_witness :
  adds (fun ev => is_fs ev = false) (initial_state initial_globals)
    (snd (runScript calm ticks "/tmp/w/job.js" "/tmp/w" None (initial_state initial_globals)))
  /\ (Error "BoxLite is not loaded" = Error "BoxLite is not loaded"
      \/ Error "BoxLite is not loaded" = Error "Native module not loaded"
      \/ exists l ev,
           log (snd (runScript calm ticks "/tmp/w/job.js" "/tmp/w" None
                       (initial_state initial_globals))) = l ++ [ev]
           /\ a_throw (calm (length l)) = Some (Error "BoxLite is not loaded")).
Proof.
  exact (runScript_rejects_with_box_error calm ticks "/tmp/w/job.js" "/tmp/w" None
           (initial_state initial_globals) (Error "BoxLite is not loaded") eq_refl).
Defined.

End BoxLiteScripts.

Module CopyBackOrder.
Import BoxLite BoxLiteInv BoxLiteFacts BoxLiteMore CopyBackMore BoxLiteScripts.
Import StringFacts Samples.

Section Order.
Variable oracle : nat -> Answer.

Lemma exec_commands_app l1 l2 :
  exec_commands (l1 ++ l2) = exec_commands l1 ++ exec_commands l2.
Proof. unfold exec_commands. apply flat_map_app. Qed.

Lemma written_from_read_app b l l' p c :
  written_from_read oracle b l p c -> written_from_read oracle b (l ++ l') p c.
Proof.
  intros [n [N R]]. exists n. split; auto.
  rewrite nth_error_app1; auto. apply nth_error_Some. congruence.
Qed.

Lemma sync_file_reads b f s :
  exists l,
    log (snd (sync_file oracle b f s))
    = log s ++ BoxExec b "sh" (read_command f) :: l
    /\ exec_commands l = []
    /\ (forall p c, In (FsWrite p c) l ->
        p = f /\ written_from_read oracle b (log (snd (sync_file oracle b f s))) p c).
Proof.
  unfold sync_file, read_command. unfold_m. cbn.
  repeat (break_match; cbn).
  all: repeat rewrite <- app_assoc; cbn [app].
  all: eexists; split; [reflexivity | split; [reflexivity |]].
  all: intros p c H; cbn in H.
  all: repeat match goal with
              | H : _ \/ _ |- _ => destruct H as [H|H]
              | H : False |- _ => contradiction
              | H : _ = FsWrite _ _ |- _ => first [discriminate H | inversion H; subst; clear H]
              end.
  all: split; [reflexivity|].
  all: exists (length (log s)); split; [apply nth_error_middle; reflexivity |].
  all: match goal with
       | H : (_ && _)%bool = true |- _ =>
           apply andb_true_iff in H; destruct H as [H1 H2]; apply Z.eqb_eq in H1
       end.
  all: repeat split; auto.
Qed.

Lemma sync_files_reads b files : forall s,
  exists l,
    log (snd (sync_files oracle b files s)) = log s ++ l
    /\ exec_commands l = map read_command files
    /\ (forall p c, In (FsWrite p c) l ->
        In p files
        /\ written_from_read oracle b (log (snd (sync_files oracle b files s))) p c).
Proof.
  induction files as [|f files IH]; intros s; cbn [sync_files].
  - exists []. unfold_m. cbn. rewrite app_nil_r. repeat split; auto; contradiction.
  - unfold bind.
    destruct (sync_file_reads b f s) as [l1 [L1 [C1 W1]]].
    pose proof (sync_file_spec oracle b f s) as F.
    destruct (sync_file oracle b f s) as [r1 s1]. cbn [fst snd] in *.
    destruct F as [F1 _]. subst r1.
    destruct (IH s1) as [l2 [L2 [C2 W2]]].
    destruct (sync_files oracle b files s1) as [r2 s2]. cbn [fst snd] in *.
    exists ((BoxExec b "sh" (read_command f) :: l1) ++ l2).
    split; [rewrite L2, L1, <- app_assoc; reflexivity|].
    split.
    + rewrite exec_commands_app. cbn [map]. rewrite <- C2.
      change (exec_commands (BoxExec b "sh" (read_command f) :: l1))
        with (read_command f :: exec_commands l1).
      rewrite C1. reflexivity.
    + intros p c H. apply in_app_or in H. destruct H as [H|H].
      * destruct H as [H|H]; [discriminate H|].
        destruct (W1 p c H) as [P R]. split; [now left|].
        rewrite L2. now apply written_from_read_app.
      * destruct (W2 p c H) as [P R]. split; [now right | exact R].
Qed.

Lemma files_to_sync_empty w sb : files_to_sync w sb "" = [].
Proof. reflexivity. Qed.

(** X13. The copy-back of [runScript] lists the work directory with one
    command and then reads every listed path that passes the filter
    exactly once, in the order of the listing, whether or not the files
    before it could be read or written; when the listing throws nothing
    else is done.  A host file is only ever written for a path of the
    filtered listing, and with the output, stripped of white space, of a
    [base64] command on that path that exited with code 0: a file whose read
    failed is left alone on the host. *)
Theorem copy_back_reads_each_file_once b w sb s :
  exists l,
    log (snd (sync_back oracle b w sb s))
    = log s ++ BoxExec b "sh" ["-c"; list_command w] :: l
    /\ (a_throw (oracle (length (log s))) = None ->
        exec_commands l
        = map read_command (files_to_sync w sb (a_stdout (oracle (length (log s))))))
    /\ (a_throw (oracle (length (log s))) <> None -> l = [])
    /\ (forall p c, In (FsWrite p c) l ->
        In p (files_to_sync w sb (a_stdout (oracle (length (log s)))))
        /\ written_from_read oracle b (log (snd (sync_back oracle b w sb s))) p c).
Proof.
  unfold sync_back. unfold_m. cbn.
  destruct (a_throw (oracle (length (log s)))) eqn:T; cbn.
  - exists []. repeat split; auto; try discriminate; contradiction.
  - destruct (truthy (a_stdout (oracle (length (log s))))) eqn:O; cbn.
    + match goal with
      | |- context [sync_files oracle b ?fs ?s0] =>
          destruct (sync_files_reads b fs s0) as [l [L [C W]]];
          pose proof (sync_files_spec oracle b fs s0) as R;
          destruct (sync_files oracle b fs s0) as [r2 s2]
      end.
      cbn [fst snd log] in *. destruct R as [R _]. subst r2. cbn.
      exists l. split; [rewrite L, <- app_assoc; reflexivity|].
      split; [auto|]. split; [congruence|]. exact W.
    + exists []. apply truthy_false in O. rewrite O, files_to_sync_empty.
      repeat split; auto; contradiction.
Qed.

End Order.
End CopyBackOrder.

Module ModuleState.
Import BoxLite BoxLiteInv BoxLiteFacts BoxLiteMore BoxLiteMoreFacts BoxLiteReuse.
Import StringFacts Samples.

Section Consistency.
Variable oracle : nat -> Answer.
Variable clock : nat -> Z.

Lemma initial_consistent : consistent initial_globals.
Proof.
  unfold consistent; cbn. repeat split; try congruence; try discriminate.
Qed.

Lemma isAvailable_consistent s :
  consistent (globals s) ->
  consistent (globals (snd (isAvailable oracle s)))
  /\ (SimpleBox (globals s) <> None ->
      SimpleBox (globals (snd (isAvailable oracle s))) <> None).
Proof.
  unfold consistent.
  unfold isAvailable, loadBoxLite, loadBoxLiteModule, loadNativeModuleDirect,
    verifyBoxLiteRuntime.
  unfold_m. cbn.
  repeat (break_match; cbn).
  all: intros [C1 [C2 [C3 C4]]].
  all: try (assert (L : SimpleBox (globals s) = None)
              by (destruct (SimpleBox (globals s)); [|reflexivity];
                  assert (X : false = true) by (apply C1; discriminate);
                  discriminate X)).
  all: repeat split; intros; try congruence; try discriminate; eauto.
  all: try (apply C1; reflexivity).
  all: try (apply C2; assumption).
  all: try (exfalso; congruence).
  all: try (match goal with
            | C : _ -> exists m, _ |- exists m, _ =>
                destruct C as [m [E1 E2]]; [congruence|]; exists m; split; congruence
            end).
  all: exfalso; apply (proj1 C1 eq_refl); reflexivity.
Qed.

Lemma consistent_op s op :
  consistent (globals s) /\ (box (this s) <> None -> SimpleBox (globals s) <> None) ->
  consistent (globals (run_op oracle clock s op))
  /\ (box (this (run_op oracle clock s op)) <> None ->
      SimpleBox (globals (run_op oracle clock s op)) <> None).
Proof.
  intros [C B]. destruct op as [c| |o|f w so|v| |]; cbn [run_op].
  - rewrite init_unfold. cbv zeta.
    set (s0 := {| globals := globals s; this := merged c (this s); log := log s |}).
    destruct (isAvailable_consistent s0 C) as [C' M].
    destruct (isAvailable_spec oracle s0) as [_ [T _]].
    assert (K : box (this (snd (isAvailable oracle s0))) <> None ->
                SimpleBox (globals (snd (isAvailable oracle s0))) <> None).
    { rewrite T. cbn. rewrite merged_box. intros N. apply M, B, N. }
    destruct (isAvailable oracle s0) as [[[|]|e] s1]; cbn in *; auto.
  - destruct (isAvailable_consistent s C) as [C' M].
    destruct (isAvailable_spec oracle s) as [_ [T _]].
    split; [exact C'|]. rewrite T. intros N. apply M, B, N.
  - destruct (exec_spec oracle clock o s) as [_ [G _]]. rewrite G.
    split; [exact C|]. rewrite exec_this. intros N.
    destruct (getOrCreateBox_image oracle (exec_targetImage o (this s)) s) as [_ [K _]].
    destruct (K N); auto.
  - destruct (runScript_spec oracle clock f w so s) as [G _]. rewrite G.
    split; [exact C|]. now apply runScript_more.
  - cbn. auto.
  - destruct (stop_spec oracle s) as [_ [G [T _]]]. rewrite G, T. cbn. split; [exact C|].
    intros N. now contradiction N.
  - unfold shutdown. destruct (stop_spec oracle s) as [_ [G [T _]]]. rewrite G, T. cbn.
    split; [exact C|]. intros N. now contradiction N.
Qed.

Lemma consistent_ops ops : forall s,
  consistent (globals s) /\ (box (this s) <> None -> SimpleBox (globals s) <> None) ->
  consistent (globals (run_ops oracle clock ops s))
  /\ (box (this (run_ops oracle clock ops s)) <> None ->
      SimpleBox (globals (run_ops oracle clock ops s)) <> None).
Proof.
  unfold run_ops. induction ops as [|op ops IH]; intros s H; cbn; auto.
  apply IH. now apply consistent_op.
Qed.

(** X14. The module variables stay consistent with each other over every
    sequence of provider operations of a freshly started process:
    [boxliteModuleLoaded] holds exactly when [SimpleBox] is bound;
    [SimpleBox] is [SimpleBoxDirect] only while the native addon with its
    [JsBoxlite] export is loaded; the runtime is marked verified only after
    the module was loaded, and no error text is stored before that; and
    the provider holds a box only when [SimpleBox] is bound.  Hence the
    check in the constructor of [SimpleBoxDirect] never fails: creating a
    box with the bound class always reaches the box library. *)
Theorem module_state_consistent ops owner cls opts :
  consistent (globals (reached oracle clock ops initial_globals))
  /\ (box (this (reached oracle clock ops initial_globals)) <> None ->
      SimpleBox (globals (reached oracle clock ops initial_globals)) <> None)
  /\ (SimpleBox (globals (reached oracle clock ops initial_globals)) = Some cls ->
      new_SimpleBox oracle owner cls opts (reached oracle clock ops initial_globals)
      = construct oracle owner cls opts (reached oracle clock ops initial_globals)).
Proof.
  assert (H : consistent (globals (reached oracle clock ops initial_globals))
              /\ (box (this (reached oracle clock ops initial_globals)) <> None ->
                  SimpleBox (globals (reached oracle clock ops initial_globals)) <> None)).
  { apply consistent_ops. split; [apply initial_consistent|].
    intros N. now contradiction N. }
  destruct H as [C B]. split; [exact C|]. split; [exact B|].
  intros S. unfold new_SimpleBox. unfold_m. cbn.
  destruct cls; [|reflexivity].
  destruct C as [_ [C2 _]]. destruct (C2 S) as [m [E1 E2]].
  rewrite E1, E2. reflexivity.
Qed.

End Consistency.
End ModuleState.

Module RuntimeProbe.
Import BoxLite BoxLiteInv BoxLiteFacts BoxLiteMore.
Import StringFacts Samples.

Section Probe.
Variable oracle : nat -> Answer.

Ltac norm_len :=
  repeat rewrite length_app in *; cbn [length] in *;
  repeat rewrite Nat.add_succ_r in *; repeat rewrite Nat.add_0_r in *.

Ltac in_cases :=
  repeat match goal with
         | H : In _ (_ :: _) |- _ => destruct H as [H|H]
         | H : In _ [] |- _ => contradiction H
         | H : BoxNew _ _ _ _ = BoxNew _ _ _ _ |- _ => inversion H; subst; clear H
         | H : _ = BoxNew _ _ _ _ |- _ => discriminate H
         | H : _ = BoxStop _ |- _ => first [discriminate H | inversion H; subst; clear H]
         end.

Ltac solve_true_case :=
  first [ intros; discriminate
        | intros _;
          first [ exists []; do 2 eexists; split; [reflexivity|]
                | eexists [_]; do 2 eexists; split; [reflexivity|]
                | eexists [_; _]; do 2 eexists; split; [reflexivity|] ];
          repeat split; auto; apply Z.eqb_eq; assumption ].

Ltac solve_stop_case :=
  let id := fresh "id" in
  let cls := fresh "cls" in
  let opts := fresh "opts" in
  let H := fresh "H" in
  intros id cls opts H; in_cases;
  (split;
   [ reflexivity
   | split;
     [ let A := fresh "A" in intros A; first [congruence | cbn; auto 6]
     | let A := fresh "A" in
       let I := fresh "I" in
       intros A I; first [congruence | cbn in I; intuition discriminate] ] ]).

Ltac solve_error_case :=
  let id := fresh "id" in
  let cls := fresh "cls" in
  let opts := fresh "opts" in
  let H := fresh "H" in
  let A := fresh "A" in
  intros id cls opts H A; in_cases; try congruence;
  (split;
   [ let e := fresh "e" in
     let E := fresh "E" in
     intros e E; first [congruence | split; [reflexivity | cbn; congruence]]
   | let E := fresh "E" in
     let X := fresh "X" in
     intros E X; first [congruence
                       | split; reflexivity
                       | exfalso; apply X; apply Z.eqb_eq; assumption] ]).

(** X15. The availability check answers [true] for the first time only
    after a test box was created with the fixed options of the check
    (alpine, 256 MiB, one CPU), ran [echo test] with exit code 0 and was
    stopped without error.  The test box is stopped exactly when the echo
    command returned; when that command throws the box is left as it is.
    A test box that cannot be stopped makes the check fail with the error
    of the stop, although the echo command succeeded; a non-zero exit code
    is reported in the stored error text. *)
Theorem availability_needs_a_test_run s :
  boxliteRuntimeVerified (globals s) = false ->
  exists l,
    log (snd (isAvailable oracle s)) = log s ++ l
    /\ (fst (isAvailable oracle s) = Ok true ->
        exists pre id cls,
          l = pre ++ [BoxNew id ByProbe cls testBox_options;
                      BoxExec id "echo" ["test"]; BoxStop id]
          /\ a_throw (oracle (S id)) = None
          /\ a_exitCode (oracle (S id)) = 0%Z
          /\ a_throw (oracle (S (S id))) = None)
    /\ (forall id cls opts, In (BoxNew id ByProbe cls opts) l ->
        opts = testBox_options
        /\ (a_throw (oracle (S id)) = None -> In (BoxStop id) l)
        /\ (a_throw (oracle (S id)) <> None -> ~ In (BoxStop id) l))
    /\ (forall id cls opts, In (BoxNew id ByProbe cls opts) l ->
        a_throw (oracle (S id)) = None ->
        (forall e, a_throw (oracle (S (S id))) = Some e ->
           fst (isAvailable oracle s) = Ok false
           /\ boxliteRuntimeError (globals (snd (isAvailable oracle s)))
              = Some (message e))
        /\ (a_throw (oracle (S (S id))) = None ->
            a_exitCode (oracle (S id)) <> 0%Z ->
            fst (isAvailable oracle s) = Ok false
            /\ boxliteRuntimeError (globals (snd (isAvailable oracle s)))
               = Some ("Test command failed with exit code "
                       ++ Z_to_string (a_exitCode (oracle (S id))))%string)).
Proof.
  intros V.
  unfold isAvailable, loadBoxLite, loadBoxLiteModule, loadNativeModuleDirect,
    verifyBoxLiteRuntime.
  unfold_m. cbn.
  repeat (break_match; cbn).
  all: try discriminate V.
  all: repeat rewrite <- app_assoc; cbn [app].
  all: first [ eexists; split; [reflexivity|]
             | exists []; split; [now rewrite app_nil_r|] ].
  all: norm_len.
  all: (split; [solve_true_case | split; [solve_stop_case | solve_error_case]]).
Qed.

End Probe.

(** In a world where every call succeeds the first check loads the native
    addon and runs the test box. *)
Lemma availability_needs_a_test_run_witness :
  exists l,
    log (snd (isAvailable calm (initial_state initial_globals))) = [] ++ l
    /\ In (BoxStop 1) l.
Proof.
  destruct (availability_needs_a_test_run calm (initial_state initial_globals) eq_refl)
    as [l [L [_ [S _]]]].
  exists l. split; [exact L|].
  apply (S 1 SimpleBoxDirect testBox_options); [|reflexivity].
  cbn in L. subst l. right. left. reflexivity.
Defined.

End RuntimeProbe.

Module FailedStart.
Import BoxLite BoxLiteInv BoxLiteFacts BoxLiteMore BoxLiteMoreFacts BoxLiteReuse.
Import StringFacts Samples.

Section Start.
Variable oracle : nat -> Answer.
Variable clock : nat -> Z.

Lemma exec_with_box o s b :
  box (this s) = Some b ->
  truthy (currentImage (this s)) = true ->
  (image o = None \/ image o = Some (currentImage (this s))) ->
  log (snd (exec oracle clock o s))
  = log s ++ [BoxExec b "sh" ["-c"; fullCommand o (exec_workDir o (this s))]].
Proof.
  intros B T I.
  assert (E : exec_targetImage o (this s) = currentImage (this s)).
  { unfold exec_targetImage. rewrite T.
    destruct I as [I|I]; rewrite I; cbn; [reflexivity | now rewrite T]. }
  unfold exec, exec_try, exec_catch. unfold_m. cbn.
  rewrite E, (getOrCreateBox_reuse oracle (currentImage (this s)) s b B eq_refl). cbn.
  destruct (a_throw (oracle (length (log s)))); reflexivity.
Qed.

(** X16. The provider takes hold of a new box before it is known to work:
    when the box is constructed but its first command, [echo Box ready],
    throws, [exec] reports that error as its result (exit code 1 unless
    the error carries one), and the provider keeps the box and its image.
    The next [exec] for the same image therefore creates no box: its
    command goes to the box whose start failed. *)
Theorem failed_start_keeps_the_box o o' s cls e :
  box (this s) = None ->
  SimpleBox (globals s) = Some cls ->
  (cls = SimpleBoxDirect ->
   exists m, nativeModule (globals s) = Some m /\ JsBoxlite m = true) ->
  a_throw (oracle (length (log s))) = None ->
  a_throw (oracle (S (length (log s)))) = Some e ->
  (image o' = None \/ image o' = Some (exec_targetImage o (this s))) ->
  (exists d, fst (exec oracle clock o s)
     = Ok {| stdout := or_str (e_stdout e) "";
             stderr := or_str (e_stderr e) (String_of e);
             exitCode := or_num (e_exitCode e) 1; duration := d |})
  /\ log (snd (exec oracle clock o s))
     = log s ++ [BoxNew (length (log s)) ByProvider cls
                   (box_options (this s) (exec_targetImage o (this s)));
                 BoxExec (length (log s)) "echo" ["Box ready"]]
  /\ box (this (snd (exec oracle clock o s))) = Some (length (log s))
  /\ currentImage (this (snd (exec oracle clock o s))) = exec_targetImage o (this s)
  /\ log (snd (exec oracle clock o' (snd (exec oracle clock o s))))
     = log (snd (exec oracle clock o s))
       ++ [BoxExec (length (log s)) "sh"
             ["-c"; fullCommand o' (exec_workDir o' (this (snd (exec oracle clock o s))))]].
Proof.
  intros B SB N C1 C2 I.
  assert (X : exec oracle clock o s
              = (Ok {| stdout := or_str (e_stdout e) "";
                       stderr := or_str (e_stderr e) (String_of e);
                       exitCode := or_num (e_exitCode e) 1;
                       duration := (clock (S (S (length (log s)))) - clock (length (log s)))%Z |},
                 {| globals := globals s;
                    this := set_currentImage (exec_targetImage o (this s))
                              (set_box (Some (length (log s))) (this s));
                    log := log s ++ [BoxNew (length (log s)) ByProvider cls
                                       (box_options (this s) (exec_targetImage o (this s)));
                                     BoxExec (length (log s)) "echo" ["Box ready"]] |})).
  { unfold exec, exec_try, exec_catch, getOrCreateBox. unfold_m. cbn.
    repeat (first [rewrite B | rewrite SB]; cbn).
    assert (A : match cls with
                | SimpleBoxDirect =>
                    match nativeModule (globals s) with
                    | Some m => JsBoxlite m
                    | None => false
                    end
                | SimpleBoxNpm => true
                end = true).
    { destruct cls; [|reflexivity]. destruct (N eq_refl) as [m [E1 E2]].
      now rewrite E1. }
    destruct cls.
    - cbn in A. rewrite A. cbn. rewrite C1. cbn.
      rewrite length_app. cbn [length]. rewrite Nat.add_1_r, C2. cbn.
      repeat rewrite length_app. cbn [length]. rewrite <- app_assoc.
      repeat f_equal. lia.
    - cbn. rewrite C1. cbn.
      rewrite length_app. cbn [length]. rewrite Nat.add_1_r, C2. cbn.
      repeat rewrite length_app. cbn [length]. rewrite <- app_assoc.
      repeat f_equal. lia. }
  rewrite X. cbn [fst snd log this box currentImage set_currentImage set_box].
  split; [eexists; reflexivity|]. repeat split.
  match goal with
  | |- log (snd (exec oracle clock o' ?s1)) = _ =>
      apply (exec_with_box o' s1 (length (log s)))
  end; cbn; auto.
  apply targetImage_truthy.
Qed.

End Start.

Lemma failed_start_keeps_the_box_witness :
  log (snd (exec (script [fine; throws "vm start failed"]) ticks echo_hi
              (snd (exec (script [fine; throws "vm start failed"]) ticks echo_hi
                      (initial_state loaded_globals)))))
  = log (snd (exec (script [fine; throws "vm start failed"]) ticks echo_hi
                (initial_state loaded_globals)))
    ++ [BoxExec 0 "sh" ["-c"; "cd /workspace && echo hi"]].
Proof.
  refine (proj2 (proj2 (proj2 (proj2
    (failed_start_keeps_the_box (script [fine; throws "vm start failed"]) ticks
       echo_hi echo_hi (initial_state loaded_globals) SimpleBoxNpm
       (Error "vm start failed") eq_refl eq_refl _ eq_refl eq_refl (or_introl eq_refl)))))).
  intros D. discriminate D.
Defined.

End FailedStart.

Module DirectBoxFacts.
Import DirectBox.

Section Facts.
Variable oracle : nat -> NativeAnswer.

Lemma nth_error_snoc {A} (l : list A) x : nth_error (l ++ [x]) (length l) = Some x.
Proof. rewrite nth_error_app2 by lia. now rewrite Nat.sub_diag. Qed.

Lemma nth_error_keep {A} (l l' : list A) n x :
  nth_error l n = Some x -> nth_error (l ++ l') n = Some x.
Proof.
  intros H. rewrite nth_error_app1; auto. apply nth_error_Some. congruence.
Qed.

Lemma Forall_none_or h (l : list NativeEvent) :
  Forall (fun e => target e = None) l ->
  Forall (fun e => target e = None \/ target e = Some h) l.
Proof. apply Forall_impl. auto. Qed.

Ltac wf_step :=
  repeat match goal with
         | |- _ /\ _ => split
         | |- Forall _ (_ ++ _) => apply Forall_app; split
         | |- Forall _ [_] => constructor; [cbn; auto | constructor]
         | |- nth_error (?l ++ [_]) (length ?l) = _ => apply nth_error_snoc
         | |- nth_error (_ ++ _) _ = _ => apply nth_error_keep; assumption
         | |- context [filter is_create (_ ++ _)] => rewrite filter_app; cbn [filter is_create]
         | |- context [length (_ ++ _)] => rewrite length_app; cbn [length]
         | |- context [_ ++ []] => rewrite app_nil_r
         | H : filter is_create ?l = [] |- context [filter is_create ?l] => rewrite H; cbn
         end;
  auto; try lia; try (apply Forall_none_or; assumption).

Lemma ensureBox_wf s : wf s -> wf (snd (_ensureBox oracle s)).
Proof.
  unfold wf, _ensureBox, await_box. intros [C W].
  destruct (_box s) as [h|] eqn:B; cbn; [rewrite B; auto|].
  destruct (_boxPromise s) as [[h|e]|] eqn:P; cbn.
  - destruct W as [W _]. congruence.
  - rewrite P, B. auto.
  - destruct W as [_ [F T]].
    destruct (n_created (oracle (length (calls s)))); cbn; wf_step.
Qed.

Lemma ensureBox_box s h :
  fst (_ensureBox oracle s) = Ok h -> _box (snd (_ensureBox oracle s)) = Some h.
Proof.
  unfold _ensureBox, await_box.
  destruct (_box s) as [h0|] eqn:B; cbn; [intros E; inversion E; subst; auto|].
  destruct (_boxPromise s) as [[h0|e]|] eqn:P; cbn;
    try (intros E; inversion E; subst; reflexivity).
  destruct (n_created (oracle (length (calls s)))); cbn;
    intros E; inversion E; subst; reflexivity.
Qed.

Lemma wf_sends s h c :
  wf s -> _box s = Some h -> target c = Some h ->
  wf {| _box := _box s; _boxPromise := _boxPromise s; calls := calls s ++ [c] |}.
Proof.
  unfold wf. cbn. intros [C W] B T.
  assert (N : is_create c = false) by (destruct c; cbn in *; congruence).
  rewrite filter_app. cbn [filter]. rewrite N, app_nil_r.
  split; [exact C|].
  destruct (_boxPromise s) as [[h0|e]|].
  - destruct W as [W1 [W2 W3]]. assert (h0 = h) by congruence. subst h0.
    wf_step.
  - destruct W as [W _]. congruence.
  - destruct W as [W _]. congruence.
Qed.

Lemma exec_wf cmd argv s : wf s -> wf (snd (exec oracle cmd argv s)).
Proof.
  intros W. unfold exec.
  pose proof (ensureBox_wf s W) as W1.
  pose proof (ensureBox_box s) as B1.
  destruct (_ensureBox oracle s) as [[h|e] s1]; cbn [fst snd] in *; [|exact W1].
  specialize (B1 h eq_refl).
  assert (W2 : wf {| _box := _box s1; _boxPromise := _boxPromise s1;
                     calls := calls s1 ++ [NExec h cmd argv] |})
    by (apply (wf_sends s1 h); auto).
  destruct (n_execution (oracle (length (calls s1)))) as [x|e]; [|exact W2].
  destruct (x_wait x); exact W2.
Qed.

Lemma stop_wf s : wf s -> wf (snd (stop oracle s)).
Proof.
  intros W. unfold stop. destruct (_box s) as [h|] eqn:B; [|exact W].
  assert (W2 : wf {| _box := _box s; _boxPromise := _boxPromise s;
                     calls := calls s ++ [NStop h] |})
    by (apply (wf_sends s h); auto).
  destruct (n_stopped (oracle (length (calls s)))); cbn [snd]; rewrite <- B; exact W2.
Qed.

Lemma run_calls_wf cs : forall s, wf s -> wf (run_calls oracle cs s).
Proof.
  unfold run_calls. induction cs as [|c cs IH]; intros s W; cbn; auto.
  apply IH. destruct c; cbn; [now apply exec_wf | now apply stop_wf].
Qed.

Lemma new_wf : wf new_SimpleBoxDirect.
Proof. unfold wf; cbn. repeat split; auto. Qed.

(** X17. A [SimpleBoxDirect] creates its native box lazily and once: over
    every sequence of [exec] and [stop] calls on one object, whatever the
    addon answers, at most one call of [runtime.create] returned a promise,
    and every command and every stop went to the box of that call.  In
    particular [exec] after [stop] goes to the stopped box, no new one is
    created. *)
Theorem native_box_created_once cs :
  length (filter is_create (calls (run_calls oracle cs new_SimpleBoxDirect))) <= 1
  /\ (forall e h,
        In e (calls (run_calls oracle cs new_SimpleBoxDirect)) ->
        target e = Some h ->
        nth_error (calls (run_calls oracle cs new_SimpleBoxDirect)) h = Some NCreate
        /\ _box (run_calls oracle cs new_SimpleBoxDirect) = Some h).
Proof.
  destruct (run_calls_wf cs new_SimpleBoxDirect new_wf) as [C W].
  split; [exact C|]. intros e h I T.
  destruct (_boxPromise (run_calls oracle cs new_SimpleBoxDirect)) as [[h0|e0]|].
  - destruct W as [W1 [W2 W3]]. rewrite Forall_forall in W3.
    destruct (W3 e I) as [X|X]; [congruence|].
    assert (h0 = h) by congruence. subst. auto.
  - destruct W as [_ W]. rewrite Forall_forall in W. specialize (W e I). congruence.
  - destruct W as [_ [_ W]]. rewrite Forall_forall in W. specialize (W e I). congruence.
Qed.

Lemma rejected_call s e c :
  _box s = None -> _boxPromise s = Some (Throw e) -> run_call oracle s c = s.
Proof.
  intros B P. destruct c; cbn; unfold exec, stop, _ensureBox, await_box;
    rewrite B; try rewrite P; reflexivity.
Qed.

Lemma rejected_calls cs : forall s e,
  _box s = None -> _boxPromise s = Some (Throw e) -> run_calls oracle cs s = s.
Proof.
  unfold run_calls. induction cs as [|c cs IH]; intros s e B P; cbn; auto.
  rewrite (rejected_call s e c B P). now apply (IH s e).
Qed.

(** X18. A rejected creation is final.  When the promise of
    [runtime.create] rejects, [exec] rejects with that error, and from then
    on the object is inert: whatever is called on it, no call reaches the
    addon any more, every [exec] rejects with the same error and [stop]
    does nothing. *)
Theorem rejected_creation_is_final cmd argv cmd' argv' cs s e :
  _box s = None -> _boxPromise s = None ->
  n_created (oracle (length (calls s))) = CreateRejects e ->
  fst (exec oracle cmd argv s) = Throw e
  /\ calls (snd (exec oracle cmd argv s)) = calls s ++ [NCreate]
  /\ run_calls oracle cs (snd (exec oracle cmd argv s)) = snd (exec oracle cmd argv s)
  /\ exec oracle cmd' argv' (run_calls oracle cs (snd (exec oracle cmd argv s)))
     = (Throw e, snd (exec oracle cmd argv s))
  /\ stop oracle (run_calls oracle cs (snd (exec oracle cmd argv s)))
     = (Ok tt, snd (exec oracle cmd argv s)).
Proof.
  intros B P C.
  assert (X : exec oracle cmd argv s
              = (Throw e, {| _box := None; _boxPromise := Some (Throw e);
                             calls := calls s ++ [NCreate] |})).
  { unfold exec, _ensureBox, await_box. rewrite B, P, C. reflexivity. }
  rewrite X. cbn [fst snd calls].
  rewrite (rejected_calls cs
             {| _box := None; _boxPromise := Some (Throw e);
                calls := calls s ++ [NCreate] |}
             e eq_refl eq_refl).
  repeat split.
Qed.

Lemma read_lines_until ls t rest :
  (forall l, t <> Line l) -> read_lines (map Line ls ++ t :: rest) = ls.
Proof.
  intros T. induction ls as [|l ls IH]; cbn.
  - destruct t; auto. now contradiction (T s).
  - now rewrite IH.
Qed.

Lemma read_lines_all ls : read_lines (map Line ls) = ls.
Proof. induction ls as [|l ls IH]; cbn; [reflexivity | now rewrite IH]. Qed.

(** X19. [exec] of a [SimpleBoxDirect] hands back what the command printed
    before its streams ended or broke: the lines of a stream are joined
    up to the first [null] or the first failing [next()], what the stream
    would give afterwards is not read, and a stream that cannot be opened
    counts as empty.  None of this makes [exec] fail: it rejects only with
    the error of the box creation, of [box.exec] or of [wait()], and
    otherwise returns the exit code that [wait()] gave. *)
Theorem direct_exec_collects_output cmd argv s :
  (forall h x code ls t rest,
      fst (_ensureBox oracle s) = Ok h ->
      n_execution (oracle (length (calls (snd (_ensureBox oracle s))))) = Ok x ->
      x_wait x = Ok code ->
      x_stdout x = Ok (Some (map Line ls ++ t :: rest)) ->
      (forall l, t <> Line l) ->
      fst (exec oracle cmd argv s)
      = Ok {| o_exitCode := code;
              o_stdout := join "" ls;
              o_stderr := join "" (lines_of (x_stderr x)) |}
      /\ (forall e, x_stderr x = Throw e -> join "" (lines_of (x_stderr x)) = ""))
  /\ (forall e, fst (exec oracle cmd argv s) = Throw e ->
      fst (_ensureBox oracle s) = Throw e
      \/ n_execution (oracle (length (calls (snd (_ensureBox oracle s))))) = Throw e
      \/ exists x,
           n_execution (oracle (length (calls (snd (_ensureBox oracle s))))) = Ok x
           /\ x_wait x = Throw e).
Proof.
  unfold exec.
  destruct (_ensureBox oracle s) as [[h|e0] s1]; cbn [fst snd].
  - destruct (n_execution (oracle (length (calls s1)))) as [x|e1] eqn:X.
    + destruct (x_wait x) as [code|e2] eqn:Wt; cbn; split.
      * intros h0 x0 code0 ls t rest E1 E2 E3 E4 T. inversion E2; subst.
        rewrite Wt in E3. inversion E3; subst. rewrite E4. cbn [lines_of].
        rewrite (read_lines_until ls t rest T). split; [reflexivity|].
        intros e E. rewrite E. reflexivity.
      * intros; discriminate.
      * intros h0 x0 code0 ls t rest E1 E2 E3. inversion E2; subst. congruence.
      * intros e E. inversion E; subst. right; right. exists x. auto.
    + cbn. split.
      * intros; discriminate.
      * intros e E. inversion E; subst. auto.
  - split.
    + intros; discriminate.
    + intros e E. inversion E; subst. auto.
Qed.

End Facts.

Lemma rejected_creation_is_final_witness :
  exec no_vm "echo" ["again"]
    (run_calls no_vm [CallStop; CallExec "ls" []]
       (snd (exec no_vm "echo" ["test"] new_SimpleBoxDirect)))
  = (Throw (Error "KVM is not available"),
     snd (exec no_vm "echo" ["test"] new_SimpleBoxDirect)).
Proof.
  exact (proj1 (proj2 (proj2 (proj2
           (rejected_creation_is_final no_vm "echo" ["test"] "echo" ["again"]
              [CallStop; CallExec "ls" []] new_SimpleBoxDirect
              (Error "KVM is not available") eq_refl eq_refl eq_refl))))).
Defined.

End DirectBoxFacts.

Module NativeLoaderFacts.
Import BoxLite NativeLoader.

Section Facts.
Variable path_join : list string -> string.
Variable h : Host.

Lemma search_sound dirs m :
  fst (search path_join h dirs) = Some m ->
  exists pre d post,
    dirs = pre ++ d :: post
    /\ Forall (fails path_join h) pre
    /\ existsSync h (path_join [d; nodeFileName h]) = true
    /\ require_file h (path_join [d; nodeFileName h]) = Ok m.
Proof.
  induction dirs as [|d dirs IH]; cbn; [discriminate|].
  destruct (existsSync h (path_join [d; nodeFileName h])) eqn:E.
  - destruct (require_file h (path_join [d; nodeFileName h])) as [m0|e] eqn:R; cbn.
    + intros X. inversion X; subst. exists [], d, dirs. repeat split; auto.
    + intros X. destruct (IH X) as [pre [d0 [post [D [F [E0 R0]]]]]].
      exists (d :: pre), d0, post. subst dirs. repeat split; auto.
      constructor; auto. right. eauto.
  - cbn. intros X. destruct (IH X) as [pre [d0 [post [D [F [E0 R0]]]]]].
    exists (d :: pre), d0, post. subst dirs. repeat split; auto.
    constructor; auto. now left.
Qed.

Lemma search_none dirs :
  fst (search path_join h dirs) = None -> Forall (fails path_join h) dirs.
Proof.
  induction dirs as [|d dirs IH]; cbn; [constructor|].
  destruct (existsSync h (path_join [d; nodeFileName h])) eqn:E.
  - destruct (require_file h (path_join [d; nodeFileName h])) as [m0|e] eqn:R; cbn.
    + discriminate.
    + intros X. constructor; auto. right. eauto.
  - cbn. intros X. constructor; auto. now left.
Qed.

(** Every [require] of a file follows a successful [existsSync] on that
    path, and each candidate is probed once. *)
Lemma search_events dirs :
  length (filter is_lookup (snd (search path_join h dirs))) <= length dirs
  /\ filter is_package (snd (search path_join h dirs)) = []
  /\ (forall p, In (RequireFile p) (snd (search path_join h dirs)) ->
      existsSync h p = true /\ In (Exists p) (snd (search path_join h dirs))).
Proof.
  induction dirs as [|d dirs [IH1 [IH2 IH3]]]; cbn.
  - repeat split; auto; contradiction.
  - destruct (existsSync h (path_join [d; nodeFileName h])) eqn:E.
    + destruct (require_file h (path_join [d; nodeFileName h])) as [m0|e] eqn:R; cbn.
      * repeat split; try lia.
        -- destruct H as [H|[H|H]]; try discriminate; try contradiction.
           inversion H; subst. exact E.
        -- destruct H as [H|[H|H]]; try discriminate; try contradiction.
           inversion H; subst. now left.
      * repeat split; try lia; auto.
        -- destruct H as [H|[H|H]]; try discriminate.
           ++ inversion H; subst. exact E.
           ++ now apply IH3.
        -- destruct H as [H|[H|H]]; try discriminate.
           ++ inversion H; subst. now left.
           ++ right; right. now apply IH3.
    + cbn. repeat split; try lia; auto.
      * destruct H as [H|H]; try discriminate. now apply IH3.
      * destruct H as [H|H]; try discriminate. right. now apply IH3.
Qed.

(** X20. The native addon is never loaded from a place that was not
    checked: the module that [loadNativeModuleDirect] returns is the one
    that [require] gave for the first search directory, in the order of
    [getBoxliteSearchPaths], whose addon file exists and loads, every
    directory before it having no file or a file that failed to load; only
    when no directory gives a module is the platform's npm package
    required, and then the module is that package.  At most three paths
    are probed, a file is required only after [existsSync] answered true
    for it, and no package is required after a file was loaded. *)
Theorem native_module_from_first_loadable_candidate m :
  fst (loadNativeModuleDirect path_join h None) = Some m ->
  ((exists pre d post,
      getBoxliteSearchPaths path_join h = pre ++ d :: post
      /\ Forall (fails path_join h) pre
      /\ existsSync h (path_join [d; nodeFileName h]) = true
      /\ require_file h (path_join [d; nodeFileName h]) = Ok m
      /\ filter is_package (snd (loadNativeModuleDirect path_join h None)) = [])
   \/ (Forall (fails path_join h) (getBoxliteSearchPaths path_join h)
       /\ exists name, fallback_package h = Some name
                       /\ require_package h name = Ok m))
  /\ length (filter is_lookup (snd (loadNativeModuleDirect path_join h None))) <= 3
  /\ (forall p, In (RequireFile p) (snd (loadNativeModuleDirect path_join h None)) ->
      existsSync h p = true
      /\ In (Exists p) (snd (loadNativeModuleDirect path_join h None))).
Proof.
  unfold loadNativeModuleDirect.
  destruct (negb (truthy (nodeFileName h))); [discriminate|].
  pose proof (search_sound (getBoxliteSearchPaths path_join h)) as S.
  pose proof (search_none (getBoxliteSearchPaths path_join h)) as N.
  destruct (search_events (getBoxliteSearchPaths path_join h)) as [E1 [E2 E3]].
  assert (L : length (getBoxliteSearchPaths path_join h) <= 3).
  { unfold getBoxliteSearchPaths. destruct (isBunBinary h); cbn; lia. }
  destruct (search path_join h (getBoxliteSearchPaths path_join h)) as [[m0|] evs];
    cbn [fst snd] in *.
  - intros X. inversion X; subst. split; [|split; [lia | exact E3]].
    left. destruct (S m eq_refl) as [pre [d [post [D [F [A B]]]]]].
    exists pre, d, post. repeat split; auto.
  - specialize (N eq_refl).
    destruct (fallback_package h) as [name|] eqn:FP; [|discriminate].
    destruct (require_package h name) as [m0|e] eqn:R; cbn [fst snd]; [|discriminate].
    intros X. inversion X; subst. split; [|split].
    + right. split; [exact N|]. exists name. auto.
    + rewrite filter_app. cbn. rewrite app_nil_r. lia.
    + intros p I. apply in_app_or in I. destruct I as [I|I].
      * destruct (E3 p I) as [A B]. split; [exact A|]. apply in_or_app. now left.
      * destruct I as [I|I]; [discriminate | contradiction].
Qed.

(** X21. Where the addon is not looked for.  On a platform other than
    darwin-arm64, linux-x64 and darwin-x64 nothing is probed or required
    and the answer is [null]; on darwin-x64 no npm package is ever
    required; a process whose executable path contains [node] or [bun] and
    not [workany-api] probes no file and can only get the npm package; and
    once a module is cached nothing is probed or required again. *)
Theorem addon_not_looked_for cached m :
  (nodeFileName h = "" -> loadNativeModuleDirect path_join h None = (None, []))
  /\ (nodeFileName h = ""
      <-> ~ (platform h = "darwin" /\ arch h = "arm64")
          /\ ~ (platform h = "linux" /\ arch h = "x64")
          /\ ~ (platform h = "darwin" /\ arch h = "x64"))
  /\ (platform h = "darwin" -> arch h = "x64" ->
      filter is_package (snd (loadNativeModuleDirect path_join h cached)) = [])
  /\ (isBunBinary h = false ->
      forall e, In e (snd (loadNativeModuleDirect path_join h cached)) ->
                is_package e = true)
  /\ loadNativeModuleDirect path_join h (Some m) = (Some m, []).
Proof.
  split; [|split; [|split; [|split]]].
  - intros F. unfold loadNativeModuleDirect. now rewrite F.
  - unfold nodeFileName.
    destruct (platform h =? "darwin") eqn:P1; destruct (arch h =? "arm64") eqn:A1;
      destruct (platform h =? "linux") eqn:P2; destruct (arch h =? "x64") eqn:A2;
      cbn;
      repeat match goal with
             | H : (_ =? _) = true |- _ => apply String.eqb_eq in H
             | H : (_ =? _) = false |- _ => apply String.eqb_neq in H
             end;
      split; try discriminate; try (intros [X1 [X2 X3]]);
      try (exfalso; auto; fail);
      try (repeat split; intros [Y1 Y2]; congruence).
  - intros P A. unfold loadNativeModuleDirect.
    destruct cached; [reflexivity|].
    destruct (negb (truthy (nodeFileName h))); [reflexivity|].
    destruct (search_events (getBoxliteSearchPaths path_join h)) as [_ [E2 _]].
    destruct (search path_join h (getBoxliteSearchPaths path_join h)) as [[m0|] evs];
      cbn [fst snd] in *; [exact E2|].
    unfold fallback_package. rewrite P, A. cbn. exact E2.
  - intros B e. unfold loadNativeModuleDirect.
    destruct cached; [intros []|].
    destruct (negb (truthy (nodeFileName h))); [intros []|].
    unfold getBoxliteSearchPaths. rewrite B. cbn.
    destruct (fallback_package h) as [name|]; [|intros []].
    destruct (require_package h name); cbn; intros [I|[]]; subst; reflexivity.
  - reflexivity.
Qed.

End Facts.

(** On the packaged Linux build the addon beside the executable is
    found at the first probe. *)
Lemma native_module_from_first_loadable_candidate_witness :
  fst (loadNativeModuleDirect (join "/") packaged_linux None) = Some {| JsBoxlite := true |}
  /\ forall p,
       In (RequireFile p) (snd (loadNativeModuleDirect (join "/") packaged_linux None)) ->
       existsSync packaged_linux p = true
       /\ In (Exists p) (snd (loadNativeModuleDirect (join "/") packaged_linux None)).
Proof.
  split; [reflexivity|].
  exact (proj2 (proj2 (native_module_from_first_loadable_candidate (join "/")
                         packaged_linux {| JsBoxlite := true |} eq_refl))).
Defined.

End NativeLoaderFacts.
